(** * Book-Buddy API: the request lifecycle and its effect on books

    A shallow embedding of the request handlers of
    [src/controllers/requestController.js], of [deleteBook] from the book
    controller, of [userSchema.methods.updateRating] and of the Joi schemas of
    [middleware/validation.js] that guard the request routes.

    The three Mongoose collections are finite maps from document ids to
    documents.  A handler is a computation over this store that either goes
    on or ends the call with an HTTP reply; every [return res.status(..)]
    of the source is a [reply], and an exception caught by the handler's
    [try]/[catch] is a reply with code 500 that keeps the writes done so
    far.

    The handlers come in two layers.  The first takes a call whose ids are
    ObjectIds and whose rating is a number: what each handler does once
    Mongoose has cast the strings of the call.  The second (module [Http])
    takes the call as Express hands it over, with ids as strings that may
    not cast and a rating that may be a numeric string.

    What the model leaves out: JavaScript numbers are exact rationals; the
    timestamps Mongoose maintains and the document fields no handler below
    reads are not represented; [populate] resolves whole documents, without
    the field selection; the text of errors raised by Mongoose itself is
    abridged; the database never fails. *)

From Stdlib Require Import QArith Lqa.
From stdpp Require Import gmap strings list fin_maps.

Local Open Scope string_scope.
Local Open Scope N_scope.

(** ** Documents *)

(** A Mongo [ObjectId]; [req.user.id] and [doc.owner.toString()] are equal
    exactly when the ids are.  The strings a call carries in their place,
    which may fail to cast to an ObjectId, are [RawId] below. *)
Abbreviation ObjectId := N.

(** [new Date()], in milliseconds since the epoch. *)
Abbreviation Date := Z.

(** The status names used by [validTransitions]. *)
Inductive Status := pending | accepted | rejected | completed | cancelled.

(** [type: enum ['free', 'exchange']] of the request schema. *)
Inductive Kind := free | exchange.

(** [status: enum ['Available', 'Not Available']] of the book schema. *)
Inductive Availability := Available | NotAvailable.

#[global] Instance Status_eq_dec : EqDecision Status.
Proof. solve_decision. Defined.
#[global] Instance Kind_eq_dec : EqDecision Kind.
Proof. solve_decision. Defined.
#[global] Instance Availability_eq_dec : EqDecision Availability.
Proof. solve_decision. Defined.

Definition status_name (st : Status) : string :=
  match st with
  | pending => "pending"
  | accepted => "accepted"
  | rejected => "rejected"
  | completed => "completed"
  | cancelled => "cancelled"
  end.

(** The status a request body asks for is an arbitrary string; only the
    five names denote a status. *)
Definition status_of_name (s : string) : option Status :=
  if String.eqb s "pending" then Some pending
  else if String.eqb s "accepted" then Some accepted
  else if String.eqb s "rejected" then Some rejected
  else if String.eqb s "completed" then Some completed
  else if String.eqb s "cancelled" then Some cancelled
  else None.

(** [rating: { average, count }] of the user schema (defaults 0 and 0).  A
    JavaScript number is taken as an exact rational. *)
Record UserRating := { average : Q; count : N }.

Record User := {
  u_name : string;
  u_email : string;
  u_rating : UserRating;
  u_isActive : bool
}.

Record Book := {
  b_title : string;
  b_author : string;
  b_owner : ObjectId;
  b_status : Availability;
  b_isActive : bool
}.

(** [rating: { requesterRating, ownerRating, requesterReview, ownerReview }];
    a field that was never set is [None]. *)
Record RequestRating := {
  requesterRating : option Q;
  ownerRating : option Q;
  requesterReview : option string;
  ownerReview : option string
}.

Record Request := {
  requester : ObjectId;
  book : ObjectId;
  owner : ObjectId;
  type : Kind;
  status : Status;
  offeredBooks : option ObjectId;
  rating : RequestRating;
  completedAt : option Date
}.

(** The document store: the collections behind the models [User], [Book]
    and [Request]. *)
Record Store := {
  users : gmap ObjectId User;
  books : gmap ObjectId Book;
  requests : gmap ObjectId Request
}.

Definition with_users (f : gmap ObjectId User → gmap ObjectId User) (s : Store) : Store :=
  {| users := f (users s); books := books s; requests := requests s |}.
Definition with_books (f : gmap ObjectId Book → gmap ObjectId Book) (s : Store) : Store :=
  {| users := users s; books := f (books s); requests := requests s |}.
Definition with_requests (f : gmap ObjectId Request → gmap ObjectId Request) (s : Store) : Store :=
  {| users := users s; books := books s; requests := f (requests s) |}.

(** ** Replies *)

(** A request with its references resolved by [populate]; a reference whose
    document is missing (or that was never set) comes back as [None]. *)
Record Populated := {
  doc : Request;
  p_requester : option User;
  p_book : option Book;
  p_owner : option User;
  p_offeredBooks : option Book
}.

Inductive Data :=
  | NoData
  | RequestData (p : option Populated)
  | RatingData (r : RequestRating).

(** [res.status(code).json({ status, message, data })]. *)
Record Response := {
  code : N;
  ok : bool;
  message : option string;
  data : Data
}.

Definition failure (c : N) (msg : string) : Response :=
  {| code := c; ok := false; message := Some msg; data := NoData |}.
Definition success (c : N) (msg : option string) (d : Data) : Response :=
  {| code := c; ok := true; message := msg; data := d |}.

(** ** Handlers *)

Inductive Outcome (A : Type) :=
  | Next (a : A)
  | Reply (r : Response).
Arguments Next {A} a.
Arguments Reply {A} r.

Definition Action (A : Type) : Type := Store → Outcome A * Store.

Definition ret {A} (a : A) : Action A := λ s, (Next a, s).
Definition bind {A B} (m : Action A) (f : A → Action B) : Action B :=
  λ s, match m s with
       | (Next a, s') => f a s'
       | (Reply r, s') => (Reply r, s')
       end.
Definition reply {A} (r : Response) : Action A := λ s, (Reply r, s).
Definition read {A} (f : Store → A) : Action A := λ s, (Next (f s), s).
Definition write (f : Store → Store) : Action unit := λ s, (Next tt, f s).
(** [if (c) { return res... }] *)
Definition reply_if (c : bool) (r : Response) : Action unit :=
  if c then reply r else ret tt.
(** An exception inside [try]: the [catch] block answers 500 with the
    error's message. *)
Definition throw {A} (msg : string) : Action A := reply (failure 500 msg).

#[global] Instance Action_ret : MRet Action := @ret.
#[global] Instance Action_bind : MBind Action := λ A B f m, bind m f.

(** A handler always ends by sending a reply. *)
Definition Handler : Type := Action Empty_set.
Definition handle (h : Handler) (s : Store) : Response * Store :=
  match h s with
  | (Reply r, s') => (r, s')
  | (Next e, _) => match e with end
  end.

(** What Express hands to a handler: the authenticated user ([req.user.id],
    set by the [auth] middleware), [req.params.id] once it has been cast to
    an ObjectId, the body and the time of the call.  [RawReq] below is the
    call with [req.params.id] as the string it is. *)
Record Req (B : Type) := {
  user_id : ObjectId;
  params_id : ObjectId;
  body : B;
  now : Date
}.
Arguments user_id {B} _.
Arguments params_id {B} _.
Arguments body {B} _.
Arguments now {B} _.

(** ** Model operations *)

Definition populate (r : Request) (s : Store) : Populated :=
  {| doc := r;
     p_requester := users s !! requester r;
     p_book := books s !! book r;
     p_owner := users s !! owner r;
     p_offeredBooks := offeredBooks r ≫= λ b, books s !! b |}.

Definition set_status (st : Status) (r : Request) : Request :=
  {| requester := requester r; book := book r; owner := owner r; type := type r;
     status := st; offeredBooks := offeredBooks r; rating := rating r;
     completedAt := completedAt r |}.
Definition set_completedAt (d : Date) (r : Request) : Request :=
  {| requester := requester r; book := book r; owner := owner r; type := type r;
     status := status r; offeredBooks := offeredBooks r; rating := rating r;
     completedAt := Some d |}.
Definition set_rating (rt : RequestRating) (r : Request) : Request :=
  {| requester := requester r; book := book r; owner := owner r; type := type r;
     status := status r; offeredBooks := offeredBooks r; rating := rt;
     completedAt := completedAt r |}.

Definition set_b_status (a : Availability) (b : Book) : Book :=
  {| b_title := b_title b; b_author := b_author b; b_owner := b_owner b;
     b_status := a; b_isActive := b_isActive b |}.
Definition set_b_owner (o : ObjectId) (b : Book) : Book :=
  {| b_title := b_title b; b_author := b_author b; b_owner := o;
     b_status := b_status b; b_isActive := b_isActive b |}.
Definition set_b_isActive (a : bool) (b : Book) : Book :=
  {| b_title := b_title b; b_author := b_author b; b_owner := b_owner b;
     b_status := b_status b; b_isActive := a |}.

(** [Model.findByIdAndUpdate(id, update)]: a missing document is left
    missing. *)
Definition Book_findByIdAndUpdate (id : ObjectId) (f : Book → Book) : Action unit :=
  write (with_books (alter f id)).

(** The documents of a collection that match a query. *)
Definition matching {A} (P : A → bool) (m : gmap ObjectId A) : list (ObjectId * A) :=
  List.filter (λ kv, P kv.2) (map_to_list m).
(** [Model.findOne(query)] and [Model.countDocuments(query)]. *)
Definition findOne {A} (P : A → bool) (m : gmap ObjectId A) : option A :=
  snd <$> head (matching P m).
Definition countDocuments {A} (P : A → bool) (m : gmap ObjectId A) : nat :=
  length (matching P m).

Definition Request_findById (id : ObjectId) : Action (option Request) :=
  read (λ s, requests s !! id).
Definition Book_findById (id : ObjectId) : Action (option Book) :=
  read (λ s, books s !! id).
Definition User_findById (id : ObjectId) : Action (option User) :=
  read (λ s, users s !! id).

(** ** [updateRequest]: PUT /api/requests/:id *)

Record UpdateBody := {
  ub_status : option string;
  ub_meetingDetails : option string
}.

Definition validTransitions (st : Status) : list string :=
  match st with
  | pending => ["accepted"; "rejected"; "cancelled"]
  | accepted => ["completed"; "cancelled"]
  | rejected => []
  | completed => []
  | cancelled => []
  end.

(** [list.includes(x)] where [x] may be [undefined]. *)
Definition includes (l : list string) (x : option string) : bool :=
  match x with
  | Some v => bool_decide (v ∈ l)
  | None => false
  end.

(** [x === 'lit'] where [x] may be [undefined]. *)
Definition is_str (x : option string) (lit : string) : bool :=
  bool_decide (x = Some lit).

(** A value spliced into a template literal. *)
Definition show (x : option string) : string := default "undefined" x.

(** The fields of [updateData] that the request schema knows; the schema
    has no [meetingDetails] path, so that field is dropped by the update. *)
Definition apply_updateData (st : Status) (done_at : option Date) (r : Request) : Request :=
  let r := set_status st r in
  match done_at with
  | Some d => set_completedAt d r
  | None => r
  end.

Definition updateRequest (req : Req UpdateBody) : Handler :=
  let new_status := ub_status (body req) in
  request ← Request_findById (params_id req);
  match request with
  | None => reply (failure 404 "Request not found")
  | Some request =>
    (* Check authorization based on status change *)
    (if is_str new_status "accepted" || is_str new_status "rejected" then
       reply_if (negb (owner request =? user_id req))
         (failure 403 "Only book owner can accept or reject requests")
     else if is_str new_status "cancelled" then
       reply_if (negb (requester request =? user_id req))
         (failure 403 "Only requester can cancel the request")
     else if is_str new_status "completed" then
       reply_if (negb (requester request =? user_id req) &&
                 negb (owner request =? user_id req))
         (failure 403 "Not authorized to update this request")
     else mret tt);;
    (* Validate status transitions *)
    reply_if (negb (includes (validTransitions (status request)) new_status))
      (failure 400 ("Cannot change status from " ++ status_name (status request)
                    ++ " to " ++ show new_status));;
    (* Update request *)
    match new_status ≫= status_of_name with
    | None =>
      (* not reached: every name in [validTransitions] is a status *)
      throw "Cast to string failed for value at path status"
    | Some st =>
      let done_at := if is_str new_status "completed" then Some (now req) else None in
      write (with_requests (alter (apply_updateData st done_at) (params_id req)));;
      updatedRequest ← read (λ s, (λ r, populate r s) <$> requests s !! params_id req);
      (* Update book status based on request status *)
      (if is_str new_status "accepted" then
         Book_findByIdAndUpdate (book request) (set_b_status NotAvailable)
       else if is_str new_status "completed" then
         match type request with
         | free =>
           Book_findByIdAndUpdate (book request)
             (λ b, set_b_owner (requester request) (set_b_status NotAvailable b))
         | exchange =>
           Book_findByIdAndUpdate (book request)
             (λ b, set_b_owner (requester request) (set_b_status NotAvailable b));;
           match offeredBooks request with
           | Some offered =>
             Book_findByIdAndUpdate offered
               (λ b, set_b_owner (owner request) (set_b_status NotAvailable b))
           | None => mret tt
           end
         end
       else mret tt);;
      reply (success 200 (Some ("Request " ++ show new_status ++ " successfully"))
               (RequestData updatedRequest))
    end
  end.


(** ** [createRequest]: POST /api/requests *)

(** The body [{ book, type, offeredBooks }] as [createRequestSchema] lets it
    through, with its ids cast: [book] and [type] are required,
    [offeredBooks] is optional.  [Http.RawCreateBody] below is the body
    with the ids as strings. *)
Record CreateBody := {
  cb_book : ObjectId;
  cb_type : Kind;
  cb_offeredBooks : option ObjectId
}.

Definition no_rating : RequestRating :=
  {| requesterRating := None; ownerRating := None;
     requesterReview := None; ownerReview := None |}.

(** [Request.create(requestData)]: the schema defaults fill in the rest,
    and the new document gets an id no request has. *)
Definition Request_create (requester book owner : ObjectId) (type : Kind)
    (offeredBooks : option ObjectId) : Action (ObjectId * Request) :=
  let r := {| requester := requester; book := book; owner := owner; type := type;
              status := pending; offeredBooks := offeredBooks;
              rating := no_rating; completedAt := None |} in
  id ← read (λ s, fresh (dom (requests s)));
  write (with_requests (insert id r));;
  mret (id, r).

(** The query [{ requester, book, status: 'pending' }]. *)
Definition pending_for (uid bookId : ObjectId) (r : Request) : bool :=
  (requester r =? uid) && (book r =? bookId) && bool_decide (status r = pending).

(** The query [{ owner, isActive: true, status: 'Available' }]. *)
Definition owned_available (uid : ObjectId) (b : Book) : bool :=
  (b_owner b =? uid) && b_isActive b && bool_decide (b_status b = Available).

Definition createRequest (req : Req CreateBody) : Handler :=
  let bookId := cb_book (body req) in
  let type := cb_type (body req) in
  let offeredBooks := cb_offeredBooks (body req) in
  (* Check if book exists and is available *)
  found ← Book_findById bookId;
  match found with
  | None => reply (failure 404 "Book not found")
  | Some target =>
    reply_if (negb (b_isActive target)) (failure 404 "Book not found");;
    reply_if (negb (bool_decide (b_status target = Available)))
      (failure 400 "Book is not available for requests");;
    (* Check if user is trying to request their own book *)
    reply_if (b_owner target =? user_id req)
      (failure 400 "You cannot request your own book");;
    (* Check if user already has a pending request for this book *)
    existingRequest ← read (λ s,
      findOne (pending_for (user_id req) bookId) (requests s));
    reply_if (bool_decide (is_Some existingRequest))
      (failure 400 "You already have a pending request for this book");;
    (* Validate request based on type *)
    offered ← match type with
      | free => mret None
      | exchange =>
        match offeredBooks with
        | None => reply (failure 400 "Exchange requests must include an offered book")
        | Some offeredId =>
          (* Validate offered book belongs to requester *)
          userBook ← read (λ s, books s !! offeredId ≫= λ b,
            if owned_available (user_id req) b then Some b else None);
          reply_if (negb (bool_decide (is_Some userBook)))
            (failure 400 "Offered book is not valid or not available");;
          mret (Some offeredId)
        end
      end;
    '(id, request) ← Request_create (user_id req) bookId (b_owner target) type offered;
    populated ← read (populate request);
    reply (success 201 (Some "Request created successfully")
             (RequestData (Some populated)))
  end.

(** ** [getRequestById]: GET /api/requests/:id *)

Definition getRequestById (req : Req unit) : Handler :=
  request ← read (λ s, (λ r, populate r s) <$> requests s !! params_id req);
  match request with
  | None => reply (failure 404 "Request not found")
  | Some request =>
    (* Check if user is involved in this request; [request.requester._id]
       throws when the populated reference is null *)
    match p_requester request with
    | None => throw "Cannot read properties of null (reading '_id')"
    | Some _ =>
      (if negb (requester (doc request) =? user_id req) then
         match p_owner request with
         | None => throw "Cannot read properties of null (reading '_id')"
         | Some _ =>
           reply_if (negb (owner (doc request) =? user_id req))
             (failure 403 "Not authorized to view this request")
         end
       else mret tt);;
      reply (success 200 None (RequestData (Some request)))
    end
  end.

(** ** [updateRating] of the user model and [rateRequest] *)

Definition Qnum_of (n : N) : Q := inject_Z (Z.of_N n).

(** [userSchema.methods.updateRating], before the [save]. *)
Definition updateRating (newRating : Q) (u : User) : User :=
  let totalRating := (average (u_rating u) * Qnum_of (count (u_rating u)) + newRating)%Q in
  let count' := count (u_rating u) + 1 in
  {| u_name := u_name u; u_email := u_email u;
     u_rating := {| average := (totalRating / Qnum_of count')%Q; count := count' |};
     u_isActive := u_isActive u |}.

Definition between (lo hi x : Q) : bool := Qle_bool lo x && Qle_bool x hi.

(** [text.length] as JavaScript counts it, in UTF-16 code units, for a text
    held as its UTF-8 bytes: a continuation byte adds nothing, the first
    byte of a character of up to three bytes adds one unit, and the first
    byte of a four-byte character adds two (a surrogate pair). *)
Definition utf16_units (a : Ascii.ascii) : nat :=
  let n := Ascii.nat_of_ascii a in
  if (n <? 128)%nat then 1%nat
  else if (n <? 192)%nat then 0%nat
  else if (n <? 240)%nat then 1%nat
  else 2%nat.
Fixpoint utf16_length (t : string) : nat :=
  match t with
  | EmptyString => 0%nat
  | String a t' => (utf16_units a + utf16_length t')%nat
  end.

(** [user.save()] after [updateRating]: the modified path [rating.average]
    is checked against its [min: 0] and [max: 5]. *)
Definition User_save (id : ObjectId) (u : User) : Action unit :=
  if between 0 5 (average (u_rating u)) then write (with_users (insert id u))
  else throw "User validation failed: rating.average".

(** [request.save()] after a rating: the modified rating paths are checked
    against [min: 1], [max: 5] and [maxlength: 500]. *)
Definition rating_valid (r : option Q) (review : option string) : bool :=
  from_option (between 1 5) true r &&
  from_option (λ t, bool_decide (utf16_length t ≤ 500)%nat) true review.

(** The body [{ rating, review }] when [rating] is a JSON number; a body
    whose rating is a numeric string is [Http.RawRateBody] below. *)
Record RateBody := {
  rb_rating : Q;
  rb_review : option string
}.

(** Truthiness of a number that may be [undefined]. *)
Definition truthy (x : option Q) : bool :=
  match x with
  | Some q => negb (Qeq_bool q 0)
  | None => false
  end.

Definition rateRequest (req : Req RateBody) : Handler :=
  let rating' := rb_rating (body req) in
  let review := rb_review (body req) in
  request ← Request_findById (params_id req);
  match request with
  | None => reply (failure 404 "Request not found")
  | Some request =>
    reply_if (negb (bool_decide (status request = completed)))
      (failure 400 "Can only rate completed requests");;
    (* Check if user is involved in this request *)
    let isRequester := requester request =? user_id req in
    let isOwner := owner request =? user_id req in
    reply_if (negb isRequester && negb isOwner)
      (failure 403 "Not authorized to rate this request");;
    (* Update rating based on user role *)
    new_rating ←
      (if isRequester then
         reply_if (truthy (requesterRating (rating request)))
           (failure 400 "You have already rated this request");;
         (* Update owner's rating *)
         found ← User_findById (owner request);
         match found with
         | None => throw "Cannot read properties of null (reading 'updateRating')"
         | Some u => User_save (owner request) (updateRating rating' u)
         end;;
         mret {| requesterRating := Some rating'; ownerRating := ownerRating (rating request);
                 requesterReview := review; ownerReview := ownerReview (rating request) |}
       else
         reply_if (truthy (ownerRating (rating request)))
           (failure 400 "You have already rated this request");;
         (* Update requester's rating *)
         found ← User_findById (requester request);
         match found with
         | None => throw "Cannot read properties of null (reading 'updateRating')"
         | Some u => User_save (requester request) (updateRating rating' u)
         end;;
         mret {| requesterRating := requesterRating (rating request); ownerRating := Some rating';
                 requesterReview := requesterReview (rating request); ownerReview := review |});
    (* request.save() *)
    (if rating_valid (Some rating') review
     then write (with_requests (alter (set_rating new_rating) (params_id req)))
     else throw "Request validation failed: rating");;
    reply (success 200 (Some "Rating submitted successfully") (RatingData new_rating))
  end.

(** ** [deleteRequest]: DELETE /api/requests/:id *)

Definition deleteRequest (req : Req unit) : Handler :=
  request ← Request_findById (params_id req);
  match request with
  | None => reply (failure 404 "Request not found")
  | Some request =>
    (* Only requester can delete their own request *)
    reply_if (negb (requester request =? user_id req))
      (failure 403 "Not authorized to delete this request");;
    (* Can only delete cancelled or rejected requests *)
    reply_if (negb (includes ["cancelled"; "rejected"] (Some (status_name (status request)))))
      (failure 400 "Can only delete cancelled or rejected requests");;
    write (with_requests (delete (params_id req)));;
    reply (success 200 (Some "Request deleted successfully") NoData)
  end.

(** ** [deleteBook]: DELETE /api/books/:id *)

(** The query [{ book, status: 'pending' }]. *)
Definition pending_on (bookId : ObjectId) (r : Request) : bool :=
  (book r =? bookId) && bool_decide (status r = pending).

Definition deleteBook (req : Req unit) : Handler :=
  found ← Book_findById (params_id req);
  match found with
  | None => reply (failure 404 "Book not found")
  | Some target =>
    (* Check if user owns the book *)
    reply_if (negb (b_owner target =? user_id req))
      (failure 403 "Not authorized to delete this book");;
    (* Check if there are pending requests *)
    pendingRequests ← read (λ s,
      countDocuments (pending_on (params_id req)) (requests s));
    reply_if (bool_decide (0 < pendingRequests)%nat)
      (failure 400 "Cannot delete book with pending requests");;
    (* Soft delete - mark as inactive *)
    write (with_books (insert (params_id req)
             (set_b_status NotAvailable (set_b_isActive false target))));;
    reply (success 200 (Some "Book deleted successfully") NoData)
  end.

(** ** The validation middleware and the guarded routes *)

(** A key name as Joi prints it, between double quotes. *)
Definition label (k : string) : string :=
  String (Ascii.ascii_of_nat 34) k ++ String (Ascii.ascii_of_nat 34) "".

(** [updateRequestSchema]: [status] is optional and one of accepted and
    completed; no other key is allowed.  The result is the message of the
    first error, if any. *)
Definition updateRequestSchema (b : UpdateBody) : option string :=
  match ub_status b with
  | Some v =>
    if bool_decide (v ∈ ["accepted"; "completed"]) then
      if bool_decide (is_Some (ub_meetingDetails b))
      then Some (label "meetingDetails" ++ " is not allowed") else None
    else Some (label "status" ++ " must be one of [accepted, completed]")
  | None =>
    if bool_decide (is_Some (ub_meetingDetails b))
    then Some (label "meetingDetails" ++ " is not allowed") else None
  end.

(** [rateRequestSchema]: [rating] a number from 1 to 5, [review] an
    optional non-empty string of at most 500 characters, which Joi counts
    as [text.length]. *)
Definition rateRequestSchema (b : RateBody) : option string :=
  if negb (Qle_bool 1 (rb_rating b)) then
    Some (label "rating" ++ " must be greater than or equal to 1")
  else if negb (Qle_bool (rb_rating b) 5) then
    Some (label "rating" ++ " must be less than or equal to 5")
  else match rb_review b with
       | Some t =>
         if String.eqb t "" then Some (label "review" ++ " is not allowed to be empty")
         else if bool_decide (utf16_length t ≤ 500)%nat then None
         else Some (label "review"
                    ++ " length must be less than or equal to 500 characters long")
       | None => None
       end.

(** [validate(schema)]: answer 400 with the first error, or call [next()]. *)
Definition validate {B} (schema : B → option string) (b : B) : Action unit :=
  match schema b with
  | Some msg => reply (failure 400 msg)
  | None => mret tt
  end.

(** [router.route('/:id').put(auth, validate(updateRequestSchema), updateRequest)],
    after [auth] has identified the caller. *)
Definition put_request (req : Req UpdateBody) : Handler :=
  validate updateRequestSchema (body req);; updateRequest req.

(** [router.post('/:id/rate', auth, validate(rateRequestSchema), rateRequest)]. *)
Definition post_rate (req : Req RateBody) : Handler :=
  validate rateRequestSchema (body req);; rateRequest req.


(** * The specification's vocabulary *)

(** ** The transition table *)

(** The five edges: pending to accepted, rejected or cancelled, and accepted
    to completed or cancelled. *)
Definition edge (from to : Status) : bool :=
  match from, to with
  | pending, accepted | pending, rejected | pending, cancelled
  | accepted, completed | accepted, cancelled => true
  | _, _ => false
  end.

(** The actor column: who may ask for a status. *)
Definition allowed_actor (to : Status) (r : Request) (uid : ObjectId) : bool :=
  match to with
  | accepted | rejected => owner r =? uid
  | cancelled => requester r =? uid
  | completed => (requester r =? uid) || (owner r =? uid)
  | pending => true
  end.

Definition forbidden_message (to : Status) : string :=
  match to with
  | accepted | rejected => "Only book owner can accept or reject requests"
  | cancelled => "Only requester can cancel the request"
  | _ => "Not authorized to update this request"
  end.

(** The invalid-transition error; it names the current status and the
    status asked for. *)
Definition transition_message (from : Status) (to : option string) : string :=
  "Cannot change status from " ++ status_name from ++ " to " ++ show to.

(** The book writes that follow the request update. *)
Definition book_writes (to : Status) (r : Request) (bs : gmap ObjectId Book)
    : gmap ObjectId Book :=
  match to with
  | accepted => alter (set_b_status NotAvailable) (book r) bs
  | completed =>
    let bs' := alter (λ b, set_b_owner (requester r) (set_b_status NotAvailable b))
                 (book r) bs in
    match type r, offeredBooks r with
    | exchange, Some offered =>
      alter (λ b, set_b_owner (owner r) (set_b_status NotAvailable b)) offered bs'
    | _, _ => bs'
    end
  | _ => bs
  end.

Definition request_write (to : Status) (at_ : Date) : Request → Request :=
  apply_updateData to (if decide (to = completed) then Some at_ else None).

(** The store once a transition to [to] has gone through: the request
    update and the book writes together. *)
Definition committed (to : Status) (r : Request) (req : Req UpdateBody) (s : Store) : Store :=
  {| users := users s;
     books := book_writes to r (books s);
     requests := alter (request_write to (now req)) (params_id req) (requests s) |}.

(** What a call of [updateRequest] can be: the request is missing, the
    call is refused, or the transition is committed. *)
Inductive update_case (s : Store) (req : Req UpdateBody) : Response → Store → Prop :=
  | update_not_found :
      requests s !! params_id req = None →
      update_case s req (failure 404 "Request not found") s
  | update_forbidden r t :
      requests s !! params_id req = Some r →
      ub_status (body req) = Some (status_name t) →
      allowed_actor t r (user_id req) = false →
      update_case s req (failure 403 (forbidden_message t)) s
  | update_invalid r :
      requests s !! params_id req = Some r →
      (∀ t, ub_status (body req) = Some (status_name t) →
            allowed_actor t r (user_id req) = true ∧ edge (status r) t = false) →
      update_case s req
        (failure 400 (transition_message (status r) (ub_status (body req)))) s
  | update_committed r t :
      requests s !! params_id req = Some r →
      ub_status (body req) = Some (status_name t) →
      allowed_actor t r (user_id req) = true →
      edge (status r) t = true →
      update_case s req
        (success 200 (Some ("Request " ++ status_name t ++ " successfully"))
           (RequestData (Some (populate (request_write t (now req) r)
                                 (with_requests (alter (request_write t (now req))
                                                   (params_id req)) s)))))
        (committed t r req s).

(** ** Creating a request *)

(** The offered book passes the [Book.findOne] of [createRequest]: it exists,
    belongs to the caller, is active and Available. *)
Definition offered_ok (s : Store) (uid : ObjectId) (offered : option ObjectId) : Prop :=
  ∃ ob b, offered = Some ob ∧ books s !! ob = Some b ∧
          b_owner b = uid ∧ b_isActive b = true ∧ b_status b = Available.

(** The request [createRequest] stores. *)
Definition new_request (req : Req CreateBody) (target : Book) : Request :=
  {| requester := user_id req; book := cb_book (body req); owner := b_owner target;
     type := cb_type (body req); status := pending;
     offeredBooks := match cb_type (body req) with
                     | free => None
                     | exchange => cb_offeredBooks (body req)
                     end;
     rating := no_rating; completedAt := None |}.

(** The outcome of [createRequest] when every check passes. *)
Definition created (req : Req CreateBody) (target : Book) (s : Store) : Response * Store :=
  let s' := with_requests (insert (fresh (dom (requests s))) (new_request req target)) s in
  (success 201 (Some "Request created successfully")
     (RequestData (Some (populate (new_request req target) s'))), s').

(** The caller already has a pending request for the book. *)
Definition has_pending (s : Store) (uid bookId : ObjectId) : Prop :=
  ∃ rid r, requests s !! rid = Some r ∧
           requester r = uid ∧ book r = bookId ∧ status r = pending.

(** The target book of a call exists and is active. *)
Definition target_active (s : Store) (req : Req CreateBody) (b : Book) : Prop :=
  books s !! cb_book (body req) = Some b ∧ b_isActive b = true.

(** The conditions under which [createRequest] answers 400. *)
Definition invalid_state (s : Store) (req : Req CreateBody) (b : Book) : Prop :=
  b_status b ≠ Available ∨
  b_owner b = user_id req ∨
  has_pending s (user_id req) (cb_book (body req)) ∨
  (cb_type (body req) = exchange ∧
   ¬ offered_ok s (user_id req) (cb_offeredBooks (body req))).

(** ** Rating *)

(** The two sides of a request. *)
Inductive Side := AsRequester | AsOwner.

Definition side_of (r : Request) (uid : ObjectId) : option Side :=
  if requester r =? uid then Some AsRequester
  else if owner r =? uid then Some AsOwner
  else None.

Definition side_rating (sd : Side) (rt : RequestRating) : option Q :=
  match sd with AsRequester => requesterRating rt | AsOwner => ownerRating rt end.
Definition side_review (sd : Side) (rt : RequestRating) : option string :=
  match sd with AsRequester => requesterReview rt | AsOwner => ownerReview rt end.
Definition other_side (sd : Side) : Side :=
  match sd with AsRequester => AsOwner | AsOwner => AsRequester end.
(** The user a rating from side [sd] is about. *)
Definition counterparty (sd : Side) (r : Request) : ObjectId :=
  match sd with AsRequester => owner r | AsOwner => requester r end.

Definition rate_side (sd : Side) (q : Q) (review : option string) (rt : RequestRating)
    : RequestRating :=
  match sd with
  | AsRequester =>
    {| requesterRating := Some q; ownerRating := ownerRating rt;
       requesterReview := review; ownerReview := ownerReview rt |}
  | AsOwner =>
    {| requesterRating := requesterRating rt; ownerRating := Some q;
       requesterReview := requesterReview rt; ownerReview := review |}
  end.

(** The store once a rating from side [sd] has gone through. *)
Definition rated (sd : Side) (q : Q) (review : option string) (r : Request) (u : User)
    (id : ObjectId) (s : Store) : Store :=
  {| users := <[counterparty sd r := updateRating q u]> (users s);
     books := books s;
     requests := alter (set_rating (rate_side sd q review (rating r))) id (requests s) |}.

(** ** The book controller *)

(** A book with its owner resolved by [populate('owner', ...)]. *)
Record BookView := { bv_book : Book; bv_owner : option User }.

Definition view (b : Book) (s : Store) : BookView :=
  {| bv_book := b; bv_owner := users s !! b_owner b |}.

(** The end of a book handler: an early reply as it is, or the success
    reply [res.status(c).json({ status, message, data: { book } })], with the
    book of its data kept beside the reply. *)
Definition send_book (c : N) (msg : option string) (h : Action (option BookView))
    (s : Store) : Response * option BookView * Store :=
  match h s with
  | (Reply r, s') => (r, None, s')
  | (Next v, s') => (success c msg NoData, v, s')
  end.

(** [getBookById]: GET /api/books/:id, a public route. *)
Definition getBookById (id : ObjectId) : Store → Response * option BookView * Store :=
  send_book 200 None (
    found ← read (λ s, (λ b, view b s) <$> books s !! id);
    match found with
    | None => reply (failure 404 "Book not found")
    | Some v =>
      reply_if (negb (b_isActive (bv_book v))) (failure 404 "Book not found");;
      mret (Some v)
    end).

(** The modelled fields a body of PUT /api/books/:id may carry
    ([updateBookSchema] admits neither [owner] nor [isActive]). *)
Record BookPatch := {
  bp_title : option string;
  bp_author : option string;
  bp_status : option Availability
}.

Section book_updates.

(** What Mongoose makes of a new value for the string paths [title] and
    [author] in an update with [runValidators]: the stored string, or
    [None] when a validator rejects it. *)
Variables cast_title cast_author : string → option string.

(** The update a body amounts to, when it passes the validators. *)
Definition cast_patch (p : BookPatch) : option (Book → Book) :=
  title ← (match bp_title p with Some t => Some <$> cast_title t | None => Some None end);
  author ← (match bp_author p with Some a => Some <$> cast_author a | None => Some None end);
  Some (λ b,
    {| b_title := default (b_title b) title;
       b_author := default (b_author b) author;
       b_owner := b_owner b;
       b_status := default (b_status b) (bp_status p);
       b_isActive := b_isActive b |}).

(** [updateBook]: PUT /api/books/:id. *)
Definition updateBook (req : Req BookPatch) : Store → Response * option BookView * Store :=
  send_book 200 (Some "Book updated successfully") (
    found ← Book_findById (params_id req);
    match found with
    | None => reply (failure 404 "Book not found")
    | Some b =>
      (* Check if user owns the book *)
      reply_if (negb (b_owner b =? user_id req))
        (failure 403 "Not authorized to update this book");;
      match cast_patch (body req) with
      | None => throw "Validation failed"
      | Some f =>
        write (with_books (alter f (params_id req)));;
        read (λ s, (λ b', view b' s) <$> books s !! params_id req)
      end
    end).

End book_updates.

(** * The call as Express hands it over *)

(** ** Ids as strings *)

(** [req.params.id] and the ids of a body are strings.  What matters of
    such a string is what Mongoose makes of it when a query casts it to an
    ObjectId: it is the hex string of an id as [toString()] and [doc.id]
    print it, or another spelling that casts to an id (the same hex digits
    in upper case), or a string that does not cast, such as [abc]. *)
Inductive RawId :=
  | Hex (id : ObjectId)
  | Spelled (id : ObjectId)
  | Malformed.

Definition cast (x : RawId) : option ObjectId :=
  match x with
  | Hex id | Spelled id => Some id
  | Malformed => None
  end.

(** [x === id] for a string [x] and the string [id] of a document, as in
    [userId === req.user.id]. *)
Definition same_string (x : RawId) (id : ObjectId) : bool :=
  match x with
  | Hex i => i =? id
  | Spelled _ | Malformed => false
  end.

(** The cast inside [Model.findById(x)] and inside a query on [_id]: a
    string that is no ObjectId makes the call throw a CastError, which ends
    in the handler's [catch]. *)
Definition castObjectId (x : RawId) : Action ObjectId :=
  match cast x with
  | Some id => mret id
  | None => throw "Cast to ObjectId failed"
  end.

(** What Express hands to a handler, with [req.params.id] as it came. *)
Record RawReq (B : Type) := {
  in_user : ObjectId;
  in_id : RawId;
  in_body : B;
  in_now : Date
}.
Arguments in_user {B} _.
Arguments in_id {B} _.
Arguments in_body {B} _.
Arguments in_now {B} _.

(** The call once [req.params.id] has been cast to [id]. *)
Definition as_req {B} (req : RawReq B) (id : ObjectId) : Req B :=
  {| user_id := in_user req; params_id := id; body := in_body req; now := in_now req |}.

(** A handler that opens with [Model.findById(req.params.id)]: the cast
    comes first, and the rest is the handler on the id. *)
Definition on_id {B} (h : Req B → Handler) (req : RawReq B) : Handler :=
  id ← castObjectId (in_id req);
  h (as_req req id).

(** ** The handlers on the call as it came *)

Module Http.

(** Each of these opens with [findById(req.params.id)]. *)
Definition getRequestById : RawReq unit → Handler := on_id getRequestById.
Definition updateRequest : RawReq UpdateBody → Handler := on_id updateRequest.
Definition deleteRequest : RawReq unit → Handler := on_id deleteRequest.
Definition deleteBook : RawReq unit → Handler := on_id deleteBook.

(** [getBookById] and [updateBook] open with [Book.findById(req.params.id)]
    as well. *)
Definition getBookById (x : RawId) (s : Store) : Response * option BookView * Store :=
  match cast x with
  | Some id => getBookById id s
  | None => (failure 500 "Cast to ObjectId failed", None, s)
  end.

Definition updateBook (cast_title cast_author : string → option string)
    (req : RawReq BookPatch) (s : Store) : Response * option BookView * Store :=
  match cast (in_id req) with
  | Some id => updateBook cast_title cast_author (as_req req id) s
  | None => (failure 500 "Cast to ObjectId failed", None, s)
  end.

(** *** [createRequest] *)

(** The body [{ book, type, offeredBooks }] as [createRequestSchema] lets it
    through: [book] and [offeredBooks] are any non-empty strings. *)
Record RawCreateBody := {
  raw_book : RawId;
  raw_type : Kind;
  raw_offeredBooks : option RawId
}.

(** [createRequest] casts [book] in its first lookup, and [offeredBooks]
    only in the [Book.findOne] of an exchange. *)
Definition createRequest (req : RawReq RawCreateBody) : Handler :=
  let type := raw_type (in_body req) in
  let offeredBooks := raw_offeredBooks (in_body req) in
  (* Check if book exists and is available *)
  bookId ← castObjectId (raw_book (in_body req));
  found ← Book_findById bookId;
  match found with
  | None => reply (failure 404 "Book not found")
  | Some target =>
    reply_if (negb (b_isActive target)) (failure 404 "Book not found");;
    reply_if (negb (bool_decide (b_status target = Available)))
      (failure 400 "Book is not available for requests");;
    (* Check if user is trying to request their own book *)
    reply_if (b_owner target =? in_user req)
      (failure 400 "You cannot request your own book");;
    (* Check if user already has a pending request for this book *)
    existingRequest ← read (λ s,
      findOne (pending_for (in_user req) bookId) (requests s));
    reply_if (bool_decide (is_Some existingRequest))
      (failure 400 "You already have a pending request for this book");;
    (* Validate request based on type *)
    offered ← match type with
      | free => mret None
      | exchange =>
        match offeredBooks with
        | None => reply (failure 400 "Exchange requests must include an offered book")
        | Some offeredBooks =>
          (* Validate offered book belongs to requester *)
          offeredId ← castObjectId offeredBooks;
          userBook ← read (λ s, books s !! offeredId ≫= λ b,
            if owned_available (in_user req) b then Some b else None);
          reply_if (negb (bool_decide (is_Some userBook)))
            (failure 400 "Offered book is not valid or not available");;
          mret (Some offeredId)
        end
      end;
    '(id, request) ← Request_create (in_user req) bookId (b_owner target) type offered;
    populated ← read (populate request);
    reply (success 201 (Some "Request created successfully")
             (RequestData (Some populated)))
  end.

(** *** [rateRequest] *)

(** The [rating] of a body that gets past [Joi.number()]: a JSON number,
    or a JSON string that spells a number, with the number Joi converts it
    to.  [validate] reads only the error of [schema.validate], so the
    handler still finds the string in [req.body]. *)
Inductive Rating :=
  | AsNumber (q : Q)
  | AsText (text : string) (q : Q).

(** The number Joi checks, and the number Mongoose stores when the rating
    is assigned to a path of type Number. *)
Definition value_of (r : Rating) : Q :=
  match r with
  | AsNumber q | AsText _ q => q
  end.

Record RawRateBody := {
  raw_rating : Rating;
  raw_review : option string
}.

(** [rateRequestSchema] on such a body. *)
Definition rateRequestSchema (b : RawRateBody) : option string :=
  rateRequestSchema {| rb_rating := value_of (raw_rating b); rb_review := raw_review b |}.

Section javascript.

(** [String(x)] for a number [x], and [Number(text)] for a string, [None]
    when that is NaN or infinite: they decide what [x + text] and
    [text / n] come to. *)
Variable Number_toString : Q → string.
Variable ToNumber : string → option Q.

(** [userSchema.methods.updateRating], before the [save].  With a string
    for [newRating], [+] appends it to the text of the product, and [/]
    reads the text back as a number; [None] stands for an average that is
    NaN or infinite. *)
Definition updateRating (newRating : Rating) (u : User) : option User :=
  let product := (average (u_rating u) * Qnum_of (count (u_rating u)))%Q in
  let totalRating :=
    match newRating with
    | AsNumber q => Some (product + q)%Q
    | AsText text _ => ToNumber (Number_toString product ++ text)
    end in
  let count' := count (u_rating u) + 1 in
  (λ total,
     {| u_name := u_name u; u_email := u_email u;
        u_rating := {| average := (total / Qnum_of count')%Q; count := count' |};
        u_isActive := u_isActive u |}) <$> totalRating.

(** [user.save()]: an average that is no finite number fails validation
    like one outside 0..5. *)
Definition User_save (id : ObjectId) (u : option User) : Action unit :=
  match u with
  | Some u => User_save id u
  | None => throw "User validation failed: rating.average"
  end.

Definition rateRequest (req : RawReq RawRateBody) : Handler :=
  let rating' := raw_rating (in_body req) in
  let review := raw_review (in_body req) in
  id ← castObjectId (in_id req);
  request ← Request_findById id;
  match request with
  | None => reply (failure 404 "Request not found")
  | Some request =>
    reply_if (negb (bool_decide (status request = completed)))
      (failure 400 "Can only rate completed requests");;
    (* Check if user is involved in this request *)
    let isRequester := requester request =? in_user req in
    let isOwner := owner request =? in_user req in
    reply_if (negb isRequester && negb isOwner)
      (failure 403 "Not authorized to rate this request");;
    (* Update rating based on user role *)
    new_rating ←
      (if isRequester then
         reply_if (truthy (requesterRating (rating request)))
           (failure 400 "You have already rated this request");;
         (* Update owner's rating *)
         found ← User_findById (owner request);
         match found with
         | None => throw "Cannot read properties of null (reading 'updateRating')"
         | Some u => User_save (owner request) (updateRating rating' u)
         end;;
         mret {| requesterRating := Some (value_of rating');
                 ownerRating := ownerRating (rating request);
                 requesterReview := review; ownerReview := ownerReview (rating request) |}
       else
         reply_if (truthy (ownerRating (rating request)))
           (failure 400 "You have already rated this request");;
         (* Update requester's rating *)
         found ← User_findById (requester request);
         match found with
         | None => throw "Cannot read properties of null (reading 'updateRating')"
         | Some u => User_save (requester request) (updateRating rating' u)
         end;;
         mret {| requesterRating := requesterRating (rating request);
                 ownerRating := Some (value_of rating');
                 requesterReview := requesterReview (rating request); ownerReview := review |});
    (* request.save() *)
    (if rating_valid (Some (value_of rating')) review
     then write (with_requests (alter (set_rating new_rating) id))
     else throw "Request validation failed: rating");;
    reply (success 200 (Some "Rating submitted successfully") (RatingData new_rating))
  end.

(** [router.post('/:id/rate', auth, validate(rateRequestSchema), rateRequest)]. *)
Definition post_rate (req : RawReq RawRateBody) : Handler :=
  validate rateRequestSchema (in_body req);; rateRequest req.

End javascript.

End Http.

(** ** States the lifecycle operations can reach *)

(** One call of a lifecycle handler by an authenticated user (the [auth]
    middleware only lets existing users through).  A call whose ids are
    strings either fails on a cast and changes nothing or is the call on
    the ids they cast to; a rating may come as a numeric string, and then
    the step is [rateRequest] as it came, whatever [String] and [Number]
    make of the text. *)
Inductive step (s : Store) : Store → Prop :=
  | step_createRequest (req : Req CreateBody) :
      is_Some (users s !! user_id req) → step s (handle (createRequest req) s).2
  | step_updateRequest (req : Req UpdateBody) :
      is_Some (users s !! user_id req) → step s (handle (updateRequest req) s).2
  | step_rateRequest (req : Req RateBody) :
      is_Some (users s !! user_id req) → step s (handle (rateRequest req) s).2
  | step_rateRequest_raw ts tn (req : RawReq Http.RawRateBody) :
      is_Some (users s !! in_user req) →
      step s (handle (Http.rateRequest ts tn req) s).2
  | step_deleteRequest (req : Req unit) :
      is_Some (users s !! user_id req) → step s (handle (deleteRequest req) s).2
  | step_deleteBook (req : Req unit) :
      is_Some (users s !! user_id req) → step s (handle (deleteBook req) s).2.

(** Before the first request: any users, any books whose owners exist. *)
Definition initial (s : Store) : Prop :=
  requests s = ∅ ∧ ∀ id b, books s !! id = Some b → is_Some (users s !! b_owner b).

Inductive reachable : Store → Prop :=
  | reachable_initial s : initial s → reachable s
  | reachable_step s s' : reachable s → step s s' → reachable s'.

(** What holds of every request in a reachable store. *)
Record request_ok (s : Store) (r : Request) : Prop := {
  ok_requester : is_Some (users s !! requester r);
  ok_owner : is_Some (users s !! owner r);
  ok_book : is_Some (books s !! book r);
  ok_offered :
    match type r with
    | free => offeredBooks r = None
    | exchange => ∃ ob, offeredBooks r = Some ob ∧ ob ≠ book r ∧ is_Some (books s !! ob)
    end;
  ok_unavailable : ∀ b,
    status r = accepted ∨ status r = completed →
    books s !! book r = Some b → b_status b = NotAvailable;
  ok_unavailable_offered : ∀ ob b,
    status r = completed → offeredBooks r = Some ob →
    books s !! ob = Some b → b_status b = NotAvailable
}.

Record store_ok (s : Store) : Prop := {
  ok_books : ∀ id b, books s !! id = Some b → is_Some (users s !! b_owner b);
  ok_requests : ∀ id r, requests s !! id = Some r → request_ok s r
}.

(** ** A worked scenario *)

Definition a_user (name : string) : User :=
  {| u_name := name; u_email := name ++ "@example.com";
     u_rating := {| average := 0; count := 0 |}; u_isActive := true |}.
Definition a_book (title : string) (o : ObjectId) : Book :=
  {| b_title := title; b_author := "Anon"; b_owner := o;
     b_status := Available; b_isActive := true |}.
Definition call {B} (uid id : ObjectId) (b : B) : Req B :=
  {| user_id := uid; params_id := id; body := b; now := 1700000000000%Z |}.
Definition ask (st : string) : UpdateBody :=
  {| ub_status := Some st; ub_meetingDetails := None |}.

(** Alice (1) owns book 10, Carol (2) owns book 20, Zed (3) is a bystander. *)
Definition demo_init : Store :=
  {| users := {[ 1 := a_user "alice"; 2 := a_user "carol"; 3 := a_user "zed" ]};
     books := {[ 10 := a_book "Dune" 1; 20 := a_book "Emma" 2 ]};
     requests := ∅ |}.
(** Carol asks for book 10 in exchange for book 20: request 0, pending. *)
Definition demo_pending : Store :=
  (handle (createRequest (call 2 0 {| cb_book := 10; cb_type := exchange;
                                      cb_offeredBooks := Some 20 |})) demo_init).2.
Definition demo_request : Request :=
  {| requester := 2; book := 10; owner := 1; type := exchange; status := pending;
     offeredBooks := Some 20; rating := no_rating; completedAt := None |}.
(** Carol's rating of the completed exchange. *)
Definition demo_rate_call : Req RateBody :=
  call 2 0 {| rb_rating := 4; rb_review := Some "kind and punctual" |}.
(** Alice accepts. *)
Definition demo_accepted : Store :=
  (handle (updateRequest (call 1 0 (ask "accepted"))) demo_pending).2.
(** Carol marks the exchange completed. *)
Definition demo_completed : Store :=
  (handle (updateRequest (call 2 0 (ask "completed"))) demo_accepted).2.
(** Carol rates Alice. *)
Definition demo_rated : Store := (handle (post_rate demo_rate_call) demo_completed).2.

(** ** Proof support *)

(** Evaluate the comparisons of a known status name with a literal. *)
Ltac eval_is_str :=
  repeat match goal with
         | |- context [is_str (Some (status_name ?t)) ?lit] =>
           let b := eval vm_compute in (is_str (Some (status_name t)) lit) in
           change (is_str (Some (status_name t)) lit) with b
         end;
  cbv iota.

(** * The rest of the code around the lifecycle *)

(** ** Methods of the request model *)

(** [requestSchema.methods.canBeCancelled] and [canBeRated]. *)
Definition canBeCancelled (r : Request) : bool :=
  includes ["pending"; "accepted"] (Some (status_name (status r))).
Definition canBeRated (r : Request) : bool :=
  is_str (Some (status_name (status r))) "completed".

(** ** The [auth] middleware *)

(** What the Authorization header amounts to: no token, a token that
    [jwt.verify] rejects, or a token whose payload names a user id. *)
Inductive Token :=
  | NoToken
  | BadToken
  | Verified (id : ObjectId).

(** [auth]: answers 401, or sets [req.user] and calls [next()]; the result
    is [req.user.id]. *)
Definition auth (t : Token) : Action ObjectId :=
  match t with
  | NoToken => reply (failure 401 "Access denied. No token provided.")
  | BadToken => reply (failure 401 "Token is not valid.")
  | Verified id =>
    found ← User_findById id;
    match found with
    | None => reply (failure 401 "Token is not valid.")
    | Some u =>
      reply_if (negb (u_isActive u)) (failure 401 "Account is deactivated.");;
      mret id
    end
  end.

(** A route [router.verb(path, auth, handler)]. *)
Definition behind_auth {B} (t : Token) (id : ObjectId) (b : B) (at_ : Date)
    (h : Req B → Handler) : Handler :=
  uid ← auth t;
  h {| user_id := uid; params_id := id; body := b; now := at_ |}.

(** ** Deactivating an account *)

Definition set_u_isActive (a : bool) (u : User) : User :=
  {| u_name := u_name u; u_email := u_email u; u_rating := u_rating u;
     u_isActive := a |}.

(** [Model.updateMany(query, update)]. *)
Definition updateMany {A} (P : A → bool) (f : A → A) (m : gmap ObjectId A)
    : gmap ObjectId A :=
  (λ x, if P x then f x else x) <$> m.

(** The query [{ $or: [{ requester }, { owner }], status: 'pending' }]. *)
Definition pending_with (uid : ObjectId) (r : Request) : bool :=
  ((requester r =? uid) || (owner r =? uid)) && bool_decide (status r = pending).

(** The three writes shared by [deactivateAccount] and the admin's
    [deleteUser].  The book update names the path [availability.status],
    which the book schema does not have, so only [isActive] is written. *)
Definition deactivate (uid : ObjectId) : Action unit :=
  write (with_users (alter (set_u_isActive false) uid));;
  (* Cancel all pending requests *)
  write (with_requests (updateMany (pending_with uid) (set_status cancelled)));;
  (* Mark all books as unavailable *)
  write (with_books (updateMany (λ b, b_owner b =? uid) (set_b_isActive false))).

(** [deactivateAccount]: DELETE /api/users/account. *)
Definition deactivateAccount (req : Req unit) : Handler :=
  deactivate (user_id req);;
  reply (success 200 (Some "Account deactivated successfully") NoData).

(** ** The admin controller *)

Module Admin.

(** [status: enum ['pending', 'accepted', 'completed']] of the request
    schema, which [runValidators] enforces. *)
Definition status_enum : list string := ["pending"; "accepted"; "completed"].

(** The admin's [populate]: requester, owner and book. *)
Definition populate (r : Request) (s : Store) : Populated :=
  {| doc := r;
     p_requester := users s !! requester r;
     p_book := books s !! book r;
     p_owner := users s !! owner r;
     p_offeredBooks := None |}.

(** The partial unique index on [{ requester, book, status }] for pending
    requests: whether giving request [id] the status [st] collides with
    another pending request of the same requester for the same book. *)
Definition index_clash (id : ObjectId) (r : Request) (st : Status)
    (m : gmap ObjectId Request) : bool :=
  bool_decide (st = pending) &&
  bool_decide (is_Some (findOne (pending_for (requester r) (book r)) (delete id m))).

(** [updateRequest]: PUT /api/admin/requests/:id, for a body that carries
    a [status].  The update validators run before the update is sent, and
    the database refuses an update that breaks the unique index; both
    errors end in the [catch] (the messages are abridged here). *)
Definition updateRequest (req : Req string) : Handler :=
  let new_status := body req in
  (* Request.findByIdAndUpdate(requestId, { status }, { new: true, runValidators: true }) *)
  st ←
    (if bool_decide (new_status ∈ status_enum) then
       match status_of_name new_status with
       | Some st => mret st
       | None => throw "Validation failed: status"
       end
     else throw "Validation failed: status");
  clash ← read (λ s,
    from_option (λ r, index_clash (params_id req) r st (requests s)) false
                (requests s !! params_id req));
  reply_if clash (failure 500 "E11000 duplicate key error");;
  write (with_requests (alter (set_status st) (params_id req)));;
  request ← read (λ s, (λ r, populate r s) <$> requests s !! params_id req);
  match request with
  | None => reply (failure 404 "Request not found")
  | Some p =>
    reply (success 200 (Some "Request updated successfully") (RequestData (Some p)))
  end.

(** [deleteUser]: DELETE /api/admin/users/:id.  The guard compares the
    string of the URL with the admin's own id string; the lookup and the
    three updates cast it. *)
Definition deleteUser (req : RawReq unit) : Handler :=
  let userId := in_id req in
  (* Prevent admin from deleting themselves *)
  reply_if (same_string userId (in_user req))
    (failure 400 "You cannot delete your own account");;
  userId ← castObjectId userId;
  found ← User_findById userId;
  match found with
  | None => reply (failure 404 "User not found")
  | Some _ =>
    (* Soft delete - deactivate user and cancel their requests *)
    deactivate userId;;
    reply (success 200 (Some "User deactivated successfully") NoData)
  end.

(** [deleteBook]: DELETE /api/admin/books/:id.  The book schema has no
    [availability] path, so [book.availability.status = ...] throws after
    the requests have been cancelled and before [book.save()]. *)
Definition deleteBook (req : Req unit) : Handler :=
  let bookId := params_id req in
  found ← Book_findById bookId;
  match found with
  | None => reply (failure 404 "Book not found")
  | Some _ =>
    (* Cancel all pending requests for this book *)
    write (with_requests (updateMany (pending_on bookId) (set_status cancelled)));;
    throw "Cannot set properties of undefined (setting 'status')"
  end.

End Admin.

(** ** Composite behaviour *)

(** Rating a user several times in a row. *)
Definition rate_all (qs : list Q) (u : User) : User :=
  foldl (λ u q, updateRating q u) u qs.

(** One call on a route of [requestRoutes.js], after [auth]. *)
Inductive route_step (s : Store) : Store → Prop :=
  | via_create (req : Req CreateBody) : route_step s (handle (createRequest req) s).2
  | via_get (req : Req unit) : route_step s (handle (getRequestById req) s).2
  | via_put (req : Req UpdateBody) : route_step s (handle (put_request req) s).2
  | via_delete (req : Req unit) : route_step s (handle (deleteRequest req) s).2
  | via_rate (req : Req RateBody) : route_step s (handle (post_rate req) s).2
  | via_rate_raw ts tn (req : RawReq Http.RawRateBody) :
      route_step s (handle (Http.post_rate ts tn req) s).2.

Inductive route_reachable : Store → Prop :=
  | route_start s : requests s = ∅ → route_reachable s
  | route_next s s' : route_reachable s → route_step s s' → route_reachable s'.

(** At most one pending request for each requester and book, which is what
    the partial unique index of the request schema demands. *)
Definition unique_pending (s : Store) : Prop :=
  ∀ id1 id2 r1 r2,
    requests s !! id1 = Some r1 → requests s !! id2 = Some r2 →
    status r1 = pending → status r2 = pending →
    requester r1 = requester r2 → book r1 = book r2 → id1 = id2.

(** Two requests that differ at most in status, rating and completion
    time. *)
Definition same_parties (r r' : Request) : Prop :=
  requester r' = requester r ∧ book r' = book r ∧ owner r' = owner r ∧
  type r' = type r ∧ offeredBooks r' = offeredBooks r.

(** A book that may only have lost availability or activity. *)
Definition not_restored (b b' : Book) : Prop :=
  b_title b' = b_title b ∧ b_author b' = b_author b ∧
  (b_status b = NotAvailable → b_status b' = NotAvailable) ∧
  (b_isActive b = false → b_isActive b' = false).
(** ** Vocabulary for the calls as they came *)

(** The call of [createRequest] once [book] has been cast to [bid]; an
    offered id that does not cast counts as none. *)
Definition cast_create (req : RawReq Http.RawCreateBody) (bid : ObjectId) : Req CreateBody :=
  {| user_id := in_user req; params_id := bid;
     body := {| cb_book := bid; cb_type := Http.raw_type (in_body req);
                cb_offeredBooks := Http.raw_offeredBooks (in_body req) ≫= cast |};
     now := in_now req |}.

(** The offered book of an exchange is given by a string that does not
    cast. *)
Definition offered_uncastable (req : RawReq Http.RawCreateBody) : Prop :=
  Http.raw_type (in_body req) = exchange ∧
  ∃ raw, Http.raw_offeredBooks (in_body req) = Some raw ∧ cast raw = None.

(** The refusals of [createRequest] that come before the offered book is
    looked at. *)
Definition early_refusal (s : Store) (req : Req CreateBody) (b : Book) : Prop :=
  b_status b ≠ Available ∨
  b_owner b = user_id req ∨
  has_pending s (user_id req) (cb_book (body req)).

(** A call as the router passes it on, at the time of the scenario. *)
Definition raw_call {B} (uid : ObjectId) (x : RawId) (b : B) : RawReq B :=
  {| in_user := uid; in_id := x; in_body := b; in_now := 1700000000000%Z |}.

(** ** A rating sent as a string *)

(** Alice after one earlier rating of 4.5, in the store where the exchange
    with Carol is completed and not yet rated. *)
Definition alice_rated : User :=
  {| u_name := "alice"; u_email := "alice@example.com";
     u_rating := {| average := 9 # 2; count := 1 |}; u_isActive := true |}.
Definition demo_known : Store := with_users (insert 1 alice_rated) demo_completed.

(** Carol rates Alice with the body [{ "rating": "5" }]. *)
Definition demo_text_call : RawReq Http.RawRateBody :=
  raw_call 2 (Hex 0) {| Http.raw_rating := Http.AsText "5" 5; Http.raw_review := None |}.

(** The two facts of JavaScript the scenario needs: [String(4.5)] is
    ["4.5"], and [Number("4.55")] is 4.55. *)
Definition demo_toString (x : Q) : string :=
  if Qeq_bool x (9 # 2) then "4.5" else "".
Definition demo_toNumber (t : string) : option Q :=
  if String.eqb t "4.55" then Some (91 # 20)%Q else None.

(** * Properties *)

(** ** Running actions *)

Lemma run_reply_if {B} c r (k : unit → Action B) s :
  (reply_if c r ≫= k) s = if c then (Reply r, s) else k tt s.
Proof. by destruct c. Qed.

Lemma run_read {A B} (f : Store → A) (k : A → Action B) s :
  (read f ≫= k) s = k (f s) s.
Proof. done. Qed.

Lemma run_write {B} f (k : unit → Action B) s :
  (write f ≫= k) s = k tt (f s).
Proof. done. Qed.

Lemma run_ret {A B} (a : A) (k : A → Action B) s : (mret a ≫= k) s = k a s.
Proof. done. Qed.


Lemma run_assoc {A B C} (m : Action A) (f : A → Action B) (g : B → Action C) s :
  ((m ≫= f) ≫= g) s = (m ≫= λ x, f x ≫= g) s.
Proof. unfold mbind, Action_bind, bind. by destruct (m s) as [[a|r] s']. Qed.

Lemma requests_with_requests f s : requests (with_requests f s) = f (requests s).
Proof. done. Qed.

(** ** Status names *)

Lemma status_of_name_name t : status_of_name (status_name t) = Some t.
Proof. by destruct t. Qed.

Lemma status_of_name_Some v t : status_of_name v = Some t → v = status_name t.
Proof.
  unfold status_of_name.
  repeat match goal with
         | |- context [String.eqb v ?lit] =>
           destruct (String.eqb_spec v lit) as [->|_]; [by intros [= <-]|]
         end.
  done.
Qed.

Lemma status_of_name_None v : status_of_name v = None → ∀ t, v ≠ status_name t.
Proof. intros Hv t ->. by rewrite status_of_name_name in Hv. Qed.

Lemma is_str_name t lit :
  is_str (Some (status_name t)) lit = bool_decide (status_name t = lit).
Proof. unfold is_str. apply bool_decide_ext. naive_solver. Qed.

Lemma is_str_other v lit t :
  status_of_name v = None → status_of_name lit = Some t →
  is_str (Some v) lit = false.
Proof. intros Hv Hl. apply bool_decide_eq_false. intros [= ->]. congruence. Qed.

Lemma includes_edge from t :
  includes (validTransitions from) (Some (status_name t)) = edge from t.
Proof. by destruct from, t. Qed.

Lemma includes_other from v :
  status_of_name v = None → includes (validTransitions from) (Some v) = false.
Proof.
  intros Hv. apply bool_decide_eq_false. intros Hin.
  assert (Forall (λ n, is_Some (status_of_name n)) (validTransitions from)) as Hall.
  { destruct from; repeat constructor; by eexists. }
  rewrite Forall_forall in Hall. apply Hall in Hin as [t Ht]. congruence.
Qed.

(** [updateRequest] on an existing request, case by case. *)
Lemma updateRequest_run s req r :
  requests s !! params_id req = Some r →
  handle (updateRequest req) s =
  match ub_status (body req) ≫= status_of_name with
  | Some t =>
    if negb (allowed_actor t r (user_id req)) then (failure 403 (forbidden_message t), s)
    else if negb (edge (status r) t) then
      (failure 400 (transition_message (status r) (ub_status (body req))), s)
    else
      (success 200 (Some ("Request " ++ status_name t ++ " successfully"))
         (RequestData (Some (populate (request_write t (now req) r)
                               (with_requests (alter (request_write t (now req)) (params_id req)) s)))),
       committed t r req s)
  | None => (failure 400 (transition_message (status r) (ub_status (body req))), s)
  end.
Proof.
  intros Hr. unfold handle, updateRequest, Request_findById.
  rewrite run_read, Hr.
  destruct (ub_status (body req)) as [v|] eqn:Hv.
  - change (Some v ≫= status_of_name) with (status_of_name v).
    destruct (status_of_name v) as [t|] eqn:Ht.
    + apply status_of_name_Some in Ht as ->.
      destruct t; eval_is_str; cbn [orb allowed_actor forbidden_message].
      all: first [rewrite run_ret | rewrite run_reply_if].
      all: repeat match goal with
                  | |- context [?a =? ?b] => destruct (a =? b)
                  end; cbn [negb andb orb]; try reflexivity.
      all: rewrite run_reply_if, includes_edge;
        destruct (edge (status r) _) eqn:He; cbn [negb]; try reflexivity.
      all: rewrite run_write, run_read, requests_with_requests, lookup_alter_eq, Hr.
      all: destruct (status r); try discriminate He.
      all: unfold committed, book_writes;
        destruct (type r), (offeredBooks r); reflexivity.
    + rewrite (is_str_other v "accepted" accepted), (is_str_other v "rejected" rejected),
        (is_str_other v "cancelled" cancelled), (is_str_other v "completed" completed)
        by done.
      cbn [orb]. rewrite run_ret, run_reply_if, includes_other by done.
      reflexivity.
  - unfold is_str. rewrite !bool_decide_eq_false_2 by done.
    cbn [orb]. rewrite run_ret, run_reply_if. reflexivity.
Qed.

Lemma updateRequest_missing s req :
  requests s !! params_id req = None →
  handle (updateRequest req) s = (failure 404 "Request not found", s).
Proof.
  intros Hr. unfold handle, updateRequest, Request_findById.
  by rewrite run_read, Hr.
Qed.

Lemma status_name_inj t u : status_name t = status_name u → t = u.
Proof. by destruct t, u. Qed.

Lemma updateRequest_cases s req :
  update_case s req (handle (updateRequest req) s).1 (handle (updateRequest req) s).2.
Proof.
  destruct (requests s !! params_id req) as [r|] eqn:Hr.
  - rewrite (updateRequest_run s req r Hr).
    destruct (ub_status (body req)) as [v|] eqn:Hv; simpl.
    + destruct (status_of_name v) as [t|] eqn:Ht.
      * apply status_of_name_Some in Ht as ->.
        destruct (allowed_actor t r (user_id req)) eqn:Ha; simpl.
        -- destruct (edge (status r) t) eqn:He; simpl.
           ++ by eapply update_committed.
           ++ rewrite <- Hv. apply update_invalid; [done|].
              intros u Hu. rewrite Hv in Hu.
              injection Hu as Hu. by apply status_name_inj in Hu as <-.
        -- by eapply update_forbidden.
      * rewrite <- Hv. apply update_invalid; [done|].
        intros u Hu. rewrite Hv in Hu. injection Hu as ->.
        by rewrite status_of_name_name in Ht.
    + rewrite <- Hv. apply update_invalid; [done|]. intros u Hu. congruence.
  - rewrite updateRequest_missing by done. by apply update_not_found.
Qed.

(** A call that succeeds committed a transition of the table, asked for by
    an actor the table allows. *)
Lemma updateRequest_success s req resp s' :
  handle (updateRequest req) s = (resp, s') →
  ok resp = true →
  ∃ r t, requests s !! params_id req = Some r ∧
         ub_status (body req) = Some (status_name t) ∧
         allowed_actor t r (user_id req) = true ∧
         edge (status r) t = true ∧
         code resp = 200 ∧
         s' = committed t r req s.
Proof.
  intros Hrun Hok.
  pose proof (updateRequest_cases s req) as Hcase. rewrite Hrun in Hcase.
  simpl in Hcase.
  destruct Hcase as [Hnone|r t Hr Ht Ha|r Hr Hall|r t Hr Ht Ha He];
    try discriminate Hok.
  by exists r, t.
Qed.

(** A call that fails left the store alone. *)
Lemma updateRequest_failure s req resp s' :
  handle (updateRequest req) s = (resp, s') →
  ok resp = false →
  s' = s ∧ (code resp = 404 ∨ code resp = 403 ∨ code resp = 400).
Proof.
  intros Hrun Hok.
  pose proof (updateRequest_cases s req) as Hcase. rewrite Hrun in Hcase.
  simpl in Hcase.
  destruct Hcase as [Hnone|r t Hr Ht Ha|r Hr Hall|r t Hr Ht Ha He];
    try discriminate Hok; simpl; auto.
Qed.

Lemma request_write_status t d r : status (request_write t d r) = t.
Proof. unfold request_write, apply_updateData. by destruct (decide _). Qed.

Lemma request_write_fields t d r :
  requester (request_write t d r) = requester r ∧
  book (request_write t d r) = book r ∧
  owner (request_write t d r) = owner r ∧
  type (request_write t d r) = type r ∧
  offeredBooks (request_write t d r) = offeredBooks r ∧
  rating (request_write t d r) = rating r.
Proof. unfold request_write, apply_updateData. by destruct (decide _). Qed.

(** ** The status state machine (claims C1, C3, C7 and C8) *)

(** C1, as stated, fails: a bystander asking for [completed] on a pending
    request names a pair outside the table, yet is answered 403 and not
    with the invalid-transition error, because the authorization check comes
    first. *)
Lemma invalid_pair_can_be_forbidden :
  let req := call 3 0 (ask "completed") in
  requests demo_pending !! params_id req = Some demo_request ∧
  status demo_request = pending ∧
  edge pending completed = false ∧
  (handle (updateRequest req) demo_pending).1
    = failure 403 "Not authorized to update this request" ∧
  (handle (updateRequest req) demo_pending).1
    ≠ failure 400 (transition_message pending (Some "completed")).
Proof. by vm_compute. Qed.

(** C1 (amended): a call of [updateRequest] moves the status of a request
    only along an edge of the table (and only that of the request it names);
    when the pair (current status, status asked for) is not an edge the call
    fails and the store is unchanged, with 403 when the caller may not ask
    for that status and otherwise with the invalid-transition error 400
    whose message names both statuses. *)
Theorem updateRequest_follows_table s req resp s' :
  handle (updateRequest req) s = (resp, s') →
  (∀ id r, requests s !! id = Some r →
     ∃ r', requests s' !! id = Some r' ∧
           (status r' = status r ∨
            (id = params_id req ∧ edge (status r) (status r') = true))) ∧
  (∀ r, requests s !! params_id req = Some r →
     (ok resp = true →
        ∃ t, ub_status (body req) = Some (status_name t) ∧
             edge (status r) t = true ∧
             status <$> requests s' !! params_id req = Some t) ∧
     ((∀ t, ub_status (body req) = Some (status_name t) → edge (status r) t = false) →
        s' = s ∧
        ((∃ t, ub_status (body req) = Some (status_name t) ∧
               allowed_actor t r (user_id req) = false ∧
               resp = failure 403 (forbidden_message t)) ∨
         ((∀ t, ub_status (body req) = Some (status_name t) →
                allowed_actor t r (user_id req) = true) ∧
          resp = failure 400 ("Cannot change status from " ++ status_name (status r)
                              ++ " to " ++ show (ub_status (body req))))))).
Proof.
  intros Hrun.
  pose proof (updateRequest_cases s req) as Hcase. rewrite Hrun in Hcase.
  simpl in Hcase.
  destruct Hcase as [Hnone|r0 t Hr0 Ht Ha|r0 Hr0 Hall|r0 t Hr0 Ht Ha He].
  - (* no such request *)
    split; [eauto|]. intros r Hr. congruence.
  - (* forbidden *)
    split; [eauto|]. intros r Hr. rewrite Hr in Hr0. injection Hr0 as <-.
    split; [done|]. intros _. split; [done|]. left. eauto.
  - (* not in the table *)
    split; [eauto|]. intros r Hr. rewrite Hr in Hr0. injection Hr0 as <-.
    split; [done|]. intros _. split; [done|]. right.
    split; [|done]. intros t Ht. by apply Hall.
  - (* committed *)
    assert (requests (committed t r0 req s) !! params_id req
            = Some (request_write t (now req) r0)) as Hnew.
    { unfold committed. cbn [requests]. by rewrite lookup_alter_eq, Hr0. }
    pose proof (request_write_status t (now req) r0) as Hst.
    split.
    + intros id r Hr. destruct (decide (id = params_id req)) as [->|Hne].
      * rewrite Hr in Hr0. injection Hr0 as <-.
        eexists. split; [exact Hnew|]. right. by rewrite Hst.
      * exists r. split; [|by left].
        unfold committed. cbn [requests]. by rewrite lookup_alter_ne.
    + intros r Hr. rewrite Hr in Hr0. injection Hr0 as <-. split.
      * intros _. exists t. by rewrite Hnew; simpl; rewrite Hst.
      * intros Hno. apply Hno in Ht. congruence.
Qed.

Lemma updateRequest_follows_table_witness :
  ∃ r', requests demo_accepted !! 0 = Some r' ∧
        (status r' = status demo_request ∨
         (0 = params_id (call 1 0 (ask "accepted")) ∧
          edge (status demo_request) (status r') = true)).
Proof.
  refine (proj1 (updateRequest_follows_table demo_pending (call 1 0 (ask "accepted"))
                   (handle (updateRequest (call 1 0 (ask "accepted"))) demo_pending).1
                   demo_accepted _) 0 demo_request _).
  - vm_compute. reflexivity.
  - vm_compute. reflexivity.
Defined.

(** The route runs the schema first and the handler only when it passes. *)
Lemma put_request_run s req :
  handle (put_request req) s =
  match updateRequestSchema (body req) with
  | Some msg => (failure 400 msg, s)
  | None => handle (updateRequest req) s
  end.
Proof.
  unfold handle, put_request, validate.
  by destruct (updateRequestSchema (body req)).
Qed.

(** C3, as stated, fails: Carol's PUT with [{status: "cancelled"}] on her
    pending request is stopped by the route's schema; the answer is 400 and
    the request stays pending. *)
Lemma put_cancelled_is_refused :
  let req := call 2 0 (ask "cancelled") in
  requests demo_pending !! params_id req = Some demo_request ∧
  status demo_request = pending ∧
  requester demo_request = user_id req ∧
  code (handle (put_request req) demo_pending).1 = 400 ∧
  status <$> requests (handle (put_request req) demo_pending).2 !! params_id req
    = Some pending.
Proof. by vm_compute. Qed.

(** C3 (amended): on the PUT route a body asking for [cancelled] (or
    [rejected]) never reaches the handler: [updateRequestSchema] admits only
    accepted and completed, so the call is answered 400 and nothing changes.
    The handler [updateRequest] itself, given such a body for a pending
    request by the requester (for [rejected]: by the owner), answers 200 with
    the updated request, whose status is the one asked for, and touches
    nothing else. *)
Theorem cancel_and_reject s req r t :
  requests s !! params_id req = Some r →
  status r = pending →
  ub_status (body req) = Some (status_name t) →
  (t = cancelled ∧ requester r = user_id req) ∨ (t = rejected ∧ owner r = user_id req) →
  handle (put_request req) s
    = (failure 400 (label "status" ++ " must be one of [accepted, completed]"), s) ∧
  ∃ s', handle (updateRequest req) s
          = (success 200 (Some ("Request " ++ status_name t ++ " successfully"))
               (RequestData (Some (populate (set_status t r) s'))), s') ∧
        requests s' = <[params_id req := set_status t r]> (requests s) ∧
        books s' = books s ∧ users s' = users s.
Proof.
  intros Hr Hst Hv Hwho. split.
  - rewrite put_request_run. unfold updateRequestSchema. rewrite Hv.
    by destruct Hwho as [[-> _]|[-> _]].
  - rewrite (updateRequest_run s req r Hr), Hv.
    change (Some (status_name t) ≫= status_of_name) with (status_of_name (status_name t)).
    rewrite status_of_name_name.
    assert (allowed_actor t r (user_id req) = true ∧ edge (status r) t = true
            ∧ request_write t (now req) r = set_status t r
            ∧ book_writes t r (books s) = books s) as (-> & -> & Hw & Hb).
    { rewrite Hst. destruct Hwho as [[-> <-]|[-> <-]]; simpl; by rewrite N.eqb_refl. }
    cbn [negb]. eexists. split; [|split; [|split]].
    + rewrite Hw. unfold committed. rewrite Hb. reflexivity.
    + cbn [requests]. apply map_eq. intros i.
      destruct (decide (i = params_id req)) as [->|Hne].
      * rewrite lookup_alter_eq, lookup_insert_eq, Hr. simpl. by rewrite Hw.
      * by rewrite lookup_alter_ne, lookup_insert_ne.
    + done.
    + done.
Qed.

Lemma cancel_and_reject_witness :
  handle (put_request (call 2 0 (ask "cancelled"))) demo_pending
    = (failure 400 (label "status" ++ " must be one of [accepted, completed]"),
       demo_pending) ∧
  ∃ s', handle (updateRequest (call 2 0 (ask "cancelled"))) demo_pending
          = (success 200 (Some ("Request " ++ status_name cancelled ++ " successfully"))
               (RequestData (Some (populate (set_status cancelled demo_request) s'))), s') ∧
        requests s' = <[0 := set_status cancelled demo_request]> (requests demo_pending) ∧
        books s' = books demo_pending ∧ users s' = users demo_pending.
Proof.
  apply (cancel_and_reject demo_pending (call 2 0 (ask "cancelled")) demo_request cancelled).
  - vm_compute. reflexivity.
  - reflexivity.
  - reflexivity.
  - left. split; reflexivity.
Defined.

(** C7: a transition to rejected or to cancelled that goes through writes
    no book (and no user): the book collection is the same map as before. *)
Theorem reject_cancel_leave_books s req resp s' :
  handle (updateRequest req) s = (resp, s') →
  ok resp = true →
  ub_status (body req) = Some "rejected" ∨ ub_status (body req) = Some "cancelled" →
  books s' = books s ∧ users s' = users s.
Proof.
  intros Hrun Hok Hv.
  destruct (updateRequest_success _ _ _ _ Hrun Hok) as (r & t & _ & Ht & _ & _ & _ & ->).
  assert (t = rejected ∨ t = cancelled) as Ht'.
  { rewrite Ht in Hv.
    destruct Hv as [[= Hn]|[= Hn]]; [left|right]; by apply status_name_inj. }
  by destruct Ht' as [->| ->].
Qed.

Lemma reject_cancel_leave_books_witness :
  books (handle (updateRequest (call 2 0 (ask "cancelled"))) demo_accepted).2
    = books demo_accepted ∧
  users (handle (updateRequest (call 2 0 (ask "cancelled"))) demo_accepted).2
    = users demo_accepted.
Proof.
  apply (reject_cancel_leave_books demo_accepted (call 2 0 (ask "cancelled"))
           (handle (updateRequest (call 2 0 (ask "cancelled"))) demo_accepted).1).
  - vm_compute. reflexivity.
  - vm_compute. reflexivity.
  - right. reflexivity.
Defined.

(** C8: a call of [updateRequest] either fails, with 404, 403 or 400 and
    the store exactly as it was, or succeeds with 200 and the store holds
    both the request update and the book writes of that transition. *)
Theorem updateRequest_all_or_nothing s req :
  let '(resp, s') := handle (updateRequest req) s in
  (ok resp = false ∧ (code resp = 404 ∨ code resp = 403 ∨ code resp = 400) ∧ s' = s) ∨
  (ok resp = true ∧ code resp = 200 ∧
   ∃ r t, requests s !! params_id req = Some r ∧
          ub_status (body req) = Some (status_name t) ∧
          requests s' = alter (request_write t (now req)) (params_id req) (requests s) ∧
          books s' = book_writes t r (books s) ∧
          users s' = users s).
Proof.
  destruct (handle (updateRequest req) s) as [resp s'] eqn:Hrun.
  destruct (ok resp) eqn:Hok; [right|left].
  - destruct (updateRequest_success _ _ _ _ Hrun Hok)
      as (r & t & Hr & Ht & _ & _ & Hcode & ->).
    repeat split; [done|]. by exists r, t.
  - destruct (updateRequest_failure _ _ _ _ Hrun Hok) as [-> Hcode]. done.
Qed.

(** ** Queries *)

Section queries.
Context {A : Type} (P : A → bool) (m : gmap ObjectId A).

Lemma matching_spec id x :
  (id, x) ∈ matching P m ↔ m !! id = Some x ∧ P x = true.
Proof.
  unfold matching. rewrite list_elem_of_In, filter_In, <- list_elem_of_In.
  by rewrite elem_of_map_to_list.
Qed.

Lemma matching_nonempty :
  matching P m ≠ [] ↔ ∃ id x, m !! id = Some x ∧ P x = true.
Proof.
  split.
  - destruct (matching P m) as [|[id y] l] eqn:Hm; [done|].
    intros _. exists id, y. apply matching_spec. rewrite Hm. left.
  - intros (id & x & Hx%matching_spec) Hnil. rewrite Hnil in Hx.
    by apply elem_of_nil in Hx.
Qed.

(** [findOne] finds a document exactly when one matches. *)
Lemma findOne_is_Some :
  is_Some (findOne P m) ↔ ∃ id x, m !! id = Some x ∧ P x = true.
Proof.
  rewrite <- matching_nonempty. unfold findOne.
  destruct (matching P m) as [|[id y] l]; simpl.
  - split; [by intros []|done].
  - split; [done|by eexists].
Qed.

(** [countDocuments] is positive exactly when one matches. *)
Lemma countDocuments_pos :
  (0 < countDocuments P m)%nat ↔ ∃ id x, m !! id = Some x ∧ P x = true.
Proof.
  rewrite <- matching_nonempty. unfold countDocuments.
  destruct (matching P m); simpl; [|split; [done|lia]].
  split; [lia|done].
Qed.
End queries.

Lemma pending_for_spec uid bookId r :
  pending_for uid bookId r = true ↔
  requester r = uid ∧ book r = bookId ∧ status r = pending.
Proof.
  unfold pending_for.
  rewrite !andb_true_iff, !N.eqb_eq, bool_decide_eq_true. tauto.
Qed.

Lemma pending_on_spec bookId r :
  pending_on bookId r = true ↔ book r = bookId ∧ status r = pending.
Proof.
  unfold pending_on. by rewrite andb_true_iff, N.eqb_eq, bool_decide_eq_true.
Qed.

(** ** [getRequestById] *)

Lemma getRequestById_run s req :
  handle (getRequestById req) s =
  (match requests s !! params_id req with
   | None => failure 404 "Request not found"
   | Some r =>
     match users s !! requester r with
     | None => failure 500 "Cannot read properties of null (reading '_id')"
     | Some _ =>
       if requester r =? user_id req
       then success 200 None (RequestData (Some (populate r s)))
       else match users s !! owner r with
            | None => failure 500 "Cannot read properties of null (reading '_id')"
            | Some _ =>
              if owner r =? user_id req
              then success 200 None (RequestData (Some (populate r s)))
              else failure 403 "Not authorized to view this request"
            end
     end
   end, s).
Proof.
  unfold handle, getRequestById. rewrite run_read.
  destruct (requests s !! params_id req) as [r|]; [|done]. simpl.
  destruct (users s !! requester r); [|done].
  destruct (requester r =? user_id req); simpl; [done|].
  destruct (users s !! owner r); [|done].
  rewrite run_reply_if. by destruct (owner r =? user_id req).
Qed.

(** ** [deleteRequest] *)

Lemma deleteRequest_run s req :
  handle (deleteRequest req) s =
  match requests s !! params_id req with
  | None => (failure 404 "Request not found", s)
  | Some r =>
    if negb (requester r =? user_id req)
    then (failure 403 "Not authorized to delete this request", s)
    else if decide (status r = cancelled ∨ status r = rejected)
    then (success 200 (Some "Request deleted successfully") NoData,
          with_requests (delete (params_id req)) s)
    else (failure 400 "Can only delete cancelled or rejected requests", s)
  end.
Proof.
  unfold handle, deleteRequest, Request_findById. rewrite run_read.
  destruct (requests s !! params_id req) as [r|]; [|done].
  rewrite run_reply_if. destruct (requester r =? user_id req); [|done].
  cbn [negb]. rewrite run_reply_if.
  destruct (status r); destruct (decide _) as [[?|?]|Hd];
    try discriminate; try reflexivity; exfalso; apply Hd; auto.
Qed.

(** ** [deleteBook] *)

Lemma deleteBook_run s req :
  handle (deleteBook req) s =
  match books s !! params_id req with
  | None => (failure 404 "Book not found", s)
  | Some b =>
    if negb (b_owner b =? user_id req)
    then (failure 403 "Not authorized to delete this book", s)
    else if bool_decide (0 < countDocuments (pending_on (params_id req)) (requests s))%nat
    then (failure 400 "Cannot delete book with pending requests", s)
    else (success 200 (Some "Book deleted successfully") NoData,
          with_books (insert (params_id req)
                        (set_b_status NotAvailable (set_b_isActive false b))) s)
  end.
Proof.
  unfold handle, deleteBook, Book_findById. rewrite run_read.
  destruct (books s !! params_id req) as [b|]; [|done].
  rewrite run_reply_if. destruct (b_owner b =? user_id req); [|done].
  cbn [negb]. rewrite run_read, run_reply_if.
  by destruct (bool_decide _).
Qed.

(** ** [createRequest] *)

Lemma owned_available_spec s uid offered :
  (∃ ob, offered = Some ob ∧
         is_Some (books s !! ob ≫= λ b, if owned_available uid b then Some b else None))
  ↔ offered_ok s uid offered.
Proof.
  unfold offered_ok, owned_available. split.
  - intros (ob & -> & [b Hb]). destruct (books s !! ob) as [b'|] eqn:Hob; [|done].
    simpl in Hb. destruct (b_owner b' =? uid) eqn:Ho; [|done].
    destruct (b_isActive b') eqn:Hact; [|done].
    simpl in Hb. case_bool_decide; [|done].
    exists ob, b'. by apply N.eqb_eq in Ho.
  - intros (ob & b & -> & Hob & <- & Hact & Hst). exists ob. split; [done|].
    rewrite Hob. simpl. rewrite N.eqb_refl, Hact. simpl.
    rewrite bool_decide_eq_true_2 by done. by eexists.
Qed.

Lemma createRequest_run s req :
  handle (createRequest req) s =
  match books s !! cb_book (body req) with
  | None => (failure 404 "Book not found", s)
  | Some b =>
    if negb (b_isActive b) then (failure 404 "Book not found", s)
    else if negb (bool_decide (b_status b = Available))
    then (failure 400 "Book is not available for requests", s)
    else if b_owner b =? user_id req
    then (failure 400 "You cannot request your own book", s)
    else if bool_decide (is_Some (findOne (pending_for (user_id req) (cb_book (body req)))
                                    (requests s)))
    then (failure 400 "You already have a pending request for this book", s)
    else match cb_type (body req), cb_offeredBooks (body req) with
         | free, _ => created req b s
         | exchange, None =>
           (failure 400 "Exchange requests must include an offered book", s)
         | exchange, Some ob =>
           if bool_decide (is_Some (books s !! ob ≫= λ b',
                             if owned_available (user_id req) b' then Some b' else None))
           then created req b s
           else (failure 400 "Offered book is not valid or not available", s)
         end
  end.
Proof.
  unfold handle, createRequest, Book_findById. rewrite run_read.
  destruct (books s !! cb_book (body req)) as [b|]; [|done].
  rewrite run_reply_if. destruct (b_isActive b); [|done]. cbn [negb].
  rewrite run_reply_if. destruct (bool_decide (b_status b = Available)); [|done].
  cbn [negb]. rewrite run_reply_if. destruct (b_owner b =? user_id req); [done|].
  rewrite run_read, run_reply_if. destruct (bool_decide (is_Some _)); [done|].
  unfold created, new_request.
  destruct (cb_type (body req)); [done|].
  destruct (cb_offeredBooks (body req)) as [ob|]; [|done].
  rewrite run_assoc, run_read, run_assoc, run_reply_if.
  by destruct (bool_decide (is_Some _)).
Qed.

(** ** [rateRequest] *)

Lemma rateRequest_missing s req :
  requests s !! params_id req = None →
  handle (rateRequest req) s = (failure 404 "Request not found", s).
Proof.
  intros Hr. unfold handle, rateRequest, Request_findById.
  by rewrite run_read, Hr.
Qed.

Lemma rateRequest_run s req r :
  requests s !! params_id req = Some r →
  handle (rateRequest req) s =
  let q := rb_rating (body req) in
  let review := rb_review (body req) in
  if negb (bool_decide (status r = completed))
  then (failure 400 "Can only rate completed requests", s)
  else match side_of r (user_id req) with
       | None => (failure 403 "Not authorized to rate this request", s)
       | Some sd =>
         if truthy (side_rating sd (rating r))
         then (failure 400 "You have already rated this request", s)
         else match users s !! counterparty sd r with
              | None =>
                (failure 500 "Cannot read properties of null (reading 'updateRating')", s)
              | Some u =>
                if between 0 5 (average (u_rating (updateRating q u))) then
                  if rating_valid (Some q) review
                  then (success 200 (Some "Rating submitted successfully")
                          (RatingData (rate_side sd q review (rating r))),
                        rated sd q review r u (params_id req) s)
                  else (failure 500 "Request validation failed: rating",
                        with_users (insert (counterparty sd r) (updateRating q u)) s)
                else (failure 500 "User validation failed: rating.average", s)
              end
       end.
Proof.
  intros Hr. unfold handle, rateRequest, Request_findById, User_findById.
  rewrite run_read, Hr, run_reply_if.
  destruct (bool_decide (status r = completed)); [|done]. cbn [negb].
  rewrite run_reply_if. unfold side_of.
  destruct (requester r =? user_id req).
  - cbn [negb andb side_rating counterparty]. rewrite !run_assoc, run_reply_if.
    destruct (truthy (requesterRating (rating r))); [done|].
    rewrite run_assoc, run_read.
    destruct (users s !! owner r) as [u|]; [|done].
    unfold User_save. destruct (between 0 5 _); [|done].
    rewrite run_assoc, run_write, run_ret.
    destruct (rating_valid _ _); done.
  - cbn [negb andb]. destruct (owner r =? user_id req); [|done].
    cbn [negb side_rating counterparty]. rewrite !run_assoc, run_reply_if.
    destruct (truthy (ownerRating (rating r))); [done|].
    rewrite run_assoc, run_read.
    destruct (users s !! requester r) as [u|]; [|done].
    unfold User_save. destruct (between 0 5 _); [|done].
    rewrite run_assoc, run_write, run_ret.
    destruct (rating_valid _ _); done.
Qed.

Lemma post_rate_run s req :
  handle (post_rate req) s =
  match rateRequestSchema (body req) with
  | Some msg => (failure 400 msg, s)
  | None => handle (rateRequest req) s
  end.
Proof.
  unfold handle, post_rate, validate.
  by destruct (rateRequestSchema (body req)).
Qed.


(** ** Calls whose ids may not cast *)

Lemma on_id_run {B} (h : Req B → Handler) (req : RawReq B) s :
  handle (on_id h req) s =
  match cast (in_id req) with
  | Some id => handle (h (as_req req id)) s
  | None => (failure 500 "Cast to ObjectId failed", s)
  end.
Proof.
  unfold handle, on_id, castObjectId.
  destruct (cast (in_id req)) as [id|]; [|done]. by rewrite run_ret.
Qed.

(** *** Rating with a number or with a string *)

Section javascript.
Variable Number_toString : Q → string.
Variable ToNumber : string → option Q.

Lemma Http_rateRequest_run s (req : RawReq Http.RawRateBody) id r :
  cast (in_id req) = Some id →
  requests s !! id = Some r →
  handle (Http.rateRequest Number_toString ToNumber req) s =
  let given := Http.raw_rating (in_body req) in
  let q := Http.value_of given in
  let review := Http.raw_review (in_body req) in
  if negb (bool_decide (status r = completed))
  then (failure 400 "Can only rate completed requests", s)
  else match side_of r (in_user req) with
       | None => (failure 403 "Not authorized to rate this request", s)
       | Some sd =>
         if truthy (side_rating sd (rating r))
         then (failure 400 "You have already rated this request", s)
         else match users s !! counterparty sd r with
              | None =>
                (failure 500 "Cannot read properties of null (reading 'updateRating')", s)
              | Some u =>
                match Http.updateRating Number_toString ToNumber given u with
                | None => (failure 500 "User validation failed: rating.average", s)
                | Some u' =>
                  if between 0 5 (average (u_rating u')) then
                    if rating_valid (Some q) review
                    then (success 200 (Some "Rating submitted successfully")
                            (RatingData (rate_side sd q review (rating r))),
                          {| users := <[counterparty sd r := u']> (users s);
                             books := books s;
                             requests := alter (set_rating (rate_side sd q review (rating r)))
                                           id (requests s) |})
                    else (failure 500 "Request validation failed: rating",
                          with_users (insert (counterparty sd r) u') s)
                  else (failure 500 "User validation failed: rating.average", s)
                end
              end
       end.
Proof.
  intros Hid Hr.
  unfold handle, Http.rateRequest, castObjectId, Request_findById, User_findById.
  rewrite Hid, run_ret, run_read, Hr, run_reply_if.
  destruct (bool_decide (status r = completed)); [|done]. cbn [negb].
  rewrite run_reply_if. unfold side_of.
  destruct (requester r =? in_user req).
  - cbn [negb andb side_rating counterparty]. rewrite !run_assoc, run_reply_if.
    destruct (truthy (requesterRating (rating r))); [done|].
    rewrite run_assoc, run_read.
    destruct (users s !! owner r) as [u|]; [|done].
    destruct (Http.updateRating _ _ _ u) as [u'|]; [|done].
    unfold Http.User_save, User_save. destruct (between 0 5 _); [|done].
    rewrite run_assoc, run_write, run_ret.
    destruct (rating_valid _ _); done.
  - cbn [negb andb]. destruct (owner r =? in_user req); [|done].
    cbn [negb side_rating counterparty]. rewrite !run_assoc, run_reply_if.
    destruct (truthy (ownerRating (rating r))); [done|].
    rewrite run_assoc, run_read.
    destruct (users s !! requester r) as [u|]; [|done].
    destruct (Http.updateRating _ _ _ u) as [u'|]; [|done].
    unfold Http.User_save, User_save. destruct (between 0 5 _); [|done].
    rewrite run_assoc, run_write, run_ret.
    destruct (rating_valid _ _); done.
Qed.

Lemma Http_rateRequest_missing s (req : RawReq Http.RawRateBody) :
  handle (Http.rateRequest Number_toString ToNumber req) s =
  match cast (in_id req) with
  | None => (failure 500 "Cast to ObjectId failed", s)
  | Some id =>
    match requests s !! id with
    | None => (failure 404 "Request not found", s)
    | Some _ => handle (Http.rateRequest Number_toString ToNumber req) s
    end
  end.
Proof.
  destruct (cast (in_id req)) as [id|] eqn:Hid.
  - destruct (requests s !! id) eqn:Hr; [done|].
    unfold handle, Http.rateRequest, castObjectId, Request_findById.
    by rewrite Hid, run_ret, run_read, Hr.
  - unfold handle, Http.rateRequest, castObjectId. by rewrite Hid.
Qed.

Lemma Http_post_rate_run s (req : RawReq Http.RawRateBody) :
  handle (Http.post_rate Number_toString ToNumber req) s =
  match Http.rateRequestSchema (in_body req) with
  | Some msg => (failure 400 msg, s)
  | None => handle (Http.rateRequest Number_toString ToNumber req) s
  end.
Proof.
  unfold handle, Http.post_rate, validate.
  by destruct (Http.rateRequestSchema (in_body req)).
Qed.

(** With a JSON number for a rating and an id that casts, the route is the
    one on numbers and ObjectIds. *)
Lemma Http_post_rate_number s (req : RawReq Http.RawRateBody) id q :
  cast (in_id req) = Some id →
  Http.raw_rating (in_body req) = Http.AsNumber q →
  handle (Http.post_rate Number_toString ToNumber req) s =
  handle (post_rate {| user_id := in_user req; params_id := id;
                       body := {| rb_rating := q;
                                  rb_review := Http.raw_review (in_body req) |};
                       now := in_now req |}) s.
Proof.
  intros Hid Hq. rewrite Http_post_rate_run, post_rate_run.
  unfold Http.rateRequestSchema. rewrite Hq. cbn [Http.value_of body].
  destruct (rateRequestSchema _); [done|].
  rewrite Http_rateRequest_missing, Hid.
  destruct (requests s !! id) as [r|] eqn:Hr.
  2: { by rewrite rateRequest_missing. }
  rewrite (Http_rateRequest_run s req id r Hid Hr).
  rewrite (rateRequest_run s _ r) by done. cbv zeta.
  rewrite Hq. cbn [Http.value_of body rb_rating rb_review user_id params_id].
  destruct (negb _); [done|].
  destruct (side_of r (in_user req)) as [sd|]; [|done].
  destruct (truthy _); [done|].
  destruct (users s !! counterparty sd r) as [u|]; [|done].
  reflexivity.
Qed.

(** What [rateRequest] does to the collections, whatever the rating is. *)
Lemma Http_rateRequest_effect s (req : RawReq Http.RawRateBody) :
  let s' := (handle (Http.rateRequest Number_toString ToNumber req) s).2 in
  books s' = books s ∧
  (requests s' = requests s ∨
   ∃ id rt, requests s' = alter (set_rating rt) id (requests s)) ∧
  (users s' = users s ∨
   ∃ id u u', users s !! id = Some u ∧ users s' = <[id := u']> (users s) ∧
              u_isActive u' = u_isActive u).
Proof.
  rewrite Http_rateRequest_missing.
  destruct (cast (in_id req)) as [id|] eqn:Hid; [|cbn; by auto].
  destruct (requests s !! id) as [r|] eqn:Hr; [|cbn; by auto].
  rewrite (Http_rateRequest_run s req id r Hid Hr). cbv zeta.
  destruct (negb _); [cbn; by auto|].
  destruct (side_of r (in_user req)) as [sd|]; [|cbn; by auto].
  destruct (truthy _); [cbn; by auto|].
  destruct (users s !! counterparty sd r) as [u|] eqn:Hu; [|cbn; by auto].
  destruct (Http.updateRating _ _ _ u) as [u'|] eqn:Hu'; [|cbn; by auto].
  assert (u_isActive u' = u_isActive u) as Hact.
  { unfold Http.updateRating in Hu'.
    destruct (match Http.raw_rating (in_body req) with
              | Http.AsNumber _ => _ | Http.AsText _ _ => _ end); [|done].
    cbn in Hu'. by injection Hu' as <-. }
  destruct (between 0 5 _); [|cbn; by auto].
  destruct (rating_valid _ _); cbn.
  - split; [done|]. split; [right; by eexists _, _|]. right.
    exists (counterparty sd r), u, u'. done.
  - split; [done|]. split; [by left|]. right.
    exists (counterparty sd r), u, u'. done.
Qed.

End javascript.

(** ** What every reachable store satisfies *)

(** [request_ok] survives any change of the store that keeps the users and
    the books and never turns an unavailable book available again. *)
Lemma request_ok_frame s s' r :
  (∀ id, is_Some (users s !! id) → is_Some (users s' !! id)) →
  (∀ id, is_Some (books s !! id) → is_Some (books s' !! id)) →
  (∀ id b b', books s !! id = Some b → books s' !! id = Some b' →
              b_status b = NotAvailable → b_status b' = NotAvailable) →
  request_ok s r → request_ok s' r.
Proof.
  intros Hu Hb Hst [Hrq Hown Hbook Hoff Hna Hnao]. split.
  - by apply Hu.
  - by apply Hu.
  - by apply Hb.
  - destruct (type r); [done|].
    destruct Hoff as (ob & Hob & Hne & Hsome). exists ob. auto.
  - intros b' Hs Hb'. destruct Hbook as [b Hbk]. eauto.
  - intros ob b' Hs Hob Hb'.
    assert (is_Some (books s !! ob)) as [b Hbk].
    { destruct (type r); [congruence|].
      destruct Hoff as (ob' & Hob' & _ & Hsome). congruence. }
    eauto.
Qed.

Lemma request_ok_fields s r r' :
  requester r' = requester r → owner r' = owner r → book r' = book r →
  type r' = type r → offeredBooks r' = offeredBooks r → status r' = status r →
  request_ok s r → request_ok s r'.
Proof.
  intros Hq Ho Hb Ht Hf Hs [Hrq Hown Hbook Hoff Hna Hnao]. split.
  - by rewrite Hq.
  - by rewrite Ho.
  - by rewrite Hb.
  - rewrite Ht, Hf, Hb. done.
  - rewrite Hs, Hb. done.
  - rewrite Hs, Hf. done.
Qed.

Lemma store_ok_initial s : initial s → store_ok s.
Proof.
  intros [Hempty Hbooks]. split; [done|].
  intros id r. by rewrite Hempty, lookup_empty.
Qed.

Lemma store_ok_createRequest s req :
  is_Some (users s !! user_id req) →
  store_ok s → store_ok (handle (createRequest req) s).2.
Proof.
  intros Hauth [Hbooks Hreqs]. rewrite createRequest_run.
  destruct (books s !! cb_book (body req)) as [b|] eqn:Hb; [|done].
  destruct (b_isActive b); [|done]. cbn [negb].
  destruct (bool_decide (b_status b = Available)); [|done]. cbn [negb].
  destruct (b_owner b =? user_id req) eqn:Hown; [done|].
  apply N.eqb_neq in Hown.
  destruct (bool_decide (is_Some (findOne _ _))); [done|].
  assert (match cb_type (body req) with
          | free => True
          | exchange => offered_ok s (user_id req) (cb_offeredBooks (body req))
          end → store_ok (created req b s).2) as Hcreated.
  { intros Hoff. unfold created. cbn [snd]. split; [done|].
    intros id r. rewrite requests_with_requests.
    intros [[<- <-]|[_ Hr]]%lookup_insert_Some.
    - split; cbn.
      + done.
      + by eapply Hbooks.
      + by rewrite Hb.
      + destruct (cb_type (body req)); [done|].
        destruct Hoff as (ob & b' & -> & Hob & Hown' & _ & _).
        exists ob. split; [done|]. split; [|by rewrite Hob].
        intros ->. congruence.
      + by intros b' [?|?].
      + done.
    - apply (request_ok_frame s); [done|done| |by eapply Hreqs].
      intros i b1 b2 H1 H2. cbn in H2. congruence. }
  destruct (cb_type (body req)); [by apply Hcreated|].
  destruct (cb_offeredBooks (body req)) as [ob|] eqn:Hob; [|done].
  case_bool_decide as Hcheck; [|done].
  apply Hcreated, owned_available_spec. eauto.
Qed.

(** What the book writes of a transition do to one book: nothing, or mark
    it unavailable, possibly handing it to the requester or to the owner. *)
Lemma book_writes_lookup t r bs id :
  ∃ f, book_writes t r bs !! id = f <$> bs !! id ∧
       ∀ b, f b = b ∨
            (b_status (f b) = NotAvailable ∧
             (b_owner (f b) = b_owner b ∨ b_owner (f b) = requester r
              ∨ b_owner (f b) = owner r)).
Proof.
  unfold book_writes.
  destruct t, (type r), (offeredBooks r) as [ob|];
    generalize (book r); intros br;
    rewrite ?lookup_alter; repeat case_decide; subst;
    try (exists (λ b, b); split; [by rewrite option_fmap_id|by left]);
    rewrite <- ?option_fmap_compose;
    (eexists; split; [reflexivity|]); intros b; right; simpl; auto.
Qed.

Lemma book_writes_target t r bs b' :
  t = accepted ∨ t = completed →
  book_writes t r bs !! book r = Some b' → b_status b' = NotAvailable.
Proof.
  unfold book_writes.
  intros [-> | ->]; destruct (type r), (offeredBooks r) as [ob|];
    rewrite ?lookup_alter; repeat case_decide; try done;
    destruct (bs !! book r); simpl; by intros [= <-].
Qed.

Lemma book_writes_offered r bs ob b' :
  type r = exchange → offeredBooks r = Some ob →
  book_writes completed r bs !! ob = Some b' → b_status b' = NotAvailable.
Proof.
  unfold book_writes. intros -> ->. rewrite lookup_alter_eq.
  destruct (alter _ _ _ !! ob); simpl; by intros [= <-].
Qed.

Lemma store_ok_updateRequest s req :
  store_ok s → store_ok (handle (updateRequest req) s).2.
Proof.
  intros Hok. destruct (handle (updateRequest req) s) as [resp s'] eqn:Hrun.
  cbn [snd]. destruct (ok resp) eqn:Hres.
  2: { by destruct (updateRequest_failure _ _ _ _ Hrun Hres) as [-> _]. }
  destruct (updateRequest_success _ _ _ _ Hrun Hres)
    as (r & t & Hr & Ht & Ha & He & _ & ->).
  destruct Hok as [Hbooks Hreqs].
  pose proof (Hreqs _ _ Hr) as Hr_ok.
  assert (∀ r1, request_ok s r1 → request_ok (committed t r req s) r1) as Hframe.
  { intros r1 Hr1. apply (request_ok_frame s); [| | |exact Hr1].
    - done.
    - intros id [b Hb]. cbn.
      destruct (book_writes_lookup t r (books s) id) as (f & -> & _).
      rewrite Hb. by eexists.
    - intros id b b' Hb. cbn.
      destruct (book_writes_lookup t r (books s) id) as (f & -> & Hf).
      rewrite Hb. intros [= <-]. destruct (Hf b) as [->|[? _]]; done. }
  split.
  - intros id b'. cbn.
    destruct (book_writes_lookup t r (books s) id) as (f & -> & Hf).
    destruct (books s !! id) as [b|] eqn:Hb; [|done]. intros [= <-].
    destruct (Hf b) as [->|[_ [->|[->| ->]]]].
    + by eapply Hbooks.
    + by eapply Hbooks.
    + apply Hr_ok.
    + apply Hr_ok.
  - intros id r1. unfold committed at 1. cbn [requests].
    intros [[<- (r0 & Hr0 & ->)]|[_ Hr1]]%lookup_alter_Some; [|by eapply Hframe, Hreqs].
    rewrite Hr in Hr0. injection Hr0 as <-.
    destruct (request_write_fields t (now req) r) as (Hq & Hb & Ho & Hty & Hoff & _).
    pose proof (request_write_status t (now req) r) as Hst.
    destruct (Hframe _ Hr_ok) as [Hrq Hown Hbook Hoffered Hna Hnao].
    split.
    + by rewrite Hq.
    + by rewrite Ho.
    + by rewrite Hb.
    + by rewrite Hty, Hoff, Hb.
    + rewrite Hst, Hb. intros b' Hacc. by apply book_writes_target.
    + rewrite Hst, Hoff. intros ob b' -> Hob.
      destruct (type r) eqn:Htype; [congruence|].
      by apply book_writes_offered.
Qed.

Lemma store_ok_rateRequest s req :
  store_ok s → store_ok (handle (rateRequest req) s).2.
Proof.
  intros Hok. destruct (requests s !! params_id req) as [r|] eqn:Hr.
  2: { by rewrite rateRequest_missing. }
  rewrite (rateRequest_run s req r Hr). cbv zeta.
  destruct (bool_decide (status r = completed)); [|done]. cbn [negb].
  destruct (side_of r (user_id req)) as [sd|]; [|done].
  destruct (truthy _); [done|].
  destruct (users s !! counterparty sd r) as [u|] eqn:Hu; [|done].
  destruct (between 0 5 _); [|done].
  destruct Hok as [Hbooks Hreqs].
  assert (∀ id, is_Some (users s !! id) →
                is_Some (<[counterparty sd r := updateRating (rb_rating (body req)) u]>
                           (users s) !! id)) as Husers.
  { intros id Hid. rewrite lookup_insert_is_Some. destruct (decide (counterparty sd r = id)); auto. }
  assert (∀ s', users s' = <[counterparty sd r := updateRating (rb_rating (body req)) u]> (users s) →
                books s' = books s →
                ∀ r1, request_ok s r1 → request_ok s' r1) as Hframe.
  { intros s' Hus Hbs r1 Hr1. apply (request_ok_frame s); [| | |exact Hr1].
    - intros id. rewrite Hus. apply Husers.
    - intros id. by rewrite Hbs.
    - intros id b b'. rewrite Hbs. congruence. }
  destruct (rating_valid _ _); cbn [snd].
  - split.
    + intros id b Hb. apply Husers. by eapply Hbooks.
    + intros id r1. unfold rated at 1. cbn [requests].
      intros [[<- (r0 & Hr0 & ->)]|[_ Hr1]]%lookup_alter_Some.
      * apply (request_ok_fields _ r0); try done. by eapply Hframe, Hreqs.
      * by eapply Hframe, Hreqs.
  - split.
    + intros id b Hb. apply Husers. by eapply Hbooks.
    + intros id r1 Hr1. by eapply Hframe, Hreqs.
Qed.

Lemma store_ok_deleteRequest s req :
  store_ok s → store_ok (handle (deleteRequest req) s).2.
Proof.
  intros Hok. rewrite deleteRequest_run.
  destruct (requests s !! params_id req) as [r|]; [|done].
  destruct (negb _); [done|]. destruct (decide _); [|done].
  destruct Hok as [Hbooks Hreqs]. split; [done|].
  intros id r1. cbn. intros [_ Hr1]%lookup_delete_Some.
  apply (request_ok_frame s); [done|done| |by eapply Hreqs].
  intros i b1 b2 H1 H2. cbn in H2. congruence.
Qed.

Lemma store_ok_deleteBook s req :
  store_ok s → store_ok (handle (deleteBook req) s).2.
Proof.
  intros Hok. rewrite deleteBook_run.
  destruct (books s !! params_id req) as [b|] eqn:Hb; [|done].
  destruct (negb _); [done|]. destruct (bool_decide _); [done|].
  destruct Hok as [Hbooks Hreqs]. cbn [snd]. split.
  - intros id b'. cbn. intros [[<- <-]|[_ Hb']]%lookup_insert_Some.
    + simpl. by eapply Hbooks.
    + by eapply Hbooks.
  - intros id r1 Hr1. apply (request_ok_frame s); [done| | |by eapply Hreqs].
    + intros i. cbn. rewrite lookup_insert_is_Some. destruct (decide (params_id req = i)); auto.
    + intros i b1 b2 H1. cbn. intros [[<- <-]|[_ H2]]%lookup_insert_Some; [done|congruence].
Qed.

Lemma store_ok_rateRequest_raw ts tn s (req : RawReq Http.RawRateBody) :
  store_ok s → store_ok (handle (Http.rateRequest ts tn req) s).2.
Proof.
  intros [Hbooks Hreqs].
  destruct (Http_rateRequest_effect ts tn s req) as (Hb & Hr & Hu).
  set (s' := (handle (Http.rateRequest ts tn req) s).2) in *.
  assert (∀ id, is_Some (users s !! id) → is_Some (users s' !! id)) as Husers.
  { destruct Hu as [->|(uid & u & u' & _ & -> & _)]; [done|].
    intros id Hid. rewrite lookup_insert_is_Some. destruct (decide (uid = id)); auto. }
  assert (∀ r1, request_ok s r1 → request_ok s' r1) as Hframe.
  { intros r1 Hr1. apply (request_ok_frame s); [done| | |exact Hr1].
    - intros id. by rewrite Hb.
    - intros id b b'. rewrite Hb. congruence. }
  split.
  - intros id b. rewrite Hb. intros Hbk. apply Husers. by eapply Hbooks.
  - intros id r1. destruct Hr as [->|(rid & rt & ->)].
    + intros Hr1. by eapply Hframe, Hreqs.
    + intros [[<- (r0 & Hr0 & ->)]|[_ Hr1]]%lookup_alter_Some.
      * apply (request_ok_fields _ r0); try done. by eapply Hframe, Hreqs.
      * by eapply Hframe, Hreqs.
Qed.

(** Every reachable store is well formed. *)
Lemma reachable_ok s : reachable s → store_ok s.
Proof.
  induction 1 as [s Hinit|s s' _ IH Hstep].
  - by apply store_ok_initial.
  - destruct Hstep as [req Hauth|req Hauth|req Hauth|ts tn req Hauth|req Hauth|req Hauth].
    + by apply store_ok_createRequest.
    + by apply store_ok_updateRequest.
    + by apply store_ok_rateRequest.
    + by apply store_ok_rateRequest_raw.
    + by apply store_ok_deleteRequest.
    + by apply store_ok_deleteBook.
Qed.

(** ** The worked scenario is reachable *)

Lemma demo_init_initial : initial demo_init.
Proof.
  split; [done|]. intros id b.
  unfold demo_init. cbn [books users].
  intros [[<- <-]|[_ [<- <-]%lookup_singleton_Some]]%lookup_insert_Some;
    by eexists.
Qed.

Lemma demo_pending_reachable : reachable demo_pending.
Proof.
  eapply reachable_step; [apply reachable_initial, demo_init_initial|].
  apply step_createRequest. by eexists.
Qed.

Lemma demo_accepted_reachable : reachable demo_accepted.
Proof.
  eapply reachable_step; [apply demo_pending_reachable|].
  apply step_updateRequest. by eexists.
Qed.

Lemma demo_completed_reachable : reachable demo_completed.
Proof.
  eapply reachable_step; [apply demo_accepted_reachable|].
  apply step_updateRequest. by eexists.
Qed.

(** ** Completion hands the books over (claim C2) *)

(** The requester and the owner can both complete an accepted request. *)
Lemma completion_goes_through s req r :
  requests s !! params_id req = Some r →
  status r = accepted →
  ub_status (body req) = Some "completed" →
  requester r = user_id req ∨ owner r = user_id req →
  ok (handle (updateRequest req) s).1 = true.
Proof.
  intros Hr Hst Hv Hwho. rewrite (updateRequest_run s req r Hr), Hv, Hst.
  change (Some "completed" ≫= status_of_name) with (Some completed).
  cbn [allowed_actor edge negb].
  by destruct Hwho as [-> | ->]; rewrite N.eqb_refl, ?orb_true_r.
Qed.

(** C2: in a reachable store, when a call of [updateRequest] asking for
    [completed] on an accepted request goes through, the target book belongs
    to the requester afterwards; for an exchange the offered book belongs to
    the original owner; and the request is completed with [completedAt] set
    to the time of the call. *)
Theorem completion_transfers_ownership s req r resp s' :
  reachable s →
  requests s !! params_id req = Some r →
  status r = accepted →
  ub_status (body req) = Some "completed" →
  handle (updateRequest req) s = (resp, s') →
  ok resp = true →
  (∃ b, books s' !! book r = Some b ∧ b_owner b = requester r) ∧
  (type r = exchange →
     ∃ ob b, offeredBooks r = Some ob ∧ books s' !! ob = Some b ∧ b_owner b = owner r) ∧
  (∃ r', requests s' !! params_id req = Some r' ∧
         status r' = completed ∧ completedAt r' = Some (now req)).
Proof.
  intros Hreach Hr Hst Hv Hrun Hok.
  destruct (updateRequest_success _ _ _ _ Hrun Hok)
    as (r0 & t & Hr0 & Ht & _ & _ & _ & ->).
  rewrite Hr in Hr0. injection Hr0 as <-.
  assert (t = completed) as ->.
  { rewrite Hv in Ht. injection Ht as Ht. symmetry. by apply status_name_inj. }
  destruct (ok_requests s (reachable_ok s Hreach) _ _ Hr) as [_ _ [b Hb] Hoff _ _].
  unfold committed. cbn [books requests book_writes].
  split; [|split].
  - destruct (type r).
    + cbv iota. rewrite lookup_alter_eq, Hb. by eexists.
    + destruct Hoff as (ob & -> & Hne & _).
      rewrite lookup_alter_ne, lookup_alter_eq, Hb by done. by eexists.
  - intros Hty. rewrite Hty in *. destruct Hoff as (ob & -> & Hne & [b' Hb']).
    exists ob. rewrite lookup_alter_eq, lookup_alter_ne, Hb' by done. by eexists.
  - rewrite lookup_alter_eq, Hr. by eexists.
Qed.

Lemma completion_transfers_ownership_witness :
  (∃ b, books demo_completed !! book demo_request = Some b ∧ b_owner b = 2) ∧
  (type demo_request = exchange →
     ∃ ob b, offeredBooks demo_request = Some ob ∧
             books demo_completed !! ob = Some b ∧ b_owner b = 1) ∧
  (∃ r', requests demo_completed !! 0 = Some r' ∧
         status r' = completed ∧ completedAt r' = Some 1700000000000%Z).
Proof.
  apply (completion_transfers_ownership demo_accepted (call 2 0 (ask "completed"))
           (set_status accepted demo_request)
           (handle (updateRequest (call 2 0 (ask "completed"))) demo_accepted).1
           demo_completed).
  - apply demo_accepted_reachable.
  - vm_compute. reflexivity.
  - reflexivity.
  - reflexivity.
  - vm_compute. reflexivity.
  - vm_compute. reflexivity.
Defined.

(** ** Accepted and completed requests keep their book unavailable (claim C5) *)



(** Acceptance touches the target book only: in the scenario the book Carol
    offers is still Available while her request is accepted, and becomes
    Not Available on completion. *)
Lemma offered_book_waits_for_completion :
  b_status <$> books demo_accepted !! 20 = Some Available ∧
  b_status <$> books demo_completed !! 20 = Some NotAvailable.
Proof. by vm_compute. Qed.


(** ** Deleting a book (claim C10) *)

(** C10, as stated, fails: book 20 is what Carol offers in her pending
    request 0, so a pending request refers to it; yet Carol's [deleteBook]
    of book 20 goes through, because only requests whose target is the book
    are counted. *)
Lemma offered_book_can_be_deleted :
  (∃ r, requests demo_pending !! 0 = Some r ∧ status r = pending ∧
        offeredBooks r = Some 20) ∧
  (∃ b, books demo_pending !! 20 = Some b ∧ b_owner b = 2) ∧
  (handle (deleteBook (call 2 20 tt)) demo_pending).1
    = success 200 (Some "Book deleted successfully") NoData.
Proof.
  split; [|split].
  - exists demo_request. by vm_compute.
  - exists (a_book "Emma" 2). by vm_compute.
  - by vm_compute.
Qed.

(** C10 (amended): when the owner calls [deleteBook], a pending request
    whose target is the book makes the call fail with 400 and leaves the
    store as it was; with no such request (requests that only offer the book
    do not count) the book document stays in the collection, with
    [isActive] false and status Not Available and its other fields as they
    were, and nothing else changes. *)
Theorem deleteBook_soft_deletes s req b :
  books s !! params_id req = Some b →
  b_owner b = user_id req →
  let '(resp, s') := handle (deleteBook req) s in
  ((∃ rid r, requests s !! rid = Some r ∧ book r = params_id req ∧ status r = pending) →
     resp = failure 400 "Cannot delete book with pending requests" ∧ s' = s) ∧
  (¬ (∃ rid r, requests s !! rid = Some r ∧ book r = params_id req ∧ status r = pending) →
     resp = success 200 (Some "Book deleted successfully") NoData ∧
     (∃ b', books s' !! params_id req = Some b' ∧
            b_isActive b' = false ∧ b_status b' = NotAvailable ∧
            b_title b' = b_title b ∧ b_author b' = b_author b ∧ b_owner b' = b_owner b) ∧
     (∀ id, id ≠ params_id req → books s' !! id = books s !! id) ∧
     requests s' = requests s ∧ users s' = users s).
Proof.
  intros Hb Hown. rewrite deleteBook_run, Hb, Hown, N.eqb_refl. cbn [negb].
  case_bool_decide as Hcount; rewrite countDocuments_pos in Hcount.
  - split; [done|]. intros Hno. exfalso. apply Hno.
    destruct Hcount as (rid & r & Hr & Hp%pending_on_spec). eauto.
  - split.
    + intros (rid & r & Hr & Hp). exfalso. apply Hcount.
      exists rid, r. by rewrite pending_on_spec.
    + intros _. split; [done|]. cbn. split; [|split; [|done]].
      * rewrite lookup_insert_eq. by eexists.
      * intros id Hne. by rewrite lookup_insert_ne.
Qed.

Lemma deleteBook_soft_deletes_witness :
  (handle (deleteBook (call 1 10 tt)) demo_pending).1
    = failure 400 "Cannot delete book with pending requests" ∧
  (handle (deleteBook (call 1 10 tt)) demo_pending).2 = demo_pending.
Proof.
  pose proof (deleteBook_soft_deletes demo_pending (call 1 10 tt) (a_book "Dune" 1)) as H.
  destruct (handle (deleteBook (call 1 10 tt)) demo_pending) as [resp s'].
  apply H.
  - vm_compute. reflexivity.
  - reflexivity.
  - exists 0, demo_request. split; [vm_compute; reflexivity|]. split; reflexivity.
Defined.

(** ** Rating a completed request *)

Lemma truthy_from_one q : Qle_bool 1 q = true → truthy (Some q) = true.
Proof.
  intros Hq. simpl. apply negb_true_iff, not_true_is_false.
  intros Hz%Qeq_bool_iff. apply Qle_bool_iff in Hq. rewrite Hz in Hq.
  by apply (Qlt_not_le 0 1) in Hq.
Qed.

(** What [rateRequestSchema] lets through also passes the validators of
    the request model. *)
Lemma rateRequestSchema_passes b :
  rateRequestSchema b = None →
  Qle_bool 1 (rb_rating b) = true ∧ Qle_bool (rb_rating b) 5 = true ∧
  rating_valid (Some (rb_rating b)) (rb_review b) = true.
Proof.
  unfold rateRequestSchema, rating_valid, between. cbn [from_option].
  destruct (Qle_bool 1 (rb_rating b)); [|done].
  destruct (Qle_bool (rb_rating b) 5); [|done]. cbn.
  destruct (rb_review b) as [t|]; [|done].
  destruct (String.eqb t ""); [done|]. cbn.
  by case_bool_decide.
Qed.

Lemma Qnum_of_nonneg n : (0 <= Qnum_of n)%Q.
Proof. unfold Qnum_of. change 0%Q with (inject_Z 0). rewrite <- Zle_Qle. lia. Qed.

Lemma Qnum_of_succ n : (Qnum_of (n + 1) == Qnum_of n + 1)%Q.
Proof. unfold Qnum_of. rewrite N2Z.inj_add, inject_Z_plus. reflexivity. Qed.

Lemma between_spec lo hi x : between lo hi x = true ↔ (lo <= x ∧ x <= hi)%Q.
Proof. unfold between. by rewrite andb_true_iff, !Qle_bool_iff. Qed.

(** Folding a rating from 1 to 5 into an average from 0 to 5 keeps it
    there, so the [save] of [updateRating] passes. *)
Lemma running_average_in_range (avg q : Q) (n : N) :
  between 0 5 avg = true → between 1 5 q = true →
  between 0 5 ((avg * Qnum_of n + q) / Qnum_of (n + 1)) = true.
Proof.
  rewrite !between_spec. intros [Ha0 Ha5] [Hq1 Hq5].
  pose proof (Qnum_of_nonneg n) as Hn.
  assert (0 < Qnum_of (n + 1))%Q as Hpos by (rewrite Qnum_of_succ; lra).
  split.
  - apply Qle_shift_div_l; [done|]. nra.
  - apply Qle_shift_div_r; [done|]. rewrite Qnum_of_succ. nra.
Qed.

(** A valid rating of a completed request by a side that has not rated
    yet goes through. *)
Lemma rating_goes_through s req r sd u :
  rateRequestSchema (body req) = None →
  requests s !! params_id req = Some r →
  status r = completed →
  side_of r (user_id req) = Some sd →
  truthy (side_rating sd (rating r)) = false →
  users s !! counterparty sd r = Some u →
  between 0 5 (average (u_rating u)) = true →
  ok (handle (post_rate req) s).1 = true.
Proof.
  intros Hsch Hr Hst Hsd Hnew Hu Havg.
  rewrite post_rate_run, Hsch, (rateRequest_run s req r Hr). cbv zeta.
  rewrite bool_decide_eq_true_2, Hsd, Hnew, Hu by done. cbn [negb].
  apply rateRequestSchema_passes in Hsch as (H1 & H5 & ->).
  unfold updateRating. cbn [u_rating average].
  rewrite running_average_in_range; [done|done|].
  unfold between. by rewrite H1, H5.
Qed.

Lemma first_rating_is_the_average (avg q : Q) :
  ((avg * Qnum_of 0 + q) / Qnum_of (0 + 1) == q)%Q.
Proof. unfold Qnum_of. simpl. field. Qed.

(** X29: for a body whose rating is a JSON number: when a rating of value
    [q] sent to POST /:id/rate goes through, the request was completed, the
    caller is on one side of it, and afterwards
    (1) the request carries [q] and the review on that side, the other side
    as before; (2) the counterparty's count went up by one and the average is
    (oldAverage * oldCount + q) / (oldCount + 1), which for a counterparty
    with no rating yet is [q] with count 1; (3) any further rating of the
    same request by the same caller is answered 400, already rated, and
    changes nothing. *)
Theorem rating_is_recorded_once s req resp s' :
  handle (post_rate req) s = (resp, s') →
  ok resp = true →
  let q := rb_rating (body req) in
  ∃ r sd u,
    requests s !! params_id req = Some r ∧ status r = completed ∧
    side_of r (user_id req) = Some sd ∧
    users s !! counterparty sd r = Some u ∧
    (∃ r', requests s' !! params_id req = Some r' ∧
           side_rating sd (rating r') = Some q ∧
           side_review sd (rating r') = rb_review (body req) ∧
           side_rating (other_side sd) (rating r') = side_rating (other_side sd) (rating r) ∧
           side_review (other_side sd) (rating r') = side_review (other_side sd) (rating r)) ∧
    (∃ u', users s' !! counterparty sd r = Some u' ∧
           average (u_rating u')
             = ((average (u_rating u) * Qnum_of (count (u_rating u)) + q)
                / Qnum_of (count (u_rating u) + 1))%Q ∧
           count (u_rating u') = count (u_rating u) + 1 ∧
           (count (u_rating u) = 0 →
              (average (u_rating u') == q)%Q ∧ count (u_rating u') = 1)) ∧
    (∀ req2, user_id req2 = user_id req → params_id req2 = params_id req →
       handle (rateRequest req2) s'
         = (failure 400 "You have already rated this request", s') ∧
       (handle (post_rate req2) s').2 = s' ∧
       code (handle (post_rate req2) s').1 = 400).
Proof.
  intros Hrun Hok q. rewrite post_rate_run in Hrun.
  destruct (rateRequestSchema (body req)) as [msg|] eqn:Hsch.
  { injection Hrun as <- <-. discriminate Hok. }
  apply rateRequestSchema_passes in Hsch as (Hone & _ & _).
  destruct (requests s !! params_id req) as [r|] eqn:Hr.
  2: { rewrite rateRequest_missing in Hrun by done.
       injection Hrun as <- <-. discriminate Hok. }
  rewrite (rateRequest_run s req r Hr) in Hrun. cbv zeta in Hrun.
  case_bool_decide as Hst; cbn [negb] in Hrun.
  2: { injection Hrun as <- <-. discriminate Hok. }
  destruct (side_of r (user_id req)) as [sd|] eqn:Hsd.
  2: { injection Hrun as <- <-. discriminate Hok. }
  destruct (truthy (side_rating sd (rating r))).
  { injection Hrun as <- <-. discriminate Hok. }
  destruct (users s !! counterparty sd r) as [u|] eqn:Hu.
  2: { injection Hrun as <- <-. discriminate Hok. }
  destruct (between 0 5 _).
  2: { injection Hrun as <- <-. discriminate Hok. }
  destruct (rating_valid _ _).
  2: { injection Hrun as <- <-. discriminate Hok. }
  injection Hrun as <- <-. fold q.
  exists r, sd, u. repeat (split; [done|]).
  assert (requests (rated sd q (rb_review (body req)) r u (params_id req) s) !! params_id req
          = Some (set_rating (rate_side sd q (rb_review (body req)) (rating r)) r)) as Hnew.
  { unfold rated. cbn [requests]. by rewrite lookup_alter_eq, Hr. }
  split; [|split].
  - eexists. split; [exact Hnew|]. by destruct sd.
  - exists (updateRating q u). split.
    { unfold rated. cbn [users]. by rewrite lookup_insert_eq. }
    split; [done|]. split; [done|].
    intros Hzero. cbn. rewrite Hzero. split; [|done].
    apply first_rating_is_the_average.
  - intros req2 Huser Hid.
    assert (handle (rateRequest req2)
              (rated sd q (rb_review (body req)) r u (params_id req) s)
            = (failure 400 "You have already rated this request",
               rated sd q (rb_review (body req)) r u (params_id req) s)) as Hagain.
    { assert (requests (rated sd q (rb_review (body req)) r u (params_id req) s)
                !! params_id req2
              = Some (set_rating (rate_side sd q (rb_review (body req)) (rating r)) r))
        as Hnew2 by (by rewrite Hid).
      rewrite (rateRequest_run _ req2 _ Hnew2). cbv zeta.
      cbn [status set_rating]. rewrite bool_decide_eq_true_2 by done. cbn [negb].
      replace (side_of _ (user_id req2)) with (Some sd) by (by rewrite Huser, <- Hsd).
      replace (side_rating sd _) with (Some q) by (by destruct sd).
      by rewrite truthy_from_one. }
    split; [done|]. rewrite post_rate_run, Hagain.
    by destruct (rateRequestSchema (body req2)).
Qed.

Lemma rating_is_recorded_once_witness :
  ∃ u', users demo_rated !! 1 = Some u' ∧
        (average (u_rating u') == 4)%Q ∧ count (u_rating u') = 1.
Proof.
  assert (handle (post_rate demo_rate_call) demo_completed
          = ((handle (post_rate demo_rate_call) demo_completed).1, demo_rated)) as Hrun
    by (vm_compute; reflexivity).
  assert (ok (handle (post_rate demo_rate_call) demo_completed).1 = true) as Hok
    by (vm_compute; reflexivity).
  destruct (rating_is_recorded_once _ _ _ _ Hrun Hok)
    as (r & sd & u & Hr & _ & Hsd & Hu & _ & (u' & Hu' & _ & _ & Hfirst) & _).
  vm_compute in Hr. injection Hr as <-.
  vm_compute in Hsd. injection Hsd as <-.
  vm_compute in Hu. injection Hu as <-.
  exists u'. split; [exact Hu'|]. apply Hfirst. reflexivity.
Defined.

(** ** Creating a request *)

Lemma fresh_request_id s : requests s !! fresh (dom (requests s)) = None.
Proof. apply not_elem_of_dom, is_fresh. Qed.

(** The three ways a call of [createRequest] can end. *)
Lemma createRequest_cases s req :
  let '(resp, s') := handle (createRequest req) s in
  (resp = failure 404 "Book not found" ∧ s' = s ∧ ¬ ∃ b, target_active s req b) ∨
  (∃ b msg, resp = failure 400 msg ∧ s' = s ∧
            target_active s req b ∧ invalid_state s req b) ∨
  (∃ b, (resp, s') = created req b s ∧
        target_active s req b ∧ ¬ invalid_state s req b).
Proof.
  rewrite createRequest_run. unfold target_active, invalid_state.
  destruct (books s !! cb_book (body req)) as [b|] eqn:Hb.
  2: { left. split; [done|split; [done|]]. by intros (b & ? & _). }
  destruct (b_isActive b) eqn:Hact; cbn [negb].
  2: { left. split; [done|split; [done|]]. intros (b' & [= <-] & ?). congruence. }
  case_bool_decide as Hst; cbn [negb].
  2: { right. left. exists b. eauto 10. }
  destruct (b_owner b =? user_id req) eqn:Hown.
  { apply N.eqb_eq in Hown. right. left. exists b. eauto 10. }
  apply N.eqb_neq in Hown.
  case_bool_decide as Hdup.
  { right. left. exists b. eexists. do 3 (split; [done|]). right. right. left.
    apply findOne_is_Some in Hdup as (rid & r & Hr & Hp%pending_for_spec).
    by exists rid, r. }
  assert (¬ has_pending s (user_id req) (cb_book (body req))) as Hnodup.
  { intros (rid & r & Hr & Hp). apply Hdup, findOne_is_Some.
    exists rid, r. by rewrite pending_for_spec. }
  destruct (cb_type (body req)) eqn:Hty.
  { right. right. exists b. split; [done|split; [done|]].
    intros [?|[?|[?|[? _]]]]; done. }
  destruct (cb_offeredBooks (body req)) as [ob|] eqn:Hob.
  2: { right. left. exists b. eexists. do 3 (split; [done|]). right. right. right.
       split; [done|]. by intros (ob & b' & ? & _). }
  case_bool_decide as Hcheck.
  - right. right. exists b. split; [done|split; [done|]].
    intros [?|[?|[?|[_ Hbad]]]]; try done.
    apply Hbad, owned_available_spec. eauto.
  - right. left. exists b. eexists. do 3 (split; [done|]). right. right. right.
    split; [done|]. intros Hgood%owned_available_spec.
    destruct Hgood as (ob' & [= <-] & ?). done.
Qed.


(** ** The calls as they came (claims C9, C4 and C6) *)

(** *** Who may read a request (claim C9) *)

(** C9, as stated, fails: [abc] is the id of no request, yet GET
    /api/requests/abc is answered 500, not 404, since the string does not
    cast to an ObjectId. *)
Lemma malformed_request_id_is_not_404 :
  cast Malformed = None ∧
  handle (Http.getRequestById (raw_call 2 Malformed tt)) demo_pending
    = (failure 500 "Cast to ObjectId failed", demo_pending) ∧
  code (handle (Http.getRequestById (raw_call 2 Malformed tt)) demo_pending).1 ≠ 404.
Proof. by vm_compute. Qed.

(** C9 (amended): [getRequestById] never changes the store; it answers with
    the request only when the id casts to that of a request whose requester
    or owner is the caller; an id that does not cast is answered 500; an id
    that casts but names no request is answered 404; and, in a reachable
    store, an existing request is shown to its requester and its owner
    while any other caller gets 403. *)
Theorem getRequestById_access s (req : RawReq unit) :
  let '(resp, s') := handle (Http.getRequestById req) s in
  s' = s ∧
  (ok resp = true →
     ∃ id r, cast (in_id req) = Some id ∧ requests s !! id = Some r ∧
             (requester r = in_user req ∨ owner r = in_user req) ∧
             resp = success 200 None (RequestData (Some (populate r s)))) ∧
  (cast (in_id req) = None → code resp = 500) ∧
  (∀ id, cast (in_id req) = Some id → requests s !! id = None →
         resp = failure 404 "Request not found") ∧
  (reachable s → ∀ id r, cast (in_id req) = Some id → requests s !! id = Some r →
     if (requester r =? in_user req) || (owner r =? in_user req)
     then resp = success 200 None (RequestData (Some (populate r s)))
     else resp = failure 403 "Not authorized to view this request").
Proof.
  unfold Http.getRequestById. rewrite on_id_run.
  destruct (cast (in_id req)) as [id|] eqn:Hid.
  2: { split; [done|]. split; [done|]. split; [done|]. split; [done|]. by intros _ id r. }
  rewrite getRequestById_run. cbn [as_req user_id params_id].
  split; [done|].
  destruct (requests s !! id) as [r|] eqn:Hr.
  - split; [|split; [done|split; [by intros id' [= <-]; rewrite Hr|]]].
    + intros Hok. exists id, r. split; [done|]. split; [done|].
      destruct (users s !! requester r); [|done].
      destruct (requester r =? in_user req) eqn:Hq.
      { apply N.eqb_eq in Hq. auto. }
      destruct (users s !! owner r); [|done].
      destruct (owner r =? in_user req) eqn:Ho; [|done].
      apply N.eqb_eq in Ho. auto.
    + intros Hreach id' r' [= <-]. rewrite Hr. intros [= <-].
      destruct (ok_requests s (reachable_ok s Hreach) _ _ Hr)
        as [[u Hu] [o Ho] _ _ _ _].
      rewrite Hu, Ho.
      by destruct (requester r =? in_user req), (owner r =? in_user req).
  - split; [done|]. split; [done|]. split; [done|].
    intros _ id' r' [= <-]. by rewrite Hr.
Qed.

Lemma getRequestById_access_witness :
  (handle (Http.getRequestById (raw_call 3 (Hex 0) tt)) demo_pending).1
    = failure 403 "Not authorized to view this request".
Proof.
  pose proof (getRequestById_access demo_pending (raw_call 3 (Hex 0) tt)) as H.
  destruct (handle (Http.getRequestById (raw_call 3 (Hex 0) tt)) demo_pending) as [resp s'].
  destruct H as (_ & _ & _ & _ & H).
  apply (H demo_pending_reachable 0 demo_request); [reflexivity|].
  vm_compute. reflexivity.
Defined.

(** *** Creating a request (claim C4) *)

Lemma Http_createRequest_run s (req : RawReq Http.RawCreateBody) :
  handle (Http.createRequest req) s =
  match cast (Http.raw_book (in_body req)) with
  | None => (failure 500 "Cast to ObjectId failed", s)
  | Some bid =>
    match books s !! bid with
    | None => (failure 404 "Book not found", s)
    | Some b =>
      if negb (b_isActive b) then (failure 404 "Book not found", s)
      else if negb (bool_decide (b_status b = Available))
      then (failure 400 "Book is not available for requests", s)
      else if b_owner b =? in_user req
      then (failure 400 "You cannot request your own book", s)
      else if bool_decide (is_Some (findOne (pending_for (in_user req) bid) (requests s)))
      then (failure 400 "You already have a pending request for this book", s)
      else match Http.raw_type (in_body req), Http.raw_offeredBooks (in_body req) with
           | free, _ => created (cast_create req bid) b s
           | exchange, None =>
             (failure 400 "Exchange requests must include an offered book", s)
           | exchange, Some raw =>
             match cast raw with
             | None => (failure 500 "Cast to ObjectId failed", s)
             | Some ob =>
               if bool_decide (is_Some (books s !! ob ≫= λ b',
                                 if owned_available (in_user req) b' then Some b' else None))
               then created (cast_create req bid) b s
               else (failure 400 "Offered book is not valid or not available", s)
             end
           end
    end
  end.
Proof.
  unfold handle, Http.createRequest, castObjectId, Book_findById.
  destruct (cast (Http.raw_book (in_body req))) as [bid|]; [|done].
  rewrite run_ret, run_read.
  destruct (books s !! bid) as [b|]; [|done].
  rewrite run_reply_if. destruct (b_isActive b); [|done]. cbn [negb].
  rewrite run_reply_if. destruct (bool_decide (b_status b = Available)); [|done].
  cbn [negb]. rewrite run_reply_if. destruct (b_owner b =? in_user req); [done|].
  rewrite run_read, run_reply_if. destruct (bool_decide (is_Some _)); [done|].
  unfold created, new_request, cast_create. cbn [body cb_type cb_book cb_offeredBooks user_id].
  destruct (Http.raw_type (in_body req)); [done|].
  destruct (Http.raw_offeredBooks (in_body req)) as [raw|]; [|done].
  change (Some raw ≫= cast) with (cast raw).
  rewrite run_assoc. destruct (cast raw) as [ob|]; [|done].
  rewrite run_ret, run_assoc, run_read, run_assoc, run_reply_if.
  by destruct (bool_decide (is_Some _)).
Qed.

(** The ways a call can end once [book] has been cast. *)
Lemma Http_createRequest_cast s (req : RawReq Http.RawCreateBody) bid :
  cast (Http.raw_book (in_body req)) = Some bid →
  let '(resp, s') := handle (Http.createRequest req) s in
  (resp = failure 404 "Book not found" ∧ s' = s ∧
   ¬ ∃ b, target_active s (cast_create req bid) b) ∨
  (∃ b, resp = failure 500 "Cast to ObjectId failed" ∧ s' = s ∧
        target_active s (cast_create req bid) b ∧
        ¬ early_refusal s (cast_create req bid) b ∧ offered_uncastable req) ∨
  (∃ b msg, resp = failure 400 msg ∧ s' = s ∧
            target_active s (cast_create req bid) b ∧
            invalid_state s (cast_create req bid) b ∧
            (early_refusal s (cast_create req bid) b ∨ ¬ offered_uncastable req)) ∨
  (∃ b, (resp, s') = created (cast_create req bid) b s ∧
        target_active s (cast_create req bid) b ∧
        ¬ invalid_state s (cast_create req bid) b).
Proof.
  intros Hbid. rewrite Http_createRequest_run, Hbid.
  unfold target_active, invalid_state, early_refusal, offered_uncastable.
  cbn [cast_create body cb_book cb_type cb_offeredBooks user_id].
  destruct (books s !! bid) as [b|] eqn:Hb.
  2: { left. split; [done|split; [done|]]. by intros (b & ? & _). }
  destruct (b_isActive b) eqn:Hact; cbn [negb].
  2: { left. split; [done|split; [done|]]. intros (b' & [= <-] & ?). congruence. }
  case_bool_decide as Hst; cbn [negb].
  2: { right. right. left. exists b. eexists. do 3 (split; [done|]).
       split; [by left|by left; left]. }
  destruct (b_owner b =? in_user req) eqn:Hown.
  { apply N.eqb_eq in Hown. right. right. left. exists b. eexists.
    do 3 (split; [done|]). split; [right; by left|left; right; by left]. }
  apply N.eqb_neq in Hown.
  case_bool_decide as Hdup.
  { apply findOne_is_Some in Hdup as (rid & r & Hr & Hp%pending_for_spec).
    assert (has_pending s (in_user req) bid) by (by exists rid, r).
    right. right. left. exists b. eexists. do 3 (split; [done|]).
    split; [right; right; by left|left; right; by right]. }
  assert (¬ has_pending s (in_user req) bid) as Hnodup.
  { intros (rid & r & Hr & Hp). apply Hdup, findOne_is_Some.
    exists rid, r. by rewrite pending_for_spec. }
  assert (¬ (b_status b ≠ Available ∨ b_owner b = in_user req
             ∨ has_pending s (in_user req) bid)) as Hearly.
  { intros [?|[?|?]]; done. }
  destruct (Http.raw_type (in_body req)) eqn:Hty.
  { right. right. right. exists b. split; [done|split; [done|]].
    intros [?|[?|[?|[? _]]]]; done. }
  destruct (Http.raw_offeredBooks (in_body req)) as [raw|] eqn:Hraw.
  2: { right. right. left. exists b. eexists. do 3 (split; [done|]). split.
       - right. right. right. split; [done|]. by intros (ob & b' & ? & _).
       - right. by intros (_ & raw & ? & _). }
  change (Some raw ≫= cast) with (cast raw).
  destruct (cast raw) as [ob|] eqn:Hob.
  2: { right. left. exists b. do 4 (split; [done|]). split; [done|]. by exists raw. }
  case_bool_decide as Hcheck.
  - right. right. right. exists b. split; [done|split; [done|]].
    intros [?|[?|[?|[_ Hbad]]]]; try done.
    apply Hbad, owned_available_spec. eauto.
  - right. right. left. exists b. eexists. do 3 (split; [done|]). split.
    + right. right. right. split; [done|]. intros Hgood%owned_available_spec.
      destruct Hgood as (ob' & [= <-] & ?). done.
    + right. intros (_ & raw' & [= <-] & ?). congruence.
Qed.

Lemma Http_createRequest_uncast s (req : RawReq Http.RawCreateBody) :
  cast (Http.raw_book (in_body req)) = None →
  handle (Http.createRequest req) s = (failure 500 "Cast to ObjectId failed", s).
Proof. intros Hbid. by rewrite Http_createRequest_run, Hbid. Qed.

(** C4, as stated, fails twice.  Carol offers book 99, which does not
    exist, for book 10: the offered book is absent, yet the answer is 400
    and not the 404 that reports "not found".  And Carol asks for the book
    [abc], which is the id of no book: the answer is 500, neither "not
    found" nor "invalid state". *)
Lemma absent_books_are_not_404 :
  let offer := raw_call 2 (Hex 0)
                 {| Http.raw_book := Hex 10; Http.raw_type := exchange;
                    Http.raw_offeredBooks := Some (Hex 99) |} in
  let wish := raw_call 2 (Hex 0)
                {| Http.raw_book := Malformed; Http.raw_type := free;
                   Http.raw_offeredBooks := None |} in
  (books demo_init !! 99 = None ∧
   (handle (Http.createRequest offer) demo_init).1
     = failure 400 "Offered book is not valid or not available" ∧
   code (handle (Http.createRequest offer) demo_init).1 ≠ 404) ∧
  (cast Malformed = None ∧
   code (handle (Http.createRequest wish) demo_init).1 = 500).
Proof. by vm_compute. Qed.

(** C4 (amended): [createRequest] answers 404, not found, exactly when the
    book id casts and the target book is absent or inactive.  It answers
    400, invalid state, exactly when the target book is active and is not
    Available, or belongs to the caller, or the caller already has a pending
    request for it, or the kind is exchange and no offered book is supplied
    or the offered id casts to no existing, active, Available book of the
    caller.  It answers 500 exactly when the book id does not cast, or the
    call gets as far as the offered book of an exchange and that id does
    not cast.  A failing call leaves the store as it was.  Otherwise the
    answer is 201 and the store gains one request, pending, with the owner
    copied from the book. *)
Theorem createRequest_outcomes s (req : RawReq Http.RawCreateBody) :
  let '(resp, s') := handle (Http.createRequest req) s in
  let book_id := cast (Http.raw_book (in_body req)) in
  (code resp = 404 ↔
     ∃ bid, book_id = Some bid ∧ ¬ ∃ b, target_active s (cast_create req bid) b) ∧
  (code resp = 400 ↔
     ∃ bid b, book_id = Some bid ∧ target_active s (cast_create req bid) b ∧
              invalid_state s (cast_create req bid) b ∧
              (early_refusal s (cast_create req bid) b ∨ ¬ offered_uncastable req)) ∧
  (code resp = 500 ↔
     book_id = None ∨
     ∃ bid b, book_id = Some bid ∧ target_active s (cast_create req bid) b ∧
              ¬ early_refusal s (cast_create req bid) b ∧ offered_uncastable req) ∧
  (ok resp = false → s' = s ∧ (code resp = 404 ∨ code resp = 400 ∨ code resp = 500)) ∧
  (code resp = 201 ↔
     ∃ bid b, book_id = Some bid ∧ target_active s (cast_create req bid) b ∧
              ¬ invalid_state s (cast_create req bid) b) ∧
  (ok resp = true →
     code resp = 201 ∧
     ∃ bid b rid r,
       book_id = Some bid ∧
       books s !! bid = Some b ∧
       requests s !! rid = None ∧
       requests s' = <[rid := r]> (requests s) ∧
       books s' = books s ∧ users s' = users s ∧
       status r = pending ∧ owner r = b_owner b ∧
       requester r = in_user req ∧ book r = bid ∧
       type r = Http.raw_type (in_body req) ∧
       resp = success 201 (Some "Request created successfully")
                (RequestData (Some (populate r s')))).
Proof.
  cbv zeta.
  destruct (cast (Http.raw_book (in_body req))) as [bid|] eqn:Hbid.
  2: { rewrite Http_createRequest_uncast by done.
       split; [|split; [|split; [|split; [|split]]]]; try done.
       - split; [discriminate|]. by intros (bid & ? & _).
       - split; [discriminate|]. by intros (bid & b & ? & _).
       - split; [by left|done].
       - cbn. auto.
       - split; [discriminate|]. by intros (bid & b & ? & _). }
  pose proof (Http_createRequest_cast s req bid Hbid) as Hcases.
  destruct (handle (Http.createRequest req) s) as [resp s'].
  assert (∀ b b', target_active s (cast_create req bid) b →
                  target_active s (cast_create req bid) b' → b = b') as Huniq.
  { intros b b' [H1 _] [H2 _]. congruence. }
  assert (∀ b, offered_uncastable req → ¬ early_refusal s (cast_create req bid) b →
               invalid_state s (cast_create req bid) b) as Hunc.
  { intros b (Hty & raw & Hraw & Hnone) _. right. right. right. split; [done|].
    cbn. rewrite Hraw. cbn. rewrite Hnone. by intros (ob & b' & ? & _). }
  destruct Hcases as [(-> & -> & Hno)|[(b & -> & -> & Hact & Hearly & Hunc')
    |[(b & msg & -> & -> & Hact & Hbad & Hwhy)|(b & Hnew & Hact & Hgood)]]].
  - split; [|split; [|split; [|split; [|split]]]]; try done.
    + split; [by exists bid|done].
    + split; [discriminate|]. intros (bid' & b & [= <-] & Hb & _). destruct Hno. eauto.
    + split; [discriminate|]. intros [?|(bid' & b & [= <-] & Hb & _)]; [done|].
      destruct Hno. eauto.
    + cbn. auto.
    + split; [discriminate|]. intros (bid' & b & [= <-] & Hb & _). destruct Hno. eauto.
  - split; [|split; [|split; [|split; [|split]]]]; try done.
    + split; [discriminate|]. intros (bid' & [= <-] & Hno). destruct Hno. eauto.
    + split; [discriminate|]. intros (bid' & b' & [= <-] & Hb' & _ & [He|Hn]).
      * by rewrite <- (Huniq _ _ Hact Hb') in He.
      * done.
    + split; [|done]. intros _. right. by exists bid, b.
    + cbn. auto.
    + split; [discriminate|]. intros (bid' & b' & [= <-] & Hb' & Hgood).
      rewrite <- (Huniq _ _ Hact Hb') in Hgood. destruct Hgood. by apply Hunc.
  - split; [|split; [|split; [|split; [|split]]]]; try done.
    + split; [discriminate|]. intros (bid' & [= <-] & Hno). destruct Hno. eauto.
    + split; [|done]. intros _. by exists bid, b.
    + split; [discriminate|]. intros [?|(bid' & b' & [= <-] & Hb' & He & Hu)]; [done|].
      rewrite <- (Huniq _ _ Hact Hb') in He. by destruct Hwhy.
    + cbn. auto.
    + split; [discriminate|]. intros (bid' & b' & [= <-] & Hb' & Hgood).
      by rewrite <- (Huniq _ _ Hact Hb') in Hgood.
  - unfold created in Hnew. injection Hnew as -> ->.
    split; [|split; [|split; [|split; [|split]]]]; try done.
    + split; [discriminate|]. intros (bid' & [= <-] & Hno). destruct Hno. eauto.
    + split; [discriminate|]. intros (bid' & b' & [= <-] & Hb' & Hbad & _).
      by rewrite <- (Huniq _ _ Hact Hb') in Hbad.
    + split; [discriminate|]. intros [?|(bid' & b' & [= <-] & Hb' & He & Hu)]; [done|].
      rewrite <- (Huniq _ _ Hact Hb') in He. destruct Hgood. by apply Hunc.
    + split; [|done]. intros _. by exists bid, b.
    + intros _. split; [done|].
      exists bid, b, (fresh (dom (requests s))), (new_request (cast_create req bid) b).
      destruct Hact as [Hb _]. split; [done|]. split; [done|].
      split; [apply fresh_request_id|]. done.
Qed.

Lemma createRequest_outcomes_witness :
  let req := raw_call 2 (Hex 0)
               {| Http.raw_book := Hex 10; Http.raw_type := exchange;
                  Http.raw_offeredBooks := Some (Spelled 20) |} in
  code (handle (Http.createRequest req) demo_init).1 = 201 ∧
  ∃ bid b rid r, bid = 10 ∧ books demo_init !! bid = Some b ∧
                 requests demo_init !! rid = None ∧
                 requests (handle (Http.createRequest req) demo_init).2
                   = <[rid := r]> (requests demo_init) ∧
                 status r = pending ∧ owner r = b_owner b.
Proof.
  cbv zeta.
  pose proof (createRequest_outcomes demo_init
                (raw_call 2 (Hex 0)
                   {| Http.raw_book := Hex 10; Http.raw_type := exchange;
                      Http.raw_offeredBooks := Some (Spelled 20) |})) as H.
  destruct (handle (Http.createRequest _) demo_init) as [resp s'] eqn:Hrun.
  cbv zeta in H. destruct H as (_ & _ & _ & _ & _ & H).
  assert (ok resp = true) as Hok.
  { change resp with (resp, s').1. rewrite <- Hrun. vm_compute. reflexivity. }
  destruct (H Hok)
    as (Hcode & bid & b & rid & r & Hbid & Hb & Hrid & Hreqs & _ & _ & Hst & Hown & _).
  split; [exact Hcode|]. exists bid, b, rid, r.
  split; [by injection Hbid|]. auto.
Defined.

(** *** A rating sent as a string (claim C6) *)

Section javascript.
Variable Number_toString : Q → string.
Variable ToNumber : string → option Q.

(** C6, on the code: a rating sent as the string ["5"] passes
    [Joi.number()] and reaches [updateRating] as a string, where [+]
    appends it to the text of average times count instead of adding it.
    When the number [total] that the division reads back from that text
    leaves the new average within 0..5, the call is answered 200 and the
    stored average is [total / (count + 1)]; it is the average the formula
    gives only if [total] happens to equal average times count plus the
    rating. *)
Theorem string_rating_is_appended s (req : RawReq Http.RawRateBody) id r sd u text q total :
  cast (in_id req) = Some id →
  requests s !! id = Some r →
  status r = completed →
  side_of r (in_user req) = Some sd →
  truthy (side_rating sd (rating r)) = false →
  users s !! counterparty sd r = Some u →
  Http.raw_rating (in_body req) = Http.AsText text q →
  Http.rateRequestSchema (in_body req) = None →
  ToNumber (Number_toString (average (u_rating u) * Qnum_of (count (u_rating u)))%Q ++ text)
    = Some total →
  between 0 5 (total / Qnum_of (count (u_rating u) + 1)) = true →
  let '(resp, s') := handle (Http.post_rate Number_toString ToNumber req) s in
  let claimed := ((average (u_rating u) * Qnum_of (count (u_rating u)) + q)
                  / Qnum_of (count (u_rating u) + 1))%Q in
  ok resp = true ∧ code resp = 200 ∧
  ∃ u', users s' !! counterparty sd r = Some u' ∧
        count (u_rating u') = count (u_rating u) + 1 ∧
        average (u_rating u') = (total / Qnum_of (count (u_rating u) + 1))%Q ∧
        (¬ (total == average (u_rating u) * Qnum_of (count (u_rating u)) + q)%Q →
         ¬ (average (u_rating u') == claimed)%Q).
Proof.
  intros Hid Hr Hst Hsd Hnew Hu Htext Hsch Htotal Hrange.
  rewrite Http_post_rate_run, Hsch, (Http_rateRequest_run _ _ s req id r Hid Hr).
  cbv zeta. rewrite bool_decide_eq_true_2, Hsd, Hnew, Hu by done. cbn [negb].
  unfold Http.updateRating. rewrite Htext, Htotal. cbn [fmap option_fmap option_map].
  cbn [u_rating average]. rewrite Hrange.
  unfold Http.rateRequestSchema in Hsch. rewrite Htext in Hsch. cbn [Http.value_of] in *.
  apply rateRequestSchema_passes in Hsch as (_ & _ & Hvalid).
  cbn [rb_rating rb_review] in Hvalid. rewrite Hvalid.
  split; [done|]. split; [done|].
  eexists. split; [cbn; by rewrite lookup_insert_eq|].
  split; [done|]. split; [done|].
  cbn [u_rating average]. intros Hne Heq. apply Hne.
  pose proof (Qnum_of_nonneg (count (u_rating u))) as Hn.
  assert (0 < Qnum_of (count (u_rating u) + 1))%Q as Hpos
    by (rewrite Qnum_of_succ; lra).
  set (n := Qnum_of (count (u_rating u) + 1)) in *.
  set (sum := (average (u_rating u) * Qnum_of (count (u_rating u)) + q)%Q) in *.
  transitivity (total / n * n)%Q; [field; lra|].
  rewrite Heq. field. lra.
Qed.

End javascript.

(** Alice has average 4.5 from one rating; Carol rates her ["5"].  The
    product 4.5 becomes the text ["4.5"], the rating is appended, ["4.55"]
    is read back as 4.55 and halved: the call is answered 200 and Alice's
    average is 2.275, where the formula gives (4.5 + 5) / 2 = 4.75. *)
Lemma string_rating_is_appended_witness :
  let '(resp, s') :=
    handle (Http.post_rate demo_toString demo_toNumber demo_text_call) demo_known in
  ok resp = true ∧ code resp = 200 ∧
  ∃ u', users s' !! 1 = Some u' ∧ count (u_rating u') = 2 ∧
        (average (u_rating u') == 91 # 40)%Q ∧
        ¬ (average (u_rating u') == 19 # 4)%Q.
Proof.
  pose proof (string_rating_is_appended demo_toString demo_toNumber demo_known
                demo_text_call 0
                (request_write completed 1700000000000 (set_status accepted demo_request))
                AsRequester alice_rated "5" 5 (91 # 20)
                ltac:(reflexivity) ltac:(vm_compute; reflexivity) ltac:(reflexivity)
                ltac:(reflexivity) ltac:(reflexivity) ltac:(vm_compute; reflexivity)
                ltac:(reflexivity) ltac:(vm_compute; reflexivity)
                ltac:(vm_compute; reflexivity) ltac:(vm_compute; reflexivity)) as H.
  destruct (handle (Http.post_rate _ _ demo_text_call) demo_known) as [resp s'].
  cbv zeta in H. destruct H as (Hok & Hcode & u' & Hu' & Hcount & Havg & Hdiff).
  split; [exact Hok|]. split; [exact Hcode|].
  exists u'. split; [exact Hu'|]. split; [exact Hcount|]. split.
  - rewrite Havg. vm_compute. reflexivity.
  - intros Heq. apply Hdiff.
    + intros Hsum. vm_compute in Hsum. discriminate Hsum.
    + rewrite Heq. vm_compute. reflexivity.
Defined.


(** * More of the code *)

(** ** [deleteRequest] *)

(** X1: [deleteRequest] goes through exactly when the id casts to that of
    a request whose requester is the caller and whose status is cancelled
    or rejected; then that request is removed and nothing else changes.
    Otherwise the store is untouched and the answer is 500 for an id that
    does not cast, 404 for one that names no request, 403 for any other
    caller (whatever the status) and 400 for the requester. *)
Theorem deleteRequest_outcomes s (req : RawReq unit) :
  let '(resp, s') := handle (Http.deleteRequest req) s in
  (ok resp = true ↔
     ∃ id r, cast (in_id req) = Some id ∧ requests s !! id = Some r ∧
             requester r = in_user req ∧
             (status r = cancelled ∨ status r = rejected)) ∧
  (ok resp = true →
     ∃ id, cast (in_id req) = Some id ∧
           requests s' = delete id (requests s) ∧
           books s' = books s ∧ users s' = users s) ∧
  (ok resp = false →
     s' = s ∧
     match cast (in_id req) with
     | None => code resp = 500
     | Some id =>
       match requests s !! id with
       | None => code resp = 404
       | Some r => if decide (requester r = in_user req)
                   then code resp = 400 else code resp = 403
       end
     end).
Proof.
  unfold Http.deleteRequest. rewrite on_id_run.
  destruct (cast (in_id req)) as [id|] eqn:Hid.
  2: { split; [|done]. split; [done|]. by intros (id & r & ? & _). }
  rewrite deleteRequest_run. cbn [as_req params_id user_id].
  destruct (requests s !! id) as [r|] eqn:Hr.
  2: { split; [|done]. split; [done|]. intros (id' & r & [= <-] & ? & _). congruence. }
  destruct (requester r =? in_user req) eqn:Hq; cbn [negb].
  - apply N.eqb_eq in Hq. destruct (decide (status r = cancelled ∨ _)) as [Hst|Hst].
    + split; [|split; [|done]].
      * split; [|done]. intros _. by exists id, r.
      * intros _. by exists id.
    + split; [|split; [done|]].
      * split; [done|]. intros (id' & r' & [= <-] & Hr' & _ & ?).
        rewrite Hr in Hr'. by injection Hr' as <-.
      * intros _. split; [done|]. by rewrite decide_True.
  - apply N.eqb_neq in Hq. split; [|split; [done|]].
    + split; [done|]. intros (id' & r' & [= <-] & Hr' & ? & _).
      rewrite Hr in Hr'. by injection Hr' as <-.
    + intros _. split; [done|]. by rewrite decide_False.
Qed.

(** ** What each handler does to the collections *)

Lemma createRequest_effect s req :
  (handle (createRequest req) s).2 = s ∨
  ∃ b, target_active s req b ∧ ¬ invalid_state s req b ∧
       (handle (createRequest req) s).2
         = with_requests (insert (fresh (dom (requests s))) (new_request req b)) s.
Proof.
  pose proof (createRequest_cases s req) as Hcases.
  destruct (handle (createRequest req) s) as [resp s'].
  destruct Hcases as [(_ & -> & _)|[(b & msg & _ & -> & _)|(b & Hnew & Hact & Hgood)]];
    [by left..|].
  right. exists b. unfold created in Hnew. by injection Hnew as _ ->.
Qed.

Lemma updateRequest_effect s req :
  (handle (updateRequest req) s).2 = s ∨
  ∃ r t, requests s !! params_id req = Some r ∧
         ub_status (body req) = Some (status_name t) ∧
         allowed_actor t r (user_id req) = true ∧
         edge (status r) t = true ∧
         (handle (updateRequest req) s).2 = committed t r req s.
Proof.
  destruct (handle (updateRequest req) s) as [resp s'] eqn:Hrun.
  destruct (ok resp) eqn:Hok.
  - right. destruct (updateRequest_success _ _ _ _ Hrun Hok)
      as (r & t & Hr & Ht & Ha & He & _ & ->). by exists r, t.
  - left. by destruct (updateRequest_failure _ _ _ _ Hrun Hok) as [-> _].
Qed.

Lemma rateRequest_effect s req :
  let s' := (handle (rateRequest req) s).2 in
  books s' = books s ∧
  (requests s' = requests s ∨
   ∃ rt, requests s' = alter (set_rating rt) (params_id req) (requests s)) ∧
  (users s' = users s ∨
   ∃ id u u', users s !! id = Some u ∧ users s' = <[id := u']> (users s) ∧
              u_isActive u' = u_isActive u).
Proof.
  destruct (requests s !! params_id req) as [r|] eqn:Hr.
  2: { rewrite rateRequest_missing by done. cbn. auto. }
  rewrite (rateRequest_run s req r Hr). cbv zeta.
  destruct (negb _); [cbn; by auto|].
  destruct (side_of r (user_id req)) as [sd|]; [|cbn; by auto].
  destruct (truthy _); [cbn; by auto|].
  destruct (users s !! counterparty sd r) as [u|] eqn:Hu; [|cbn; by auto].
  destruct (between 0 5 _); [|cbn; by auto].
  destruct (rating_valid _ _); cbn.
  - split; [done|]. split; [right; by eexists|]. right.
    exists (counterparty sd r), u. eexists. split; [done|]. split; [reflexivity|done].
  - split; [done|]. split; [by left|]. right.
    exists (counterparty sd r), u. eexists. split; [done|]. split; [reflexivity|done].
Qed.

Lemma deleteRequest_effect s req :
  (handle (deleteRequest req) s).2 = s ∨
  ∃ r, requests s !! params_id req = Some r ∧
       (status r = cancelled ∨ status r = rejected) ∧
       (handle (deleteRequest req) s).2 = with_requests (delete (params_id req)) s.
Proof.
  rewrite deleteRequest_run.
  destruct (requests s !! params_id req) as [r|]; [|by left].
  destruct (negb _); [by left|]. destruct (decide _); [|by left].
  right. by exists r.
Qed.

Lemma deleteBook_effect s req :
  (handle (deleteBook req) s).2 = s ∨
  ∃ b, books s !! params_id req = Some b ∧
       (handle (deleteBook req) s).2
         = with_books (insert (params_id req)
                         (set_b_status NotAvailable (set_b_isActive false b))) s.
Proof.
  rewrite deleteBook_run.
  destruct (books s !! params_id req) as [b|]; [|by left].
  destruct (negb _); [by left|]. destruct (bool_decide _); [by left|].
  right. by exists b.
Qed.

Lemma put_request_effect s req :
  (handle (put_request req) s).2 = s ∨
  ∃ r t, requests s !! params_id req = Some r ∧
         (t = accepted ∨ t = completed) ∧
         edge (status r) t = true ∧
         (handle (put_request req) s).2 = committed t r req s.
Proof.
  rewrite put_request_run.
  destruct (updateRequestSchema (body req)) as [msg|] eqn:Hsch; [by left|].
  destruct (updateRequest_effect s req) as [?|(r & t & Hr & Ht & _ & He & Hs')];
    [by left|].
  right. exists r, t. split; [done|]. split; [|done].
  unfold updateRequestSchema in Hsch. rewrite Ht in Hsch.
  destruct t; try discriminate Hsch; auto.
Qed.

Lemma post_rate_effect s req :
  let s' := (handle (post_rate req) s).2 in
  books s' = books s ∧
  (requests s' = requests s ∨
   ∃ rt, requests s' = alter (set_rating rt) (params_id req) (requests s)).
Proof.
  rewrite post_rate_run. destruct (rateRequestSchema (body req)); [cbn; auto|].
  destruct (rateRequest_effect s req) as (? & ? & _). done.
Qed.

Lemma Http_post_rate_effect ts tn s (req : RawReq Http.RawRateBody) :
  let s' := (handle (Http.post_rate ts tn req) s).2 in
  books s' = books s ∧
  (requests s' = requests s ∨
   ∃ id rt, requests s' = alter (set_rating rt) id (requests s)).
Proof.
  rewrite Http_post_rate_run.
  destruct (Http.rateRequestSchema (in_body req)); [cbn; auto|].
  destruct (Http_rateRequest_effect ts tn s req) as (? & ? & _). done.
Qed.

(** ** The request routes never cancel, reject or delete *)

(** X2: through the routes of [requestRoutes.js] alone a request is only
    ever pending, accepted or completed (PUT admits no other status), so in
    every store reached that way DELETE /:id removes nothing: it fails and
    leaves the store as it is, whatever string the id is. *)
Theorem routes_never_remove_a_request s :
  route_reachable s →
  (∀ id r, requests s !! id = Some r →
           status r = pending ∨ status r = accepted ∨ status r = completed) ∧
  (∀ req, ok (handle (deleteRequest req) s).1 = false ∧
          (handle (deleteRequest req) s).2 = s) ∧
  (∀ req, ok (handle (Http.deleteRequest req) s).1 = false ∧
          (handle (Http.deleteRequest req) s).2 = s).
Proof.
  intros Hreach.
  assert (∀ id r, requests s !! id = Some r →
                  status r = pending ∨ status r = accepted ∨ status r = completed) as Hinv.
  { induction Hreach as [s Hempty|s s' _ IH Hstep].
    { intros id r. by rewrite Hempty, lookup_empty. }
    destruct Hstep as [req|req|req|req|req|ts tn req].
    - destruct (createRequest_effect s req) as [->|(b & _ & _ & ->)]; [done|].
      intros id r. cbn. intros [[_ <-]|[_ Hr]]%lookup_insert_Some; [by left|eauto].
    - by rewrite getRequestById_run.
    - destruct (put_request_effect s req) as [->|(r0 & t & Hr0 & Ht & _ & ->)]; [done|].
      intros id r. cbn. intros [[_ (r1 & Hr1 & ->)]|[_ Hr]]%lookup_alter_Some; [|eauto].
      rewrite request_write_status. destruct Ht as [-> | ->]; auto.
    - destruct (deleteRequest_effect s req) as [->|(r0 & _ & _ & ->)]; [done|].
      intros id r. cbn. intros [_ Hr]%lookup_delete_Some. eauto.
    - destruct (post_rate_effect s req) as (_ & [Hsame|[rt Halt]]).
      + by rewrite Hsame.
      + rewrite Halt. intros id r.
        intros [[_ (r1 & Hr1 & ->)]|[_ Hr]]%lookup_alter_Some;
          [exact (IH _ _ Hr1)|eauto].
    - destruct (Http_post_rate_effect ts tn s req) as (_ & [Hsame|(rid & rt & Halt)]).
      + by rewrite Hsame.
      + rewrite Halt. intros id r.
        intros [[_ (r1 & Hr1 & ->)]|[_ Hr]]%lookup_alter_Some;
          [exact (IH _ _ Hr1)|eauto]. }
  assert (∀ req, ok (handle (deleteRequest req) s).1 = false ∧
                 (handle (deleteRequest req) s).2 = s) as Hdel.
  { intros req. rewrite deleteRequest_run.
    destruct (requests s !! params_id req) as [r|] eqn:Hr; [|done].
    destruct (negb _); [done|]. destruct (decide _) as [Hst|_]; [|done].
    exfalso. destruct (Hinv _ _ Hr) as [?|[?|?]], Hst; congruence. }
  split; [exact Hinv|]. split; [exact Hdel|].
  intros req. unfold Http.deleteRequest. rewrite on_id_run.
  destruct (cast (in_id req)) as [id|]; [apply Hdel|done].
Qed.

Lemma routes_never_remove_a_request_witness :
  ok (handle (deleteRequest (call 2 0 tt)) demo_pending).1 = false ∧
  (handle (deleteRequest (call 2 0 tt)) demo_pending).2 = demo_pending.
Proof.
  apply (proj1 (proj2 (routes_never_remove_a_request demo_pending
                  (route_next demo_init _ (route_start demo_init eq_refl)
                     (via_create demo_init
                        (call 2 0 {| cb_book := 10; cb_type := exchange;
                                     cb_offeredBooks := Some 20 |})))))).
Defined.

(** ** Cancelling, then deleting *)

(** X3: once the requester has cancelled a pending or accepted request
    through the handler [updateRequest] (the route's schema does not admit
    cancelled), [deleteRequest] for it goes through for the requester,
    removing the request, and is answered 403 for everybody else. *)
Theorem cancel_then_delete s req r :
  requests s !! params_id req = Some r →
  status r = pending ∨ status r = accepted →
  requester r = user_id req →
  ub_status (body req) = Some "cancelled" →
  let s1 := (handle (updateRequest req) s).2 in
  ∀ del : Req unit,
    params_id del = params_id req →
    if decide (user_id del = requester r) then
      ok (handle (deleteRequest del) s1).1 = true ∧
      requests (handle (deleteRequest del) s1).2 = delete (params_id req) (requests s)
    else
      handle (deleteRequest del) s1
        = (failure 403 "Not authorized to delete this request", s1).
Proof.
  intros Hr Hst Hq Hv s1 del Hid.
  assert (s1 = committed cancelled r req s) as Hs1.
  { unfold s1. rewrite (updateRequest_run s req r Hr), Hv.
    change (Some "cancelled" ≫= status_of_name) with (Some cancelled).
    cbn [allowed_actor]. rewrite Hq, N.eqb_refl. cbn [negb].
    by destruct Hst as [-> | ->]. }
  assert (requests s1 !! params_id del = Some (request_write cancelled (now req) r)) as Hnew.
  { rewrite Hs1, Hid. cbn. by rewrite lookup_alter_eq, Hr. }
  rewrite deleteRequest_run, Hnew.
  destruct (request_write_fields cancelled (now req) r) as (-> & _).
  rewrite request_write_status.
  case_decide as Hwho.
  - rewrite Hwho, N.eqb_refl. cbn [negb]. rewrite decide_True by auto.
    split; [done|]. rewrite Hs1, Hid. cbn.
    apply map_eq. intros i. destruct (decide (i = params_id req)) as [->|Hne].
    + by rewrite !lookup_delete_eq.
    + by rewrite !lookup_delete_ne, lookup_alter_ne.
  - apply N.eqb_neq in Hwho. rewrite N.eqb_sym in Hwho. by rewrite Hwho.
Qed.

Lemma cancel_then_delete_witness :
  ok (handle (deleteRequest (call 2 0 tt))
        (handle (updateRequest (call 2 0 (ask "cancelled"))) demo_pending).2).1 = true ∧
  requests (handle (deleteRequest (call 2 0 tt))
              (handle (updateRequest (call 2 0 (ask "cancelled"))) demo_pending).2).2
    = delete 0 (requests demo_pending).
Proof.
  apply (cancel_then_delete demo_pending (call 2 0 (ask "cancelled")) demo_request
           ltac:(vm_compute; reflexivity) ltac:(left; reflexivity)
           ltac:(reflexivity) ltac:(reflexivity) (call 2 0 tt) ltac:(reflexivity)).
Defined.

(** ** The methods of the request model agree with the handlers *)

(** X4: [canBeCancelled] is true exactly when the requester's call of
    [updateRequest] asking for cancelled goes through, and [canBeRated] is
    false exactly when [rateRequest] answers that only completed requests
    can be rated. *)
Theorem model_methods_agree s r (req : Req UpdateBody) (rate : Req RateBody) :
  requests s !! params_id req = Some r →
  requests s !! params_id rate = Some r →
  requester r = user_id req →
  ub_status (body req) = Some "cancelled" →
  ok (handle (updateRequest req) s).1 = canBeCancelled r ∧
  (canBeRated r = false ↔
   handle (rateRequest rate) s = (failure 400 "Can only rate completed requests", s)).
Proof.
  intros Hr Hr' Hq Hv. split.
  - rewrite (updateRequest_run s req r Hr), Hv.
    change (Some "cancelled" ≫= status_of_name) with (Some cancelled).
    cbn [allowed_actor]. rewrite Hq, N.eqb_refl. cbn [negb].
    unfold canBeCancelled. by destruct (status r).
  - rewrite (rateRequest_run s rate r Hr'). cbv zeta. unfold canBeRated.
    destruct (status r); cbn; split; try done;
      destruct (side_of _ _); try discriminate;
      destruct (truthy _); try discriminate;
      destruct (users s !! _); try discriminate;
      destruct (between 0 5 _); try discriminate;
      destruct (rating_valid _ _); discriminate.
Qed.

Lemma model_methods_agree_witness :
  ok (handle (updateRequest (call 2 0 (ask "cancelled"))) demo_completed).1
    = canBeCancelled (request_write completed 1700000000000 (set_status accepted demo_request)) ∧
  (canBeRated (request_write completed 1700000000000 (set_status accepted demo_request)) = false ↔
   handle (rateRequest demo_rate_call) demo_completed
     = (failure 400 "Can only rate completed requests", demo_completed)).
Proof.
  apply (model_methods_agree demo_completed _ (call 2 0 (ask "cancelled")) demo_rate_call).
  - vm_compute. reflexivity.
  - vm_compute. reflexivity.
  - reflexivity.
  - reflexivity.
Defined.

(** ** A PUT without a status *)

(** X5: [updateRequestSchema] does not require [status], so a PUT with an
    empty body reaches the handler; for an existing request it is answered
    with the invalid-transition error naming "undefined" and changes
    nothing, whoever calls.  A body with [meetingDetails] never gets past
    the schema. *)
Theorem put_without_status s req r :
  requests s !! params_id req = Some r →
  ub_status (body req) = None →
  match ub_meetingDetails (body req) with
  | None =>
    handle (put_request req) s
      = (failure 400 ("Cannot change status from " ++ status_name (status r)
                      ++ " to undefined"), s)
  | Some _ =>
    handle (put_request req) s
      = (failure 400 (label "meetingDetails" ++ " is not allowed"), s)
  end.
Proof.
  intros Hr Hv. rewrite put_request_run. unfold updateRequestSchema. rewrite Hv.
  destruct (ub_meetingDetails (body req)) as [m|]; [done|]. cbn.
  by rewrite (updateRequest_run s req r Hr), Hv.
Qed.

Lemma put_without_status_witness :
  handle (put_request (call 3 0 {| ub_status := None; ub_meetingDetails := None |}))
    demo_pending
  = (failure 400 "Cannot change status from pending to undefined", demo_pending).
Proof.
  apply (put_without_status demo_pending
           (call 3 0 {| ub_status := None; ub_meetingDetails := None |}) demo_request
           ltac:(vm_compute; reflexivity) ltac:(reflexivity)).
Defined.

(** ** More on rating *)

(** X6: on the route POST /:id/rate a rating is all or nothing: unless the
    call succeeds the store is unchanged, and when it succeeds both the
    counterparty's average and the request's rating have been written. *)
Theorem post_rate_all_or_nothing s req :
  let '(resp, s') := handle (post_rate req) s in
  (ok resp = false ∧ s' = s) ∨
  (ok resp = true ∧ code resp = 200 ∧
   ∃ r sd u,
     requests s !! params_id req = Some r ∧
     side_of r (user_id req) = Some sd ∧
     users s !! counterparty sd r = Some u ∧
     s' = rated sd (rb_rating (body req)) (rb_review (body req)) r u (params_id req) s).
Proof.
  rewrite post_rate_run.
  destruct (rateRequestSchema (body req)) as [msg|] eqn:Hsch; [by left|].
  apply rateRequestSchema_passes in Hsch as (_ & _ & Hvalid).
  destruct (requests s !! params_id req) as [r|] eqn:Hr.
  2: { rewrite rateRequest_missing by done. by left. }
  rewrite (rateRequest_run s req r Hr). cbv zeta. rewrite Hvalid.
  destruct (negb _); [by left|].
  destruct (side_of r (user_id req)) as [sd|] eqn:Hsd; [|by left].
  destruct (truthy _); [by left|].
  destruct (users s !! counterparty sd r) as [u|] eqn:Hu; [|by left].
  destruct (between 0 5 _); [|by left].
  right. split; [done|]. split; [done|]. by exists r, sd, u.
Qed.

(** X7: the handler alone is not all or nothing.  Called without the
    route's schema with a rating outside 1..5 that still leaves the
    counterparty's average within 0..5, [rateRequest] answers 500 after the
    counterparty's rating has been saved: the user changes, the request does
    not, and the same side can rate again. *)
Theorem rateRequest_partial_write s req r sd u :
  requests s !! params_id req = Some r →
  status r = completed →
  side_of r (user_id req) = Some sd →
  truthy (side_rating sd (rating r)) = false →
  users s !! counterparty sd r = Some u →
  between 1 5 (rb_rating (body req)) = false →
  between 0 5 (average (u_rating (updateRating (rb_rating (body req)) u))) = true →
  let '(resp, s') := handle (rateRequest req) s in
  code resp = 500 ∧
  users s' !! counterparty sd r = Some (updateRating (rb_rating (body req)) u) ∧
  requests s' = requests s ∧ books s' = books s.
Proof.
  intros Hr Hst Hsd Hnew Hu Hbad Havg.
  rewrite (rateRequest_run s req r Hr). cbv zeta.
  rewrite bool_decide_eq_true_2, Hsd, Hnew, Hu, Havg by done. cbn [negb].
  unfold rating_valid. cbn [from_option]. rewrite Hbad. cbn.
  by rewrite lookup_insert_eq.
Qed.

Lemma rateRequest_partial_write_witness :
  let req := call 2 0 {| rb_rating := (1 # 2)%Q; rb_review := None |} in
  code (handle (rateRequest req) demo_completed).1 = 500 ∧
  users (handle (rateRequest req) demo_completed).2 !! 1
    = Some (updateRating (1 # 2) (a_user "alice")) ∧
  requests (handle (rateRequest req) demo_completed).2 = requests demo_completed ∧
  books (handle (rateRequest req) demo_completed).2 = books demo_completed.
Proof.
  pose proof (rateRequest_partial_write demo_completed
                (call 2 0 {| rb_rating := (1 # 2)%Q; rb_review := None |})
                (request_write completed 1700000000000 (set_status accepted demo_request))
                AsRequester (a_user "alice")
                ltac:(vm_compute; reflexivity) ltac:(reflexivity) ltac:(reflexivity)
                ltac:(reflexivity) ltac:(vm_compute; reflexivity)
                ltac:(reflexivity) ltac:(reflexivity)) as H.
  cbv zeta.
  destruct (handle (rateRequest _) demo_completed) as [resp s']. exact H.
Defined.

(** X8: for a body whose rating is a JSON number, and when every stored
    average lies between 0 and 5, as the validators of the user schema
    ensure, a call of POST /:id/rate goes through exactly when the body
    passes [rateRequestSchema], the id casts to that of a completed request,
    the caller is its requester or its owner, that side has not rated yet
    and the counterparty's user document exists. *)
Theorem post_rate_succeeds_exactly_when ts tn s (req : RawReq Http.RawRateBody) q :
  Http.raw_rating (in_body req) = Http.AsNumber q →
  (∀ id u, users s !! id = Some u → between 0 5 (average (u_rating u)) = true) →
  ok (handle (Http.post_rate ts tn req) s).1 = true ↔
  Http.rateRequestSchema (in_body req) = None ∧
  ∃ id r sd, cast (in_id req) = Some id ∧
             requests s !! id = Some r ∧ status r = completed ∧
             side_of r (in_user req) = Some sd ∧
             truthy (side_rating sd (rating r)) = false ∧
             is_Some (users s !! counterparty sd r).
Proof.
  intros Hq Hrange.
  assert (Http.rateRequestSchema (in_body req)
          = rateRequestSchema {| rb_rating := q;
                                 rb_review := Http.raw_review (in_body req) |}) as Hschema.
  { unfold Http.rateRequestSchema. by rewrite Hq. }
  destruct (cast (in_id req)) as [id|] eqn:Hid.
  2: { rewrite Http_post_rate_run, Http_rateRequest_missing, Hid.
       split; [by destruct (Http.rateRequestSchema _)|].
       by intros (_ & id & r & sd & ? & _). }
  rewrite (Http_post_rate_number ts tn s req id q Hid Hq), Hschema.
  set (typed := {| user_id := in_user req; params_id := id;
                   body := {| rb_rating := q;
                              rb_review := Http.raw_review (in_body req) |};
                   now := in_now req |}).
  change (rateRequestSchema _) with (rateRequestSchema (body typed)).
  split.
  - rewrite post_rate_run.
    destruct (rateRequestSchema (body typed)) as [msg|] eqn:Hsch; [done|].
    destruct (requests s !! id) as [r|] eqn:Hr.
    2: { by rewrite rateRequest_missing. }
    rewrite (rateRequest_run s typed r Hr). cbv zeta.
    case_bool_decide as Hst; [|done]. cbn [negb].
    change (user_id typed) with (in_user req).
    destruct (side_of r (in_user req)) as [sd|] eqn:Hsd; [|done].
    destruct (truthy _) eqn:Hnew; [done|].
    destruct (users s !! counterparty sd r) as [u|] eqn:Hu; [|done].
    intros _. split; [done|]. exists id, r, sd. by rewrite Hu.
  - intros (Hsch & id' & r & sd & [= <-] & Hr & Hst & Hsd & Hnew & [u Hu]).
    eapply (rating_goes_through s typed r sd u); eauto.
Qed.

Lemma post_rate_succeeds_exactly_when_witness :
  let req := raw_call 2 (Hex 0)
               {| Http.raw_rating := Http.AsNumber 4;
                  Http.raw_review := Some "kind and punctual" |} in
  ok (handle (Http.post_rate demo_toString demo_toNumber req) demo_completed).1 = true ↔
  Http.rateRequestSchema (in_body req) = None ∧
  ∃ id r sd, cast (in_id req) = Some id ∧
             requests demo_completed !! id = Some r ∧ status r = completed ∧
             side_of r (in_user req) = Some sd ∧
             truthy (side_rating sd (rating r)) = false ∧
             is_Some (users demo_completed !! counterparty sd r).
Proof.
  apply (post_rate_succeeds_exactly_when demo_toString demo_toNumber demo_completed
           (raw_call 2 (Hex 0)
              {| Http.raw_rating := Http.AsNumber 4;
                 Http.raw_review := Some "kind and punctual" |}) 4 eq_refl).
  intros id u Hu.
  assert (Hall : Is_true (bool_decide (map_Forall
            (λ (_ : ObjectId) v, between 0 5 (average (u_rating v)) = true)
            (users demo_completed)))).
  { vm_compute. exact I. }
  apply bool_decide_unpack in Hall. exact (Hall id u Hu).
Defined.

(** ** The running average *)

(** X10: ratings between 1 and 5 keep an average that lies between 0 and 5
    there, however many are folded in; so the [min] and [max] validators
    of [rating.average] never reject the [save] of [updateRating]. *)
Theorem ratings_stay_in_range (qs : list Q) (u : User) :
  between 0 5 (average (u_rating u)) = true →
  Forall (λ q, between 1 5 q = true) qs →
  between 0 5 (average (u_rating (rate_all qs u))) = true.
Proof.
  intros Hu Hqs. revert u Hu.
  induction Hqs as [|q qs Hq _ IH]; intros u Hu; [done|].
  change (rate_all (q :: qs) u) with (rate_all qs (updateRating q u)). apply IH.
  unfold updateRating. cbn [u_rating average]. by apply running_average_in_range.
Qed.

Lemma ratings_stay_in_range_witness :
  between 0 5 (average (u_rating (rate_all [4; 5; (3 # 2)]%Q (a_user "alice")))) = true.
Proof.
  apply ratings_stay_in_range.
  - reflexivity.
  - repeat constructor.
Defined.

(** ** One pending request per requester and book *)

(** X11: right after a request has been created, a second [createRequest]
    by the same caller for the same book is answered 400, already pending,
    whatever its kind and offered book, and the first request is still
    there. *)
Theorem second_request_is_refused s req (again : Req CreateBody) :
  ok (handle (createRequest req) s).1 = true →
  user_id again = user_id req →
  cb_book (body again) = cb_book (body req) →
  let s1 := (handle (createRequest req) s).2 in
  handle (createRequest again) s1
    = (failure 400 "You already have a pending request for this book", s1).
Proof.
  intros Hok Huid Hbook s1. unfold s1.
  pose proof (createRequest_cases s req) as Hcases.
  destruct (handle (createRequest req) s) as [resp s'].
  destruct Hcases as [(-> & _)|[(b & msg & -> & _)|(b & Hnew & [Hb Hact] & Hgood)]];
    [discriminate Hok..|].
  unfold created in Hnew. injection Hnew as _ ->. cbn [snd].
  rewrite createRequest_run. cbn [books with_requests].
  rewrite Hbook, Hb, Hact. cbn [negb].
  assert (b_status b = Available) as Hav.
  { destruct (b_status b) eqn:Hst; [done|]. destruct Hgood. left. by rewrite Hst. }
  assert (b_owner b ≠ user_id req) as Hown.
  { intros Hown. destruct Hgood. right. by left. }
  rewrite bool_decide_eq_true_2 by done. cbn [negb].
  rewrite Huid. apply N.eqb_neq in Hown. rewrite Hown.
  rewrite bool_decide_eq_true_2; [done|].
  apply findOne_is_Some. exists (fresh (dom (requests s))), (new_request req b).
  cbn. rewrite lookup_insert_eq. split; [done|]. by apply pending_for_spec.
Qed.

Lemma second_request_is_refused_witness :
  handle (createRequest (call 2 7 {| cb_book := 10; cb_type := free;
                                     cb_offeredBooks := None |})) demo_pending
  = (failure 400 "You already have a pending request for this book", demo_pending).
Proof.
  apply (second_request_is_refused demo_init
           (call 2 0 {| cb_book := 10; cb_type := exchange; cb_offeredBooks := Some 20 |})
           (call 2 7 {| cb_book := 10; cb_type := free; cb_offeredBooks := None |})).
  - vm_compute. reflexivity.
  - reflexivity.
  - reflexivity.
Defined.

(** X12: in every store the lifecycle operations reach there is at most one
    pending request for each requester and book, so the partial unique index
    of the request schema is never violated. *)
Theorem pending_requests_are_unique s : reachable s → unique_pending s.
Proof.
  induction 1 as [s [Hempty _]|s s' _ IH Hstep].
  { intros id1 id2 r1 r2. by rewrite Hempty, lookup_empty. }
  destruct Hstep as [req _|req _|req _|ts tn req _|req _|req _].
  - destruct (createRequest_effect s req) as [->|(b & _ & Hgood & ->)]; [done|].
    assert (∀ id r, requests s !! id = Some r → status r = pending →
                    requester r = user_id req → book r = cb_book (body req) → False)
      as Hnone.
    { intros id r Hr Hst Hq Hb. apply Hgood. right. right. left. by exists id, r. }
    intros id1 id2 r1 r2. cbn.
    intros [[<- <-]|[Hne1 Hr1]]%lookup_insert_Some
           [[<- <-]|[Hne2 Hr2]]%lookup_insert_Some Hs1 Hs2 Hq Hb; cbn in *.
    + done.
    + exfalso. by eapply (Hnone id2 r2).
    + exfalso. by eapply (Hnone id1 r1).
    + by eapply IH.
  - destruct (updateRequest_effect s req) as [->|(r & t & Hr & _ & _ & He & ->)]; [done|].
    assert (t ≠ pending) as Ht by (intros ->; by destruct (status r)).
    intros id1 id2 r1 r2. cbn.
    intros [[<- (r1' & Hr1 & ->)]|[Hne1 Hr1]]%lookup_alter_Some
           [[<- (r2' & Hr2 & ->)]|[Hne2 Hr2]]%lookup_alter_Some;
      rewrite ?request_write_status; try done.
    by apply IH.
  - destruct (rateRequest_effect s req) as (_ & [Hsame|[rt Halt]] & _).
    + unfold unique_pending. by rewrite Hsame.
    + intros id1 id2 r1 r2. rewrite Halt.
      intros [[<- (r1' & Hr1 & ->)]|[Hne1 Hr1]]%lookup_alter_Some
             [[<- (r2' & Hr2 & ->)]|[Hne2 Hr2]]%lookup_alter_Some; cbn; try done.
      * by apply IH.
      * by apply IH.
      * by apply IH.
  - destruct (Http_rateRequest_effect ts tn s req) as (_ & [Hsame|(rid & rt & Halt)] & _).
    + unfold unique_pending. by rewrite Hsame.
    + intros id1 id2 r1 r2. rewrite Halt.
      intros [[<- (r1' & Hr1 & ->)]|[Hne1 Hr1]]%lookup_alter_Some
             [[<- (r2' & Hr2 & ->)]|[Hne2 Hr2]]%lookup_alter_Some; cbn; try done.
      * by apply IH.
      * by apply IH.
      * by apply IH.
  - destruct (deleteRequest_effect s req) as [->|(r & _ & _ & ->)]; [done|].
    intros id1 id2 r1 r2. cbn.
    intros [_ Hr1]%lookup_delete_Some [_ Hr2]%lookup_delete_Some. by apply IH.
  - destruct (deleteBook_effect s req) as [->|(b & _ & ->)]; done.
Qed.

Lemma pending_requests_are_unique_witness : unique_pending demo_accepted.
Proof. apply (pending_requests_are_unique demo_accepted demo_accepted_reachable). Defined.

(** ** What the lifecycle never does *)

Lemma book_writes_not_restored t r bs id b :
  bs !! id = Some b →
  ∃ b', book_writes t r bs !! id = Some b' ∧ not_restored b b'.
Proof.
  intros Hb. unfold book_writes, not_restored.
  destruct t, (type r), (offeredBooks r) as [ob|];
    generalize (book r); intros br;
    rewrite ?lookup_alter; repeat case_decide; subst; rewrite ?Hb;
    (eexists; split; [reflexivity|done]).
Qed.

(** X13: no lifecycle call creates or removes a book or a user, changes a
    title or an author, makes a book that is Not Available available again
    or revives a soft-deleted book.  Nothing in these handlers restores
    availability, also not after an accepted request is cancelled. *)
Theorem lifecycle_never_restores s s' :
  step s s' →
  (∀ id, match books s !! id, books s' !! id with
         | Some b, Some b' => not_restored b b'
         | None, None => True
         | _, _ => False
         end) ∧
  (∀ id, is_Some (users s !! id) ↔ is_Some (users s' !! id)).
Proof.
  assert (∀ b, not_restored b b) as Hrefl by (by intros b).
  assert (∀ s0 : Store, (∀ id, match books s0 !! id, books s0 !! id with
                          | Some b, Some b' => not_restored b b'
                          | None, None => True
                          | _, _ => False
                          end)) as Hsame.
  { intros s0 id. by destruct (books s0 !! id). }
  assert ((∀ id, match books s !! id, books s !! id with
                 | Some b, Some b' => not_restored b b'
                 | None, None => True
                 | _, _ => False
                 end) ∧
          (∀ id, is_Some (users s !! id) ↔ is_Some (users s !! id))) as Hnothing.
  { split; [apply Hsame|done]. }
  intros [req _|req _|req _|ts tn req _|req _|req _].
  - destruct (createRequest_effect s req) as [->|(b & _ & _ & ->)]; exact Hnothing.
  - destruct (updateRequest_effect s req) as [->|(r & t & _ & _ & _ & _ & ->)];
      [exact Hnothing|].
    split; [|done]. intros id. cbn.
    destruct (books s !! id) as [b|] eqn:Hb.
    + by destruct (book_writes_not_restored t r (books s) id b Hb) as (b' & -> & ?).
    + destruct (book_writes_lookup t r (books s) id) as (f & -> & _). by rewrite Hb.
  - destruct (rateRequest_effect s req) as (Hb & _ & Hu).
    split; [intros id; rewrite Hb; apply Hsame|].
    destruct Hu as [->|(uid & u & u' & Hu & -> & _)]; [done|].
    intros id. rewrite lookup_insert_is_Some.
    split; [destruct (decide (uid = id)); auto|].
    intros [<-|[_ ?]]; [by eexists|done].
  - destruct (Http_rateRequest_effect ts tn s req) as (Hb & _ & Hu).
    split; [intros id; rewrite Hb; apply Hsame|].
    destruct Hu as [->|(uid & u & u' & Hu & -> & _)]; [done|].
    intros id. rewrite lookup_insert_is_Some.
    split; [destruct (decide (uid = id)); auto|].
    intros [<-|[_ ?]]; [by eexists|done].
  - destruct (deleteRequest_effect s req) as [->|(r & _ & _ & ->)]; exact Hnothing.
  - destruct (deleteBook_effect s req) as [->|(b & Hb & ->)]; [exact Hnothing|].
    split; [|done]. intros id. cbn.
    destruct (decide (id = params_id req)) as [->|Hne].
    + by rewrite lookup_insert_eq, Hb.
    + rewrite lookup_insert_ne by done. apply Hsame.
Qed.

Lemma lifecycle_never_restores_witness :
  match books demo_pending !! 10, books demo_accepted !! 10 with
  | Some b, Some b' => not_restored b b'
  | None, None => True
  | _, _ => False
  end.
Proof.
  apply (proj1 (lifecycle_never_restores demo_pending demo_accepted
                  (step_updateRequest demo_pending (call 1 0 (ask "accepted"))
                     ltac:(by eexists))) 10).
Defined.

(** X14: in a reachable store, when the requester cancels an accepted
    request the call goes through and the target book, which acceptance made
    Not Available, stays Not Available although no accepted request holds it
    any more. *)
Theorem cancelling_keeps_the_book_unavailable s req r :
  reachable s →
  requests s !! params_id req = Some r →
  status r = accepted →
  requester r = user_id req →
  ub_status (body req) = Some "cancelled" →
  let '(resp, s') := handle (updateRequest req) s in
  ok resp = true ∧
  status <$> requests s' !! params_id req = Some cancelled ∧
  ∃ b, books s' !! book r = Some b ∧ b_status b = NotAvailable.
Proof.
  intros Hreach Hr Hst Hq Hv.
  rewrite (updateRequest_run s req r Hr), Hv, Hst.
  change (Some "cancelled" ≫= status_of_name) with (Some cancelled).
  cbn [allowed_actor edge]. rewrite Hq, N.eqb_refl. cbn.
  split; [done|]. split; [by rewrite lookup_alter_eq, Hr|].
  destruct (ok_requests s (reachable_ok s Hreach) _ _ Hr) as [_ _ [b Hb] _ Hna _].
  exists b. split; [done|]. apply Hna; auto.
Qed.

Lemma cancelling_keeps_the_book_unavailable_witness :
  let '(resp, s') := handle (updateRequest (call 2 0 (ask "cancelled"))) demo_accepted in
  ok resp = true ∧
  status <$> requests s' !! 0 = Some cancelled ∧
  ∃ b, books s' !! 10 = Some b ∧ b_status b = NotAvailable.
Proof.
  apply (cancelling_keeps_the_book_unavailable demo_accepted
           (call 2 0 (ask "cancelled")) (set_status accepted demo_request)
           demo_accepted_reachable ltac:(vm_compute; reflexivity)
           ltac:(reflexivity) ltac:(reflexivity) ltac:(reflexivity)).
Defined.

(** X15: a lifecycle call never rewrites who a request is between: every
    request of the store is afterwards either still there with the same
    requester, book, owner, kind and offered book, or gone, and it can only
    be gone if it was cancelled or rejected. *)
Theorem requests_keep_their_parties s s' id r :
  step s s' →
  requests s !! id = Some r →
  match requests s' !! id with
  | Some r' => same_parties r r'
  | None => status r = cancelled ∨ status r = rejected
  end.
Proof.
  assert (same_parties r r) as Hrefl by done.
  intros [req _|req _|req _|ts tn req _|req _|req _] Hr.
  - destruct (createRequest_effect s req) as [->|(b & _ & _ & ->)]; [by rewrite Hr|].
    cbn. rewrite lookup_insert_ne, Hr; [done|].
    intros <-. by rewrite fresh_request_id in Hr.
  - destruct (updateRequest_effect s req) as [->|(r0 & t & Hr0 & _ & _ & _ & ->)];
      [by rewrite Hr|].
    cbn. destruct (decide (id = params_id req)) as [->|Hne].
    + rewrite lookup_alter_eq, Hr. cbn.
      destruct (request_write_fields t (now req) r) as (? & ? & ? & ? & ? & _). done.
    + by rewrite lookup_alter_ne, Hr.
  - destruct (rateRequest_effect s req) as (_ & [Hsame|[rt Halt]] & _);
      [by rewrite Hsame, Hr|].
    rewrite Halt. destruct (decide (id = params_id req)) as [->|Hne].
    + by rewrite lookup_alter_eq, Hr.
    + by rewrite lookup_alter_ne, Hr.
  - destruct (Http_rateRequest_effect ts tn s req) as (_ & [Hsame|(rid & rt & Halt)] & _);
      [by rewrite Hsame, Hr|].
    rewrite Halt. destruct (decide (id = rid)) as [->|Hne].
    + by rewrite lookup_alter_eq, Hr.
    + by rewrite lookup_alter_ne, Hr.
  - destruct (deleteRequest_effect s req) as [->|(r0 & Hr0 & Hst & ->)]; [by rewrite Hr|].
    cbn. destruct (decide (id = params_id req)) as [->|Hne].
    + rewrite lookup_delete_eq. congruence.
    + by rewrite lookup_delete_ne, Hr.
  - destruct (deleteBook_effect s req) as [->|(b & _ & ->)]; cbn; by rewrite Hr.
Qed.

Lemma requests_keep_their_parties_witness :
  match requests demo_completed !! 0 with
  | Some r' => same_parties (set_status accepted demo_request) r'
  | None => status (set_status accepted demo_request) = cancelled
            ∨ status (set_status accepted demo_request) = rejected
  end.
Proof.
  apply (requests_keep_their_parties demo_accepted demo_completed 0
           (set_status accepted demo_request)
           (step_updateRequest demo_accepted (call 2 0 (ask "completed"))
              ltac:(by eexists))
           ltac:(vm_compute; reflexivity)).
Defined.

(** ** Reading and deleting books *)

Lemma getBookById_run id s :
  getBookById id s =
  match books s !! id with
  | Some b =>
    if b_isActive b then (success 200 None NoData, Some (view b s), s)
    else (failure 404 "Book not found", None, s)
  | None => (failure 404 "Book not found", None, s)
  end.
Proof.
  unfold getBookById, send_book. rewrite run_read.
  destruct (books s !! id) as [b|]; [|done]. cbn.
  rewrite run_reply_if. by destruct (b_isActive b).
Qed.

(** X16: [getBookById] never changes the store; it shows a book, together
    with its owner's document, exactly when the id casts to that of an
    existing, active book; an id that casts to no such book is answered
    404, and an id that does not cast 500. *)
Theorem getBookById_shows_active_books x s :
  let '(resp, shown, s') := Http.getBookById x s in
  s' = s ∧
  (ok resp = true ↔
     ∃ id b, cast x = Some id ∧ books s !! id = Some b ∧ b_isActive b = true) ∧
  (ok resp = true → code resp = 200 ∧
     ∃ id b, cast x = Some id ∧ books s !! id = Some b ∧
             shown = Some {| bv_book := b; bv_owner := users s !! b_owner b |}) ∧
  (ok resp = false →
     shown = None ∧
     match cast x with
     | Some _ => resp = failure 404 "Book not found"
     | None => code resp = 500
     end).
Proof.
  unfold Http.getBookById.
  destruct (cast x) as [id|] eqn:Hid.
  2: { split; [done|]. split; [|done]. split; [done|]. by intros (id & b & ? & _). }
  rewrite getBookById_run.
  destruct (books s !! id) as [b|] eqn:Hb.
  - destruct (b_isActive b) eqn:Hact.
    + split; [done|]. split; [split; [|done]; intros _; by exists id, b|].
      split; [|done]. intros _. split; [done|]. by exists id, b.
    + split; [done|]. split; [|done]. split; [done|].
      intros (id' & b' & [= <-] & Hb' & ?). congruence.
  - split; [done|]. split; [|done]. split; [done|].
    intros (id' & b' & [= <-] & ? & _). congruence.
Qed.

(** X17: a book its owner has deleted stays deleted as far as these
    handlers go: deleting it again succeeds and changes nothing, reading it
    is answered 404, and every attempt to request it is answered 404,
    whoever asks. *)
Theorem deleted_book_stays_deleted s req :
  ok (handle (deleteBook req) s).1 = true →
  let s1 := (handle (deleteBook req) s).2 in
  handle (deleteBook req) s1
    = (success 200 (Some "Book deleted successfully") NoData, s1) ∧
  getBookById (params_id req) s1 = (failure 404 "Book not found", None, s1) ∧
  ∀ ask_for : Req CreateBody,
    cb_book (body ask_for) = params_id req →
    handle (createRequest ask_for) s1 = (failure 404 "Book not found", s1).
Proof.
  intros Hok s1. unfold s1. clear s1. revert Hok. rewrite deleteBook_run.
  destruct (books s !! params_id req) as [b|] eqn:Hb; [|done].
  destruct (b_owner b =? user_id req) eqn:Hown; [|done]. cbn [negb].
  case_bool_decide as Hcount; [done|]. intros _. cbn [snd].
  set (gone := set_b_status NotAvailable (set_b_isActive false b)).
  set (s1 := with_books (insert (params_id req) gone) s).
  assert (books s1 !! params_id req = Some gone) as Hgone.
  { unfold s1. cbn. by rewrite lookup_insert_eq. }
  split; [|split].
  - rewrite deleteBook_run, Hgone. change (b_owner gone) with (b_owner b).
    rewrite Hown. cbn [negb]. change (requests s1) with (requests s).
    rewrite bool_decide_eq_false_2 by done.
    f_equal. unfold s1, with_books. cbn. f_equal.
    by rewrite insert_insert_eq.
  - by rewrite getBookById_run, Hgone.
  - intros ask_for Hid. by rewrite createRequest_run, Hid, Hgone.
Qed.

Lemma deleted_book_stays_deleted_witness :
  let s1 := (handle (deleteBook (call 2 20 tt)) demo_init).2 in
  handle (deleteBook (call 2 20 tt)) s1
    = (success 200 (Some "Book deleted successfully") NoData, s1) ∧
  getBookById 20 s1 = (failure 404 "Book not found", None, s1) ∧
  ∀ ask_for : Req CreateBody,
    cb_book (body ask_for) = 20 →
    handle (createRequest ask_for) s1 = (failure 404 "Book not found", s1).
Proof.
  apply (deleted_book_stays_deleted demo_init (call 2 20 tt)).
  vm_compute. reflexivity.
Defined.

(** ** Authentication and deactivated accounts *)

Lemma updateMany_lookup {A} (P : A → bool) (f : A → A) (m : gmap ObjectId A) id :
  updateMany P f m !! id = (λ x, if P x then f x else x) <$> m !! id.
Proof. unfold updateMany. apply lookup_fmap. Qed.

Lemma behind_auth_run {B} t id (b : B) at_ h s :
  handle (behind_auth t id b at_ h) s =
  match auth t s with
  | (Next uid, s') => handle (h {| user_id := uid; params_id := id; body := b; now := at_ |}) s'
  | (Reply r, s') => (r, s')
  end.
Proof.
  unfold handle, behind_auth, mbind, Action_bind, bind.
  by destruct (auth t s) as [[uid|r] s'].
Qed.

(** X18: [auth] never changes the store; it lets a call through exactly
    when the token is verified and names an existing, active user, whose id
    becomes [req.user.id]; every other call is answered 401, and a handler
    behind [auth] is then not run at all. *)
Theorem auth_lets_active_users_through t s :
  let '(out, s') := auth t s in
  s' = s ∧
  match out with
  | Next uid => t = Verified uid ∧ ∃ u, users s !! uid = Some u ∧ u_isActive u = true
  | Reply r =>
    code r = 401 ∧ ok r = false ∧
    (∀ uid u, t = Verified uid → users s !! uid = Some u → u_isActive u = false) ∧
    (∀ B id (b : B) at_ h, handle (behind_auth t id b at_ h) s = (r, s))
  end.
Proof.
  pose proof (λ B id (b : B) at_ h, behind_auth_run t id b at_ h s) as Hroute.
  destruct t as [| |uid]; cbn in *; try done.
  unfold mbind, Action_bind, bind, User_findById, read in *. cbn in *.
  destruct (users s !! uid) as [u|] eqn:Hu; cbn in *.
  - destruct (u_isActive u) eqn:Hact; cbn in *.
    + split; [done|]. split; [done|]. by exists u.
    + split; [done|]. repeat (split; [done|]). split; [|done].
      intros uid' u' [= <-]. congruence.
  - split; [done|]. repeat (split; [done|]). split; [|done].
    intros uid' u' [= <-]. congruence.
Qed.

(** The store after the three writes of [deactivate]. *)
Lemma deactivate_run uid s :
  deactivate uid s =
  (Next tt,
   {| users := alter (set_u_isActive false) uid (users s);
      books := updateMany (λ b, b_owner b =? uid) (set_b_isActive false) (books s);
      requests := updateMany (pending_with uid) (set_status cancelled) (requests s) |}).
Proof. done. Qed.

Lemma deactivateAccount_run s req :
  handle (deactivateAccount req) s =
  (success 200 (Some "Account deactivated successfully") NoData, (deactivate (user_id req) s).2).
Proof. done. Qed.

(** X19: [deactivateAccount] creates and removes nothing.  It cancels the
    pending requests the caller sent or received and no others, so every
    status change is the edge pending to cancelled and afterwards no pending
    request involves the caller; it marks the caller and the caller's books
    inactive; and it leaves every book's availability status as it was,
    since the path the update names is not in the book schema. *)
Theorem deactivateAccount_cancels_and_hides s req :
  let s' := (handle (deactivateAccount req) s).2 in
  let uid := user_id req in
  (∀ id, match requests s !! id, requests s' !! id with
         | Some r, Some r' =>
           same_parties r r' ∧ rating r' = rating r ∧
           (if decide ((requester r = uid ∨ owner r = uid) ∧ status r = pending)
            then status r' = cancelled else status r' = status r)
         | None, None => True
         | _, _ => False
         end) ∧
  (∀ id r', requests s' !! id = Some r' →
            requester r' = uid ∨ owner r' = uid → status r' ≠ pending) ∧
  (∀ id, match books s !! id, books s' !! id with
         | Some b, Some b' =>
           b_status b' = b_status b ∧ b_owner b' = b_owner b ∧
           b_title b' = b_title b ∧ b_author b' = b_author b ∧
           b_isActive b' = (if decide (b_owner b = uid) then false else b_isActive b)
         | None, None => True
         | _, _ => False
         end) ∧
  (∀ id, match users s !! id, users s' !! id with
         | Some u, Some u' =>
           u_rating u' = u_rating u ∧ u_name u' = u_name u ∧
           u_isActive u' = (if decide (id = uid) then false else u_isActive u)
         | None, None => True
         | _, _ => False
         end).
Proof.
  cbv zeta. rewrite deactivateAccount_run, deactivate_run. cbn [snd users books requests].
  assert (∀ r, pending_with (user_id req) r = true ↔
               (requester r = user_id req ∨ owner r = user_id req) ∧ status r = pending)
    as Hwith.
  { intros r. unfold pending_with.
    by rewrite andb_true_iff, orb_true_iff, !N.eqb_eq, bool_decide_eq_true. }
  split; [|split; [|split]].
  - intros id. rewrite updateMany_lookup.
    destruct (requests s !! id) as [r|]; [|done]. cbn.
    destruct (pending_with (user_id req) r) eqn:Hp.
    + apply Hwith in Hp. by rewrite decide_True.
    + rewrite decide_False; [done|]. intros Hp'%Hwith. congruence.
  - intros id r'. rewrite updateMany_lookup.
    destruct (requests s !! id) as [r|]; [|done]. cbn.
    destruct (pending_with (user_id req) r) eqn:Hp; intros [= <-]; [done|].
    cbn. intros Hwho Hst. assert (pending_with (user_id req) r = true) by by apply Hwith.
    congruence.
  - intros id. rewrite updateMany_lookup.
    destruct (books s !! id) as [b|]; [|done]. cbn.
    destruct (b_owner b =? user_id req) eqn:Ho.
    + apply N.eqb_eq in Ho. by rewrite decide_True.
    + apply N.eqb_neq in Ho. by rewrite decide_False.
  - intros id. destruct (decide (id = user_id req)) as [->|Hne].
    + rewrite lookup_alter_eq. by destruct (users s !! user_id req).
    + rewrite lookup_alter_ne by done. by destruct (users s !! id).
Qed.

(** X20: after [deactivateAccount] the caller cannot get past [auth] any
    more: whatever route they call with their token is answered 401 and
    changes nothing. *)
Theorem deactivated_user_is_locked_out s req :
  let s1 := (handle (deactivateAccount req) s).2 in
  ∀ B id (b : B) at_ (h : Req B → Handler),
    ∃ r, handle (behind_auth (Verified (user_id req)) id b at_ h) s1 = (r, s1) ∧
         code r = 401.
Proof.
  cbv zeta. intros B id b at_ h. rewrite behind_auth_run.
  rewrite deactivateAccount_run, deactivate_run. cbn [snd].
  unfold auth, mbind, Action_bind, bind, User_findById, read. cbn.
  rewrite lookup_alter_eq. destruct (users s !! user_id req) as [u|]; cbn.
  - by eexists.
  - by eexists.
Qed.

(** X21: deactivation does not release an accepted request.  When the
    owner of the target book deactivates their account, the request stays
    accepted, the requester can still complete it, and completion hands the
    requester a book that is inactive. *)
Theorem completion_survives_deactivation s (off : Req unit) (req : Req UpdateBody) r b :
  requests s !! params_id req = Some r →
  status r = accepted →
  books s !! book r = Some b →
  b_owner b = user_id off →
  offeredBooks r ≠ Some (book r) →
  requester r = user_id req →
  ub_status (body req) = Some "completed" →
  let s1 := (handle (deactivateAccount off) s).2 in
  let '(resp, s2) := handle (updateRequest req) s1 in
  status <$> requests s1 !! params_id req = Some accepted ∧
  ok resp = true ∧
  ∃ b', books s2 !! book r = Some b' ∧
        b_owner b' = requester r ∧ b_isActive b' = false.
Proof.
  intros Hr Hst Hb Hown Hoff Hq Hv. cbv zeta.
  rewrite deactivateAccount_run, deactivate_run. cbn [snd].
  set (s1 := {| users := _; books := _; requests := _ |}).
  assert (pending_with (user_id off) r = false) as Hp.
  { unfold pending_with. rewrite (bool_decide_eq_false_2 (status r = pending)) by congruence.
    apply andb_false_r. }
  assert (requests s1 !! params_id req = Some r) as Hr1.
  { unfold s1. cbn [requests]. rewrite updateMany_lookup, Hr. simpl. by rewrite Hp. }
  assert (books s1 !! book r = Some (set_b_isActive false b)) as Hb1.
  { unfold s1. cbn [books]. rewrite updateMany_lookup, Hb. simpl.
    by rewrite Hown, N.eqb_refl. }
  rewrite (updateRequest_run s1 req r Hr1), Hv, Hst.
  change (Some "completed" ≫= status_of_name) with (Some completed).
  cbn [allowed_actor edge]. rewrite Hq, N.eqb_refl. cbn [orb negb].
  split; [rewrite Hr1; simpl; by rewrite Hst|]. split; [done|].
  unfold committed. cbn [books book_writes].
  destruct (type r), (offeredBooks r) as [ob|] eqn:Hob;
    rewrite ?lookup_alter_ne by congruence;
    rewrite lookup_alter_eq, Hb1; by eexists.
Qed.

Lemma completion_survives_deactivation_witness :
  let s1 := (handle (deactivateAccount (call 1 0 tt)) demo_accepted).2 in
  let '(resp, s2) := handle (updateRequest (call 2 0 (ask "completed"))) s1 in
  status <$> requests s1 !! 0 = Some accepted ∧
  ok resp = true ∧
  ∃ b', books s2 !! 10 = Some b' ∧ b_owner b' = 2 ∧ b_isActive b' = false.
Proof.
  apply (completion_survives_deactivation demo_accepted (call 1 0 tt)
           (call 2 0 (ask "completed")) (set_status accepted demo_request)
           (set_b_status NotAvailable (a_book "Dune" 1))).
  - vm_compute. reflexivity.
  - reflexivity.
  - vm_compute. reflexivity.
  - reflexivity.
  - discriminate.
  - reflexivity.
  - reflexivity.
Defined.

(** ** The admin controller *)

Lemma index_clash_spec id r st m :
  Admin.index_clash id r st m = true ↔
  st = pending ∧
  ∃ id' r', id' ≠ id ∧ m !! id' = Some r' ∧ status r' = pending ∧
            requester r' = requester r ∧ book r' = book r.
Proof.
  unfold Admin.index_clash.
  rewrite andb_true_iff, !bool_decide_eq_true, findOne_is_Some.
  split.
  - intros [-> (id' & r' & [Hne Hr']%lookup_delete_Some
                & (Hq & Hb & Hs)%pending_for_spec)].
    split; [done|]. by exists id', r'.
  - intros [-> (id' & r' & Hne & Hr' & Hst & Hq & Hb)]. split; [done|].
    exists id', r'. split; [by apply lookup_delete_Some|]. by apply pending_for_spec.
Qed.

Lemma admin_updateRequest_run s (req : Req string) :
  handle (Admin.updateRequest req) s =
  match status_of_name (body req) with
  | Some st =>
    if bool_decide (body req ∈ Admin.status_enum) then
      match requests s !! params_id req with
      | None => (failure 404 "Request not found", s)
      | Some r =>
        if Admin.index_clash (params_id req) r st (requests s)
        then (failure 500 "E11000 duplicate key error", s)
        else
          let s' := with_requests (alter (set_status st) (params_id req)) s in
          (success 200 (Some "Request updated successfully")
             (RequestData (Some (Admin.populate (set_status st r) s'))), s')
      end
    else (failure 500 "Validation failed: status", s)
  | None => (failure 500 "Validation failed: status", s)
  end.
Proof.
  unfold handle, Admin.updateRequest.
  destruct (status_of_name (body req)) as [st|] eqn:Hst.
  2: { by case_bool_decide. }
  case_bool_decide; [|done].
  rewrite run_ret, run_read.
  destruct (requests s !! params_id req) as [r|] eqn:Hr; cbn [from_option].
  - rewrite run_reply_if. destruct (Admin.index_clash _ _ _ _); [done|].
    rewrite run_write, run_read, requests_with_requests, lookup_alter_eq, Hr.
    done.
  - rewrite run_reply_if, run_write, run_read, requests_with_requests, lookup_alter_eq, Hr.
    cbn. f_equal. destruct s as [us bs rs]. cbn in *. unfold with_requests. cbn.
    f_equal. apply map_eq. intros i. destruct (decide (i = params_id req)) as [->|Hne].
    + by rewrite lookup_alter_eq, Hr.
    + by rewrite lookup_alter_ne.
Qed.

(** X22: the admin's [updateRequest] knows no transition table and writes
    no book.  For an existing request it sets the status accepted or
    completed whatever the current status, without touching [completedAt]
    or any book; it sets pending unless the requester has another pending
    request for the same book, which the unique index refuses; and any
    other status fails the enum validator.  A refused call is answered 500
    with nothing changed. *)
Theorem admin_update_ignores_the_table s (req : Req string) r :
  requests s !! params_id req = Some r →
  let '(resp, s') := handle (Admin.updateRequest req) s in
  (∀ t, body req = status_name t →
        t = accepted ∨ t = completed ∨
        (t = pending ∧ Admin.index_clash (params_id req) r pending (requests s) = false) →
        ok resp = true ∧
        requests s' = <[params_id req := set_status t r]> (requests s) ∧
        books s' = books s ∧ users s' = users s) ∧
  ((∀ t, body req = status_name t →
         t = rejected ∨ t = cancelled ∨
         (t = pending ∧ Admin.index_clash (params_id req) r pending (requests s) = true)) →
   code resp = 500 ∧ s' = s).
Proof.
  intros Hr. rewrite admin_updateRequest_run, Hr.
  destruct (status_of_name (body req)) as [st|] eqn:Hst.
  2: { split; [|done]. intros t Hv. by rewrite Hv, status_of_name_name in Hst. }
  apply status_of_name_Some in Hst as Hv. rewrite Hv.
  case_bool_decide as Hin.
  2: { split; [|done]. intros t Ht%status_name_inj. subst t.
       intros Hgood. exfalso. apply Hin. unfold Admin.status_enum. set_unfold.
       destruct Hgood as [->|[->|[-> _]]]; cbn; auto. }
  assert (st = pending ∨ st = accepted ∨ st = completed) as Hst3.
  { unfold Admin.status_enum in Hin. set_unfold in Hin.
    destruct Hin as [Hn|[Hn|[Hn|[]]]];
      [apply (status_name_inj st pending) in Hn
      |apply (status_name_inj st accepted) in Hn
      |apply (status_name_inj st completed) in Hn]; auto. }
  destruct (Admin.index_clash (params_id req) r st (requests s)) eqn:Hclash.
  - split; [|done]. intros t Ht%status_name_inj. subst t.
    apply index_clash_spec in Hclash as Hp. destruct Hp as [-> _].
    intros [?|[?|[_ Hno]]]; [done..|]. congruence.
  - split.
    + intros t Ht%status_name_inj _. subst t. cbn. split; [done|]. split; [|done].
      apply map_eq. intros i. destruct (decide (i = params_id req)) as [->|Hne].
      * by rewrite lookup_alter_eq, lookup_insert_eq, Hr.
      * by rewrite lookup_alter_ne, lookup_insert_ne.
    + intros Hbad. destruct (Hbad st eq_refl) as [->|[->|[-> Hyes]]];
        [by destruct Hst3 as [?|[?|?]]..|congruence].
Qed.

Lemma admin_update_ignores_the_table_witness :
  let '(resp, s') := handle (Admin.updateRequest (call 9 0 "pending")) demo_completed in
  (∀ t, "pending" = status_name t →
        t = accepted ∨ t = completed ∨
        (t = pending ∧ Admin.index_clash 0 (request_write completed 1700000000000
                                         (set_status accepted demo_request))
                         pending (requests demo_completed) = false) →
        ok resp = true ∧
        requests s' = <[0 := set_status t
                              (request_write completed 1700000000000
                                 (set_status accepted demo_request))]>
                        (requests demo_completed) ∧
        books s' = books demo_completed ∧ users s' = users demo_completed) ∧
  ((∀ t, "pending" = status_name t →
         t = rejected ∨ t = cancelled ∨
         (t = pending ∧ Admin.index_clash 0 (request_write completed 1700000000000
                                          (set_status accepted demo_request))
                          pending (requests demo_completed) = true)) →
   code resp = 500 ∧ s' = demo_completed).
Proof.
  apply (admin_update_ignores_the_table demo_completed (call 9 0 "pending")
           (request_write completed 1700000000000 (set_status accepted demo_request))).
  vm_compute. reflexivity.
Defined.

(** X23: the admin's [deleteBook] fails midway for every existing book: it
    cancels the pending requests for the book and is then answered 500,
    because the handler writes to [book.availability], a path books do not
    have; the book itself stays as it was, active or not. *)
Theorem admin_deleteBook_fails_midway s req b :
  books s !! params_id req = Some b →
  let '(resp, s') := handle (Admin.deleteBook req) s in
  code resp = 500 ∧
  books s' = books s ∧ users s' = users s ∧
  ∀ id, requests s' !! id
        = (λ r, if decide (book r = params_id req ∧ status r = pending)
                then set_status cancelled r else r) <$> requests s !! id.
Proof.
  intros Hb. unfold handle, Admin.deleteBook, Book_findById.
  rewrite run_read, Hb, run_write. unfold throw, reply.
  cbn [code failure books users requests with_requests].
  repeat (split; [done|]).
  intros id. rewrite updateMany_lookup. destruct (requests s !! id) as [r|]; [|done].
  cbn. f_equal. destruct (pending_on (params_id req) r) eqn:Hp.
  - apply pending_on_spec in Hp. by rewrite decide_True.
  - rewrite decide_False; [done|]. intros Hp'%pending_on_spec. congruence.
Qed.

Lemma admin_deleteBook_fails_midway_witness :
  let '(resp, s') := handle (Admin.deleteBook (call 9 10 tt)) demo_pending in
  code resp = 500 ∧
  books s' = books demo_pending ∧ users s' = users demo_pending ∧
  ∀ id, requests s' !! id
        = (λ r, if decide (book r = 10 ∧ status r = pending)
                then set_status cancelled r else r) <$> requests demo_pending !! id.
Proof.
  apply (admin_deleteBook_fails_midway demo_pending (call 9 10 tt) (a_book "Dune" 1)).
  vm_compute. reflexivity.
Defined.

(** X24: the admin's [deleteUser] refuses the admin's own id string with
    400, answers 500 for an id that does not cast and 404 for one that
    names no user, changing nothing; for any other id of an existing user it
    leaves the store exactly as that user's own [deactivateAccount] would.
    The guard compares strings, so it is the admin's id in its printed form
    that is refused. *)
Theorem admin_deleteUser_is_deactivation s (adm : RawReq unit) :
  let '(resp, s') := handle (Admin.deleteUser adm) s in
  if same_string (in_id adm) (in_user adm) then
    resp = failure 400 "You cannot delete your own account" ∧ s' = s
  else match cast (in_id adm) with
       | None => code resp = 500 ∧ s' = s
       | Some uid =>
         match users s !! uid with
         | None => resp = failure 404 "User not found" ∧ s' = s
         | Some _ =>
           resp = success 200 (Some "User deactivated successfully") NoData ∧
           ∀ off : Req unit, user_id off = uid →
                             s' = (handle (deactivateAccount off) s).2
         end
       end.
Proof.
  unfold handle, Admin.deleteUser, castObjectId, User_findById.
  rewrite run_reply_if. destruct (same_string (in_id adm) (in_user adm)); [done|].
  destruct (cast (in_id adm)) as [uid|]; [|done].
  rewrite run_ret, run_read.
  destruct (users s !! uid); [|done].
  split; [done|]. intros off <-. reflexivity.
Qed.

Lemma admin_deleteUser_is_deactivation_witness :
  let '(resp, s') := handle (Admin.deleteUser (raw_call 9 (Hex 2) tt)) demo_pending in
  resp = success 200 (Some "User deactivated successfully") NoData ∧
  ∀ off : Req unit, user_id off = 2 →
                    s' = (handle (deactivateAccount off) demo_pending).2.
Proof.
  exact (admin_deleteUser_is_deactivation demo_pending (raw_call 9 (Hex 2) tt)).
Defined.

(** ** [updateBook] *)

Lemma updateBook_run ct ca req s :
  updateBook ct ca req s =
  match books s !! params_id req with
  | None => (failure 404 "Book not found", None, s)
  | Some b =>
    if negb (b_owner b =? user_id req)
    then (failure 403 "Not authorized to update this book", None, s)
    else match cast_patch ct ca (body req) with
         | None => (failure 500 "Validation failed", None, s)
         | Some f =>
           let s' := with_books (alter f (params_id req)) s in
           (success 200 (Some "Book updated successfully") NoData,
            Some (view (f b) s'), s')
         end
  end.
Proof.
  unfold updateBook, send_book, Book_findById. rewrite run_read.
  destruct (books s !! params_id req) as [b|] eqn:Hb; [|done].
  rewrite run_reply_if. destruct (negb _); [done|].
  destruct (cast_patch ct ca (body req)) as [f|]; [|done].
  rewrite run_write. unfold read. cbn. by rewrite lookup_alter_eq, Hb.
Qed.

Lemma cast_patch_keeps ct ca p f b :
  cast_patch ct ca p = Some f →
  b_owner (f b) = b_owner b ∧ b_isActive (f b) = b_isActive b ∧
  b_status (f b) = default (b_status b) (bp_status p).
Proof.
  unfold cast_patch. intros Hf.
  destruct (match bp_title p with Some t => Some <$> ct t | None => Some None end);
    [|done]. cbn in Hf.
  destruct (match bp_author p with Some a => Some <$> ca a | None => Some None end);
    [|done]. cbn in Hf. by injection Hf as <-.
Qed.

(** X25: for a body as [updateBookSchema] lets it through, [updateBook]
    changes nothing but the book its id casts to, and that only for its
    owner; it never changes the book's owner or [isActive], so a book cannot
    be given away or a soft-deleted book revived this way; requests and
    users are never touched, whatever Mongoose makes of the new title and
    author; and an id that does not cast is answered 500 with nothing
    changed. *)
Theorem updateBook_stays_in_bounds ct ca s (req : RawReq BookPatch) :
  let '(resp, shown, s') := Http.updateBook ct ca req s in
  requests s' = requests s ∧ users s' = users s ∧
  match cast (in_id req) with
  | None => code resp = 500 ∧ books s' = books s
  | Some id =>
    (∀ id', id' ≠ id → books s' !! id' = books s !! id') ∧
    match books s !! id, books s' !! id with
    | Some b, Some b' =>
      b_owner b' = b_owner b ∧ b_isActive b' = b_isActive b ∧
      (ok resp = true → b_owner b = in_user req) ∧
      (ok resp = false → b' = b ∧ (code resp = 403 ∨ code resp = 500))
    | None, None => resp = failure 404 "Book not found"
    | _, _ => False
    end
  end.
Proof.
  unfold Http.updateBook.
  destruct (cast (in_id req)) as [id|]; [|done].
  rewrite updateBook_run. cbn [as_req params_id user_id body].
  destruct (books s !! id) as [b|] eqn:Hb.
  2: { by rewrite Hb. }
  destruct (b_owner b =? in_user req) eqn:Hown; cbn [negb].
  2: { rewrite Hb. cbn. repeat (split; [done|]). auto. }
  apply N.eqb_eq in Hown.
  destruct (cast_patch ct ca (in_body req)) as [f|] eqn:Hf.
  2: { rewrite Hb. cbn. repeat (split; [done|]). auto. }
  cbn. split; [done|]. split; [done|].
  split; [intros id' Hne; by rewrite lookup_alter_ne|].
  rewrite lookup_alter_eq, Hb. cbn.
  destruct (cast_patch_keeps ct ca _ f b Hf) as (? & ? & _). done.
Qed.

(** X26: [updateBook] does not look at requests.  The owner of a book that
    an accepted (or any other) request refers to can set its status back to
    Available; the request is untouched, so the rule that an accepted
    request's book is Not Available holds for the lifecycle handlers only. *)
Theorem updateBook_can_reopen_a_book ct ca s (req : Req BookPatch) rid r b :
  requests s !! rid = Some r →
  book r = params_id req →
  books s !! params_id req = Some b →
  b_owner b = user_id req →
  body req = {| bp_title := None; bp_author := None; bp_status := Some Available |} →
  let '(resp, shown, s') := updateBook ct ca req s in
  ok resp = true ∧
  requests s' !! rid = Some r ∧
  b_status <$> books s' !! book r = Some Available.
Proof.
  intros Hr Hbook Hb Hown Hbody. rewrite updateBook_run, Hb, Hown, N.eqb_refl, Hbody.
  cbn. split; [done|]. split; [done|]. by rewrite Hbook, lookup_alter_eq, Hb.
Qed.

Lemma updateBook_can_reopen_a_book_witness :
  let req := call 1 10 {| bp_title := None; bp_author := None;
                          bp_status := Some Available |} in
  let '(resp, shown, s') := updateBook Some Some req demo_accepted in
  ok resp = true ∧
  requests s' !! 0 = Some (set_status accepted demo_request) ∧
  b_status <$> books s' !! 10 = Some Available.
Proof.
  apply (updateBook_can_reopen_a_book Some Some demo_accepted
           (call 1 10 {| bp_title := None; bp_author := None;
                         bp_status := Some Available |})
           0 (set_status accepted demo_request)
           (set_b_status NotAvailable (a_book "Dune" 1))).
  - vm_compute. reflexivity.
  - reflexivity.
  - vm_compute. reflexivity.
  - reflexivity.
  - reflexivity.
Defined.

(** X27: completion moves the right to edit the book.  In a reachable
    store, once an accepted request has been completed, [updateBook] on its
    target book is answered 403 for the former owner and goes through for
    the requester. *)
Theorem completion_moves_edit_rights ct ca s req r (upd : Req BookPatch) :
  reachable s →
  requests s !! params_id req = Some r →
  status r = accepted →
  ub_status (body req) = Some "completed" →
  ok (handle (updateRequest req) s).1 = true →
  owner r ≠ requester r →
  params_id upd = book r →
  let s1 := (handle (updateRequest req) s).2 in
  (user_id upd = owner r →
   updateBook ct ca upd s1
     = (failure 403 "Not authorized to update this book", None, s1)) ∧
  (user_id upd = requester r → bp_title (body upd) = None → bp_author (body upd) = None →
   ok (updateBook ct ca upd s1).1.1 = true).
Proof.
  intros Hreach Hr Hst Hv Hok Hne Hid. cbv zeta.
  destruct (handle (updateRequest req) s) as [resp s1] eqn:Hrun. cbn [fst snd] in *.
  destruct (updateRequest_success _ _ _ _ Hrun Hok)
    as (r0 & t & Hr0 & Ht & _ & _ & _ & ->).
  rewrite Hr in Hr0. injection Hr0 as <-.
  assert (t = completed) as ->.
  { rewrite Hv in Ht. injection Ht as Ht. symmetry. by apply status_name_inj. }
  destruct (ok_requests s (reachable_ok s Hreach) _ _ Hr) as [_ _ [b Hb] Hoff _ _].
  assert (∃ b', books (committed completed r req s) !! book r = Some b' ∧
                b_owner b' = requester r) as (b' & Hb' & Hown).
  { unfold committed. cbn [books book_writes].
    destruct (type r).
    - cbv iota. rewrite lookup_alter_eq, Hb. by eexists.
    - destruct Hoff as (ob & -> & Hnob & _).
      rewrite lookup_alter_ne, lookup_alter_eq, Hb by done. by eexists. }
  rewrite !updateBook_run, Hid, Hb', Hown. split.
  - intros ->. apply N.eqb_neq in Hne. rewrite N.eqb_sym in Hne. by rewrite Hne.
  - intros -> Ht' Ha'. rewrite N.eqb_refl. unfold cast_patch. by rewrite Ht', Ha'.
Qed.

Lemma completion_moves_edit_rights_witness :
  let upd := call 1 10 {| bp_title := None; bp_author := None; bp_status := None |} in
  (user_id upd = 1 →
   updateBook Some Some upd demo_completed
     = (failure 403 "Not authorized to update this book", None, demo_completed)) ∧
  (user_id upd = 2 → bp_title (body upd) = None → bp_author (body upd) = None →
   ok (updateBook Some Some upd demo_completed).1.1 = true).
Proof.
  apply (completion_moves_edit_rights Some Some demo_accepted
           (call 2 0 (ask "completed")) (set_status accepted demo_request)
           (call 1 10 {| bp_title := None; bp_author := None; bp_status := None |})
           demo_accepted_reachable).
  - vm_compute. reflexivity.
  - reflexivity.
  - reflexivity.
  - vm_compute. reflexivity.
  - discriminate.
  - reflexivity.
Defined.

(** ** The unique index outside the lifecycle *)

Lemma unique_pending_cancel (P : Request → bool) s s' :
  unique_pending s →
  requests s' = updateMany P (set_status cancelled) (requests s) →
  unique_pending s'.
Proof.
  intros Huniq Hreq id1 id2 r1 r2. rewrite Hreq, !updateMany_lookup.
  destruct (requests s !! id1) as [o1|] eqn:H1; [|done].
  destruct (requests s !! id2) as [o2|] eqn:H2; [|done].
  cbn. intros [= <-] [= <-].
  destruct (P o1), (P o2); cbn; try done.
  intros Hs1 Hs2 Hq Hb. by apply (Huniq id1 id2 o1 o2).
Qed.

(** X28: the calls outside the lifecycle respect the unique index as well.
    From a store with at most one pending request for each requester and
    book, the admin's [updateRequest], [deleteUser] and [deleteBook] and the
    user's [deactivateAccount] all lead to such a store again, whether they
    succeed or fail. *)
Theorem pending_stays_unique_outside_the_lifecycle s :
  unique_pending s →
  (∀ req, unique_pending (handle (Admin.updateRequest req) s).2) ∧
  (∀ req, unique_pending (handle (Admin.deleteUser req) s).2) ∧
  (∀ req, unique_pending (handle (Admin.deleteBook req) s).2) ∧
  (∀ req, unique_pending (handle (deactivateAccount req) s).2).
Proof.
  intros Huniq. split; [|split; [|split]]; intros req.
  - rewrite admin_updateRequest_run.
    destruct (status_of_name (body req)) as [st|]; [|done].
    case_bool_decide; [|done].
    destruct (requests s !! params_id req) as [r|] eqn:Hr; [|done].
    destruct (Admin.index_clash (params_id req) r st (requests s)) eqn:Hclash; [done|].
    cbn [snd]. intros id1 id2 r1 r2. rewrite requests_with_requests.
    assert (∀ id' r', id' ≠ params_id req → requests s !! id' = Some r' →
                      status r' = pending → requester r' = requester r →
                      book r' = book r → st ≠ pending) as Hfree.
    { intros id' r' Hne Hr' Hs' Hq' Hb' ->.
      assert (Admin.index_clash (params_id req) r pending (requests s) = true);
        [|congruence].
      apply index_clash_spec. split; [done|]. by exists id', r'. }
    intros [[<- (o1 & Ho1 & ->)]|[Hne1 Hr1]]%lookup_alter_Some
           [[<- (o2 & Ho2 & ->)]|[Hne2 Hr2]]%lookup_alter_Some; cbn; try done.
    + rewrite Hr in Ho1. injection Ho1 as <-. intros Hst Hs2 Hq Hb. exfalso.
      by apply (Hfree id2 r2).
    + rewrite Hr in Ho2. injection Ho2 as <-. intros Hs1 Hst Hq Hb. exfalso.
      by apply (Hfree id1 r1).
    + by apply Huniq.
  - unfold handle, Admin.deleteUser, castObjectId, User_findById. rewrite run_reply_if.
    destruct (same_string (in_id req) (in_user req)); [done|].
    destruct (cast (in_id req)) as [uid|]; [|done]. rewrite run_ret, run_read.
    destruct (users s !! uid); [|done].
    by apply (unique_pending_cancel (pending_with uid) s).
  - unfold handle, Admin.deleteBook, Book_findById. rewrite run_read.
    destruct (books s !! params_id req); [|done]. rewrite run_write.
    by apply (unique_pending_cancel (pending_on (params_id req)) s).
  - rewrite deactivateAccount_run, deactivate_run.
    by apply (unique_pending_cancel (pending_with (user_id req)) s).
Qed.

Lemma pending_stays_unique_outside_the_lifecycle_witness :
  (∀ req, unique_pending (handle (Admin.updateRequest req) demo_pending).2) ∧
  (∀ req, unique_pending (handle (Admin.deleteUser req) demo_pending).2) ∧
  (∀ req, unique_pending (handle (Admin.deleteBook req) demo_pending).2) ∧
  (∀ req, unique_pending (handle (deactivateAccount req) demo_pending).2).
Proof.
  apply (pending_stays_unique_outside_the_lifecycle demo_pending).
  intros id1 id2 r1 r2.
  assert (requests demo_pending = {[0%N := demo_request]}) as ->
    by (vm_compute; reflexivity).
  by intros [<- _]%lookup_singleton_Some [<- _]%lookup_singleton_Some.
Defined.

(** ** The two layers agree *)

Lemma on_id_step {B} (h : Req B → Handler) (req : RawReq B) s :
  (∀ typed, user_id typed = in_user req → step s (handle (h typed) s).2) →
  (handle (on_id h req) s).2 = s ∨ step s (handle (on_id h req) s).2.
Proof.
  intros Hstep. rewrite on_id_run.
  destruct (cast (in_id req)) as [id|]; [|by left].
  right. by apply Hstep.
Qed.

(** X30: the stores the lifecycle operations reach are closed under the
    calls as Express makes them.  A call of [createRequest],
    [updateRequest], [deleteRequest] or [deleteBook] whose ids are strings
    either changes nothing or is the call on the ids they cast to, and
    [rateRequest] with a string for a rating is a step of its own; so what
    is proved of every reachable store also holds after such calls. *)
Theorem reachable_by_raw_calls s :
  reachable s →
  (∀ req, is_Some (users s !! in_user req) →
          reachable (handle (Http.createRequest req) s).2) ∧
  (∀ req, is_Some (users s !! in_user req) →
          reachable (handle (Http.updateRequest req) s).2) ∧
  (∀ ts tn req, is_Some (users s !! in_user req) →
                reachable (handle (Http.rateRequest ts tn req) s).2) ∧
  (∀ req, is_Some (users s !! in_user req) →
          reachable (handle (Http.deleteRequest req) s).2) ∧
  (∀ req, is_Some (users s !! in_user req) →
          reachable (handle (Http.deleteBook req) s).2).
Proof.
  intros Hreach.
  assert (∀ s', s' = s ∨ step s s' → reachable s') as Hclosed.
  { intros s' [->|Hstep]; [done|]. by eapply reachable_step. }
  split; [|split; [|split; [|split]]].
  - intros req Hauth. apply Hclosed.
    destruct (cast (Http.raw_book (in_body req))) as [bid|] eqn:Hbid.
    2: { left. by rewrite Http_createRequest_uncast. }
    pose proof (Http_createRequest_cast s req bid Hbid) as Hraw.
    pose proof (createRequest_cases s (cast_create req bid)) as Htyped.
    destruct (handle (Http.createRequest req) s) as [resp s'].
    destruct Hraw as [(_ & -> & _)|[(b & _ & -> & _)|[(b & msg & _ & -> & _)
      |(b & Hnew & Hact & Hgood)]]]; [by left..|].
    right. cbn [snd].
    replace s' with (handle (createRequest (cast_create req bid)) s).2.
    { by apply step_createRequest. }
    destruct (handle (createRequest (cast_create req bid)) s) as [resp2 s2].
    destruct Htyped as [(_ & _ & Hno)|[(b' & msg & _ & _ & Hact' & Hbad)
      |(b' & Hnew' & Hact' & _)]].
    + destruct Hno. eauto.
    + destruct Hact as [Hb _], Hact' as [Hb' _].
      assert (b' = b) as -> by congruence. done.
    + destruct Hact as [Hb _], Hact' as [Hb' _].
      assert (b' = b) as -> by congruence.
      rewrite <- Hnew' in Hnew. by injection Hnew as _ ->.
  - intros req Hauth. apply Hclosed, on_id_step.
    intros typed Huid. apply step_updateRequest. by rewrite Huid.
  - intros ts tn req Hauth. eapply reachable_step; [done|].
    by apply step_rateRequest_raw.
  - intros req Hauth. apply Hclosed, on_id_step.
    intros typed Huid. apply step_deleteRequest. by rewrite Huid.
  - intros req Hauth. apply Hclosed, on_id_step.
    intros typed Huid. apply step_deleteBook. by rewrite Huid.
Qed.

Lemma reachable_by_raw_calls_witness :
  reachable (handle (Http.rateRequest demo_toString demo_toNumber demo_text_call)
               demo_completed).2.
Proof.
  apply (proj1 (proj2 (proj2 (reachable_by_raw_calls demo_completed
                                demo_completed_reachable)))).
  vm_compute. by eexists.
Defined.
